(** * TechMatch OCR+LLM API: the batch document pipeline, embedded in Rocq

    A shallow embedding of the Python sources

      - [app/services/ocr.py]   (text extraction),
      - [app/services/nlp.py]   (keywords, similarity, summaries, excerpts),
      - [app/utils/text.py]     (pattern based information extraction),
      - [app/api.py]            ([process_batch], the batch orchestrator),

    followed by the properties the specification states about them.

    Modelling conventions.
      - A Python [str] is the list of its code points ([pystr]); [bytes] is a
        list of [Byte.byte].
      - A Python [float] is modelled by the rational it denotes ([Q]).
        Similarity scores are compared with float literals and printed to
        two decimal places, so they are computed as the machine computes
        them: literals and divisions are rounded to the nearest binary64
        number ([Float64.rnd]).  The confidences of the OCR service and of
        the analyses of [nlp.py] are kept as the exact values of their
        formulas, a literal denoting its decimal value; what is stated
        about them does not depend on the rounding.  NaN, the infinities,
        overflow and the sign of zero are outside the model.
      - An operation that may raise returns [exc A]; code that also reads the
        clock or draws identifiers lives in the monad [M] (state passing over
        the number of readings made so far, plus exceptions).
      - Third-party libraries (base64, PyMuPDF, Tesseract, scikit-learn, the
        [re] engine, the Unicode case and word tables) are interfaces (type
        classes), instantiated by small reference implementations where a
        concrete run is evaluated. *)

From Stdlib Require Import ZArith NArith QArith Qabs Lia List String Ascii.
From Stdlib Require Import Strings.Byte.
From Stdlib Require Import Permutation Sorted DecimalString Lqa Qpower.
From Stdlib Require Import DecimalFacts DecimalN.
From stdpp Require Import base option list gmap sets sorting.

(* ===================================================================== *)
(** * Python values *)
(* ===================================================================== *)

Module Py.
Local Open Scope N_scope.

(** A [str]: the sequence of its Unicode code points. *)
Abbreviation pystr := (list N).

(** A [bytes] object. *)
Abbreviation pybytes := (list byte).

#[export] Instance byte_eq_decision : EqDecision byte := Byte.byte_eq_dec.

Definition in_range (lo hi n : N) : bool := (lo <=? n) && (n <=? hi).

(** ** [bytes.decode('utf-8')], strict error handling

    Accepts exactly the well-formed byte sequences of the Unicode standard
    (no overlong forms, no surrogates, nothing above U+10FFFF); [None] stands
    for [UnicodeDecodeError]. *)

Definition second_range (b0 : N) : N * N :=
  if b0 =? 224 then (160, 191)
  else if b0 =? 237 then (128, 159)
  else if b0 =? 240 then (144, 191)
  else if b0 =? 244 then (128, 143)
  else (128, 191).

Definition is_cont (b : byte) : bool := in_range 128 191 (Byte.to_N b).

Definition is_second (b0 : N) (b : byte) : bool :=
  in_range (fst (second_range b0)) (snd (second_range b0)) (Byte.to_N b).

Definition low6 (b : byte) : N := N.land (Byte.to_N b) 63.

Fixpoint utf8_decode (bs : pybytes) : option pystr :=
  match bs with
  | [] => Some []
  | b0 :: r0 =>
    let n0 := Byte.to_N b0 in
    if n0 <? 128 then
      option_map (cons n0) (utf8_decode r0)
    else if in_range 194 223 n0 then
      match r0 with
      | b1 :: r1 =>
        if is_cont b1
        then option_map (cons (N.shiftl (N.land n0 31) 6 + low6 b1))
                        (utf8_decode r1)
        else None
      | _ => None
      end
    else if in_range 224 239 n0 then
      match r0 with
      | b1 :: b2 :: r2 =>
        if is_second n0 b1 && is_cont b2
        then option_map
               (cons (N.shiftl (N.land n0 15) 12 + N.shiftl (low6 b1) 6
                      + low6 b2))
               (utf8_decode r2)
        else None
      | _ => None
      end
    else if in_range 240 244 n0 then
      match r0 with
      | b1 :: b2 :: b3 :: r3 =>
        if is_second n0 b1 && is_cont b2 && is_cont b3
        then option_map
               (cons (N.shiftl (N.land n0 7) 18 + N.shiftl (low6 b1) 12
                      + N.shiftl (low6 b2) 6 + low6 b3))
               (utf8_decode r3)
        else None
      | _ => None
      end
    else None
  end.

(** [bytes.decode('utf-8', errors="ignore")]: an ill-formed sequence is
    dropped up to, and not including, the byte that breaks it. *)
Fixpoint utf8_decode_ignore (bs : pybytes) : pystr :=
  match bs with
  | [] => []
  | b0 :: r0 =>
    let n0 := Byte.to_N b0 in
    if n0 <? 128 then n0 :: utf8_decode_ignore r0
    else if in_range 194 223 n0 then
      match r0 with
      | b1 :: r1 =>
        if is_cont b1
        then (N.shiftl (N.land n0 31) 6 + low6 b1) :: utf8_decode_ignore r1
        else utf8_decode_ignore r0
      | [] => []
      end
    else if in_range 224 239 n0 then
      match r0 with
      | b1 :: r1 =>
        if is_second n0 b1 then
          match r1 with
          | b2 :: r2 =>
            if is_cont b2
            then (N.shiftl (N.land n0 15) 12 + N.shiftl (low6 b1) 6
                  + low6 b2) :: utf8_decode_ignore r2
            else utf8_decode_ignore r1
          | [] => []
          end
        else utf8_decode_ignore r0
      | [] => []
      end
    else if in_range 240 244 n0 then
      match r0 with
      | b1 :: r1 =>
        if is_second n0 b1 then
          match r1 with
          | b2 :: r2 =>
            if is_cont b2 then
              match r2 with
              | b3 :: r3 =>
                if is_cont b3
                then (N.shiftl (N.land n0 7) 18 + N.shiftl (low6 b1) 12
                      + N.shiftl (low6 b2) 6 + low6 b3)
                       :: utf8_decode_ignore r3
                else utf8_decode_ignore r2
              | [] => []
              end
            else utf8_decode_ignore r1
          | [] => []
          end
        else utf8_decode_ignore r0
      | [] => []
      end
    else utf8_decode_ignore r0
  end.

(** A string literal of this file, read as the [str] its UTF-8 bytes encode
    (the empty [str] if they encode none). *)
Definition py (s : string) : pystr :=
  match utf8_decode (list_byte_of_string s) with
  | Some t => t
  | None => []
  end.

(** ** Whitespace: [str.isspace] on one character, [str.strip()], [str.split()] *)

Definition is_space (c : N) : bool :=
  in_range 9 13 c || in_range 28 32 c || (c =? 133) || (c =? 160)
  || (c =? 5760) || in_range 8192 8202 c || (c =? 8232) || (c =? 8233)
  || (c =? 8239) || (c =? 8287) || (c =? 12288).

Fixpoint lstrip (s : pystr) : pystr :=
  match s with
  | c :: s' => if is_space c then lstrip s' else s
  | [] => []
  end.

Definition rstrip (s : pystr) : pystr := rev (lstrip (rev s)).

Definition strip (s : pystr) : pystr := rstrip (lstrip s).

(** [split_at sep s]: the pieces of [s] between the characters satisfying
    [sep], empty pieces included ([cur] is the piece being read, reversed). *)
Fixpoint split_at_aux (sep : N -> bool) (cur : pystr) (s : pystr)
  : list pystr :=
  match s with
  | [] => [rev cur]
  | c :: s' =>
    if sep c then rev cur :: split_at_aux sep [] s'
    else split_at_aux sep (c :: cur) s'
  end.

Definition split_at (sep : N -> bool) (s : pystr) : list pystr :=
  split_at_aux sep [] s.

Definition nonempty {A} (l : list A) : bool :=
  match l with [] => false | _ => true end.

(** [s.split()]: maximal runs of non-whitespace characters. *)
Definition split (s : pystr) : list pystr :=
  filter (fun w => nonempty w = true) (split_at is_space s).

(** [s.split('.')]. *)
Definition split_on (c : N) (s : pystr) : list pystr :=
  split_at (N.eqb c) s.

(** [sep.join(parts)]. *)
Fixpoint join (sep : pystr) (parts : list pystr) : pystr :=
  match parts with
  | [] => []
  | [p] => p
  | p :: ps => p ++ sep ++ join sep ps
  end.

(** [s[:n]]. *)
Definition prefix (n : nat) (s : pystr) : pystr := take n s.

(** [s.startswith(p)]. *)
Fixpoint startswith (p s : pystr) : bool :=
  match p, s with
  | [], _ => true
  | a :: p', b :: s' => (a =? b) && startswith p' s'
  | _ :: _, [] => false
  end.

(** ** Floats as rationals *)

Definition Qltb (a b : Q) : bool := negb (Qle_bool b a).

(** [min(a, b)] on two floats: [b] when [b < a], else [a]. *)
Definition pymin (a b : Q) : Q := if Qltb b a then b else a.

(** [max(a, b, c)] on three ints. *)
Definition pymax3 (a b c : nat) : nat := Nat.max (Nat.max a b) c.

(** The integer nearest to [q], ties going to the even one. *)
Definition round_half_even (q : Q) : Z :=
  let n := Qnum q in
  let d := Z.pos (Qden q) in
  let fl := (n / d)%Z in
  match (2 * (n mod d) ?= d)%Z with
  | Lt => fl
  | Gt => (fl + 1)%Z
  | Eq => if Z.even fl then fl else (fl + 1)%Z
  end.

Definition digit (d : Z) : N := 48 + Z.to_N d.

Definition decimal (n : Z) : pystr :=
  py (NilZero.string_of_uint (N.to_uint (Z.to_N n))).

(** [f"{q:.2f}"] for the float of value [q]: Python prints the numeral with
    two decimal places nearest to the exact value of the float, the even
    one when two are as near. *)
Definition format_2f (q : Q) : pystr :=
  let c := round_half_even (Qabs q * 100) in
  (if Qltb q 0 then py "-" else [])
    ++ decimal (c / 100) ++ py "."
    ++ [digit ((c mod 100) / 10); digit (c mod 10)].

End Py.

(* ===================================================================== *)
(** * Floats *)
(* ===================================================================== *)

(** A Python [float] is an IEEE 754 binary64 number.  A finite one is
    modelled by the rational it denotes.  Similarity scores are compared
    with float literals and printed digit by digit, so for them the
    rounding of the machine is part of the model: [rnd q] is the float
    nearest to the rational [q], the tie going to the even significand.
    This is the value of a decimal literal, of the true division of two
    ints, and of every arithmetic operation on floats.  Overflow, the
    infinities and NaN are left out. *)

Module Float64.
Import Py.
Local Open Scope Q_scope.

Definition pow2 (e : Z) : Q := Qpower 2 e.

(** The exponent [e] with [2 ^ e <= n / d < 2 ^ (e + 1)], for positive [n]
    and [d]. *)
Definition ilog2 (n d : Z) : Z :=
  let e := (Z.log2 n - Z.log2 d)%Z in
  if (if (0 <=? e)%Z then (d * 2 ^ e <=? n)%Z else (d <=? n * 2 ^ (- e))%Z)
  then e else (e - 1)%Z.

(** The exponent of the last binary place of the floats around [q]: 53
    significant bits, and no place below [2 ^ -1074]. *)
Definition exponent (q : Q) : Z :=
  Z.max (ilog2 (Z.abs (Qnum q)) (Z.pos (Qden q)) - 52) (-1074).

Definition rnd (q : Q) : Q :=
  let q := Qred q in
  if Qeq_bool q 0 then 0
  else
    let e := exponent q in
    Qred (inject_Z (round_half_even (q / pow2 e)) * pow2 e).

(** [a / b] on two ints, [b] not zero. *)
Definition div_int (a b : nat) : Q :=
  rnd (inject_Z (Z.of_nat a) / inject_Z (Z.of_nat b)).

End Float64.

(* ===================================================================== *)
(** * Exceptions, the clock and identifiers *)
(* ===================================================================== *)

Module Eff.
Import Py.

(** The outcome of an operation that may raise: its value, or the message of
    the exception ([str(e)]). *)
Inductive exc (A : Type) : Type :=
| Ok (a : A)
| Raise (msg : pystr).
Arguments Ok {A} a.
Arguments Raise {A} msg.

Definition exc_bind {A B} (c : exc A) (k : A -> exc B) : exc B :=
  match c with
  | Ok a => k a
  | Raise e => Raise e
  end.

(** [try: body  except Exception as e: handler(e)]. *)
Definition exc_try {A} (body : exc A) (handler : pystr -> exc A) : exc A :=
  match body with
  | Ok a => Ok a
  | Raise e => handler e
  end.

Definition is_ok {A} (c : exc A) : bool :=
  match c with Ok _ => true | Raise _ => false end.

(** What the process observes of its environment: the successive readings of
    [time.time()] and [datetime.utcnow()], and the successive values of
    [str(uuid.uuid4())]. *)
Class World := {
  time_reading : nat -> Q;
  utc_reading : nat -> Q;
  uuid_value : nat -> pystr;
}.

(** How many clock readings and identifiers have been consumed. *)
Record St := { ticks : nat; drawn : nat }.

Definition M (A : Type) : Type := St -> St * exc A.

Definition ret {A} (a : A) : M A := fun s => (s, Ok a).

Definition raise {A} (e : pystr) : M A := fun s => (s, Raise e).

Definition bind {A B} (c : M A) (k : A -> M B) : M B :=
  fun s =>
    match c s with
    | (s', Ok a) => k a s'
    | (s', Raise e) => (s', Raise e)
    end.

Definition lift {A} (c : exc A) : M A := fun s => (s, c).

(** [try: body  except Exception as e: handler(e)]; what the body did to the
    environment before raising stays done. *)
Definition try_except {A} (body : M A) (handler : pystr -> M A) : M A :=
  fun s =>
    match body s with
    | (s', Ok a) => (s', Ok a)
    | (s', Raise e) => handler e s'
    end.

Section Env.
Context {W : World}.

(** [time.time()] *)
Definition time_time : M Q :=
  fun s => ({| ticks := S (ticks s); drawn := drawn s |},
            Ok (time_reading (ticks s))).

(** [datetime.utcnow()] *)
Definition utcnow : M Q :=
  fun s => ({| ticks := S (ticks s); drawn := drawn s |},
            Ok (utc_reading (ticks s))).

(** [str(uuid.uuid4())] *)
Definition uuid4 : M pystr :=
  fun s => ({| ticks := ticks s; drawn := S (drawn s) |},
            Ok (uuid_value (drawn s))).
End Env.

Declare Scope exc_scope.
Delimit Scope exc_scope with exc.
Declare Scope io_scope.
Delimit Scope io_scope with io.

Notation "'let*' x ':=' c 'in' k" := (exc_bind c (fun x => k))
  (at level 10, x pattern, c at level 100, k at level 200, only parsing)
  : exc_scope.
Notation "'let*' x ':=' c 'in' k" := (bind c (fun x => k))
  (at level 10, x pattern, c at level 100, k at level 200, only parsing)
  : io_scope.

End Eff.

(* ===================================================================== *)
(** * [list.sort(key=..., reverse=True)] *)
(* ===================================================================== *)

Module Sorting.

Section Sort.
Context {A K : Type} (ltb : K -> K -> bool) (key : A -> K).

(** [x] goes in front of the first element whose key is not greater than
    its own. *)
Fixpoint insert_desc (x : A) (l : list A) : list A :=
  match l with
  | [] => [x]
  | y :: l' =>
    if ltb (key x) (key y) then y :: insert_desc x l' else x :: y :: l'
  end.

(** Python's sort is stable, with [reverse=True] too: the result is the
    arrangement of the list by decreasing key in which elements of equal
    key keep their order.  Insertion from the right computes it. *)
Definition sort_by_desc (l : list A) : list A := foldr insert_desc [] l.

(** Two keys neither of which is below the other. *)
Definition same_key (a b : K) : Prop := ltb a b = false /\ ltb b a = false.

Global Instance same_key_dec a b : Decision (same_key a b).
Proof. unfold same_key. apply _. Defined.
End Sort.

End Sorting.

(* ===================================================================== *)
(** * app/models.py *)
(* ===================================================================== *)

Module Models.
Import Py.

Inductive DocumentType := PDF | IMAGE | TEXT | DOCX | DOC.

Inductive ProcessingStatus :=
  PENDING | PROCESSING | COMPLETED | FAILED | CANCELLED.

(** [OCRResult]; the model declares no [language] field, so the keyword the
    OCR service passes under that name is dropped by the constructor. *)
Record OCRResult := {
  text : pystr;
  confidence : Q;
  processing_time : Q;
  page_count : option Z;
}.

Record DocumentResult := {
  document_id : pystr;
  filename : pystr;
  status : ProcessingStatus;
  extracted_text : option pystr;
  summary : option pystr;
  similarity_score : option Q;
  justification : option pystr;
  relevant_excerpts : option (list pystr);
  doc_processing_time : Q;
  error_message : option pystr;
}.

Record BatchResponse := {
  request_id : pystr;
  user_id : pystr;
  query : option pystr;
  total_documents : nat;
  successful_documents : nat;
  failed_documents : nat;
  results : list DocumentResult;
  total_processing_time : Q;
  timestamp : Q;
}.

(** The keyword arguments of [audit_log.write_log]; [resultado] is the dict
    of aggregate counts ([None] for the empty dict of the error path). *)
Record BatchSummary := {
  sum_total_documents : nat;
  sum_successful_documents : nat;
  sum_failed_documents : nat;
  sum_has_query : bool;
  sum_processing_mode : pystr;
}.

Record AuditRecord := {
  log_request_id : pystr;
  log_user_id : pystr;
  log_query : option pystr;
  log_resultado : option BatchSummary;
  log_processing_time : option Q;
  log_error : option pystr;
}.

(** A [starlette] upload: its name, its declared content type (absent when
    the part carries none) and what [await file.read()] gives. *)
Record UploadFile := {
  up_filename : pystr;
  up_content_type : option pystr;
  up_read : Eff.exc pybytes;
}.

End Models.

(* ===================================================================== *)
(** * app/services/ocr.py *)
(* ===================================================================== *)

Module OCR.
Import Py Eff Models.
Local Open Scope Q_scope.

(** The libraries the OCR service drives: [base64], PyMuPDF ([fitz]), PIL and
    Tesseract.  Every call may raise. *)
Class Backend := {
  document : Type;
  page : Type;
  image : Type;
  (** [base64.b64encode(data).decode("utf-8")] *)
  b64encode : pybytes -> pystr;
  (** [base64.b64decode(content)] *)
  b64decode : pystr -> exc pybytes;
  (** [fitz.open(stream=data, filetype="pdf")] *)
  fitz_open : pybytes -> exc document;
  (** [pdf_document.page_count] *)
  doc_page_count : document -> nat;
  (** [pdf_document[page_num]] *)
  load_page : document -> nat -> exc page;
  (** [page.get_text()] *)
  get_text : page -> exc pystr;
  (** [page.get_pixmap().tobytes("png")] *)
  pixmap_png : page -> exc pybytes;
  (** [pdf_document.close()] *)
  doc_close : document -> exc unit;
  (** [Image.open(io.BytesIO(data))] *)
  image_open : pybytes -> exc image;
  (** [pytesseract.image_to_string(image, lang=language)] *)
  image_to_string : image -> pystr -> exc pystr;
}.

Section Service.
Context {B : Backend} {W : World}.

Definition len_over (s : pystr) (d : Z) : Q :=
  (inject_Z (Z.of_nat (length s)) / inject_Z d)%Q.

(** One iteration of the page loop of [_extract_from_pdf]: the text the
    page contributes and the confidence it adds. *)
Definition pdf_page (doc : document) (language : pystr) (page_num : nat)
  : exc (pystr * Q) :=
  (let* pg := load_page doc page_num in
   let* direct_text := get_text pg in
   if nonempty (strip direct_text) then
     Ok (direct_text, 95 # 100)
   else
     let* img_data := pixmap_png pg in
     let* img := image_open img_data in
     let* ocr_text := image_to_string img language in
     Ok (ocr_text, pymin (8 # 10) (len_over (strip ocr_text) 1000)))%exc.

(** The page loop: [acc] is ([all_text], [total_confidence], [page_count]). *)
Fixpoint pdf_pages (doc : document) (language : pystr)
         (page_nums : list nat) (acc : list pystr * Q * nat)
  : exc (list pystr * Q * nat) :=
  match page_nums with
  | [] => Ok acc
  | page_num :: rest =>
    (let* (t, c) := pdf_page doc language page_num in
     let '(all_text, total_confidence, count) := acc in
     pdf_pages doc language rest
               (all_text ++ [t], (total_confidence + c)%Q, S count))%exc
  end.

Definition pdf_body (file_data : pybytes) (language : pystr)
  : exc (pystr * Q) :=
  (let* pdf_document := fitz_open file_data in
   let* (all_text, total_confidence, count) :=
     pdf_pages pdf_document language
               (seq 0 (doc_page_count pdf_document)) ([], 0, 0%nat) in
   let* _ := doc_close pdf_document in
   let final_text := join (py (String "010" (String "010" ""))) all_text in
   let avg_confidence :=
     if (0 <? count)%nat
     then (total_confidence / inject_Z (Z.of_nat count))%Q
     else 0 in
   Ok (final_text, pymin 1 avg_confidence))%exc.

Definition _extract_from_pdf (file_data : pybytes) (language : pystr)
  : exc (pystr * Q) :=
  exc_try (pdf_body file_data language) (fun _ => Ok ([], 0)).

Definition image_body (file_data : pybytes) (language : pystr)
  : exc (pystr * Q) :=
  (let* img := image_open file_data in
   let* t := image_to_string img language in
   Ok (t, pymin (9 # 10) (len_over (strip t) 500)))%exc.

Definition _extract_from_image (file_data : pybytes) (language : pystr)
  : exc (pystr * Q) :=
  exc_try (image_body file_data language) (fun _ => Ok ([], 0)).

(** [bytes.decode('utf-8')] as the service calls it: strict. *)
Definition decode_utf8 (file_data : pybytes) : exc pystr :=
  match utf8_decode file_data with
  | Some t => Ok t
  | None => Raise (py "'utf-8' codec can't decode bytes")
  end.

(** The part of [extract_text_from_document] under [try], before the timing
    is taken: decode the base64 content and dispatch on the kind. *)
Definition extract_dispatch (content : pystr) (document_type : DocumentType)
           (language : pystr) : exc (pystr * Q) :=
  (let* file_data := b64decode content in
   match document_type with
   | PDF => _extract_from_pdf file_data language
   | IMAGE => _extract_from_image file_data language
   | _ =>
     let* t := decode_utf8 file_data in
     Ok (t, 1)
   end)%exc.

Definition extract_text_from_document
           (content : pystr) (document_type : DocumentType)
           (language : pystr) : M OCRResult :=
  (let* start_time := time_time in
   try_except
     (let* (t, c) := lift (extract_dispatch content document_type language) in
      let* now := time_time in
      ret {| text := t; confidence := c;
             processing_time := (now - start_time)%Q; page_count := None |})
     (fun _ =>
        let* now := time_time in
        ret {| text := []; confidence := 0;
               processing_time := (now - start_time)%Q;
               page_count := None |}))%io.

End Service.
End OCR.

(* ===================================================================== *)
(** * app/services/nlp.py *)
(* ===================================================================== *)

Module NLP.
Import Py Eff Sorting.

(** The Unicode tables behind [str.lower()] and the [\w] of [re]. *)
Class Unicode := {
  lower : pystr -> pystr;
  is_word : N -> bool;
}.

(** The body of the [try] of [calculate_similarity]: import scikit-learn,
    vectorize the query and the texts with TF-IDF, return the cosine
    similarities of the query to each text. *)
Class Vectorizer := {
  tfidf_cosine : pystr -> list pystr -> exc (list Q);
}.

Section Service.
Context {U : Unicode} {V : Vectorizer}.

(** ** [re.findall(r'\b[a-záàâãéêíóôõúç]{n,}\b', s)] *)

Definition is_letter (c : N) : bool :=
  in_range 97 122 c || bool_decide (c ∈ py "áàâãéêíóôõúç").

Definition is_word_opt (c : option N) : bool :=
  match c with Some c => is_word c | None => false end.

(** [\b] between two neighbouring positions. *)
Definition boundary (before after : option N) : bool :=
  xorb (is_word_opt before) (is_word_opt after).

(** Length of the longest run of letters [s] starts with. *)
Fixpoint letter_run (s : pystr) : nat :=
  match s with
  | c :: s' => if is_letter c then S (letter_run s') else 0
  | [] => 0
  end.

(** The greedy quantifier backing off: the largest [m0 <= m], not below
    [min_len], with a word boundary after [m0] characters of [s]. *)
Fixpoint back_off (min_len : nat) (s : pystr) (m : nat) : option nat :=
  if (m <? min_len)%nat then None
  else if boundary (s !! (m - 1)%nat) (s !! m) then Some m
  else match m with
       | S m' => back_off min_len s m'
       | O => None
       end.

(** Length of the match starting where [s] starts, [prev] being the
    character before. *)
Definition match_here (min_len : nat) (prev : option N) (s : pystr)
  : option nat :=
  if boundary prev (head s) then back_off min_len s (letter_run s)
  else None.

(** The scan of [findall]: [skip] characters of [s] still belong to the
    match found last. *)
Fixpoint findall_from (min_len : nat) (prev : option N) (skip : nat)
         (s : pystr) : list pystr :=
  match s with
  | [] => []
  | c :: s' =>
    match skip with
    | S k => findall_from min_len (Some c) k s'
    | O =>
      match match_here min_len prev s with
      | Some m => take m s :: findall_from min_len (Some c) (m - 1) s'
      | None => findall_from min_len (Some c) 0 s'
      end
    end
  end.

Definition findall_words (min_len : nat) (s : pystr) : list pystr :=
  findall_from min_len None 0 s.

(** ** [collections.Counter] and [most_common] *)

(** A [Counter] as the dict it is: keys in insertion order. *)
Fixpoint counter_add (w : pystr) (c : list (pystr * nat))
  : list (pystr * nat) :=
  match c with
  | [] => [(w, 1%nat)]
  | (k, n) :: c' =>
    if decide (k = w) then (k, S n) :: c' else (k, n) :: counter_add w c'
  end.

Definition Counter (ws : list pystr) : list (pystr * nat) :=
  fold_left (fun c w => counter_add w c) ws [].

(** [most_common(n)] is [heapq.nlargest(n, items, key=count)]: the first
    [n] items of the stable sort by decreasing count, none for [n <= 0]. *)
Definition most_common (n : Z) (c : list (pystr * nat))
  : list (pystr * nat) :=
  take (Z.to_nat n) (sort_by_desc Nat.ltb snd c).

(** ** [extract_keywords] *)

Definition stop_words : gset pystr :=
  list_to_set (map py
    ["que"; "para"; "com"; "uma"; "por"; "são"; "dos"; "das"; "como";
     "mais"; "foi"; "ser"; "tem"; "ter"; "seu"; "sua"; "seus"; "suas";
     "este"; "esta"; "estes"; "estas"; "isso"; "isto"; "aqui"; "ali";
     "onde"; "quando"; "como"; "porque"; "mas"; "também"; "ainda";
     "apenas"; "muito"; "bem"; "todo"; "toda"; "todos"; "todas"; "outro";
     "outra"; "outros"; "outras"]%string).

Definition extract_keywords (text : pystr) (max_keywords : Z)
  : exc (list pystr) :=
  exc_try
    (let words := findall_words 3 (lower text) in
     let filtered_words :=
       filter (fun word => (word ∉ stop_words) /\ (3 < length word)%nat)
              words in
     let word_counts := Counter filtered_words in
     let keywords := map fst (most_common max_keywords word_counts) in
     Ok keywords)
    (fun _ => Ok []).

(** ** [calculate_similarity] *)

(** [set(s.lower().split())] *)
Definition word_set (s : pystr) : gset pystr := list_to_set (split (lower s)).

(** The exact quotient of two ints, for the formulas whose digits are not
    looked at. *)
Definition int_div (a b : nat) : Q :=
  (inject_Z (Z.of_nat a) / inject_Z (Z.of_nat b))%Q.

(** The [except] branch; the quotient of the two sizes is a float. *)
Definition fallback_similarity (query : pystr) (texts : list pystr)
  : list Q :=
  let query_words := word_set query in
  map (fun text =>
         let text_words := word_set text in
         let common_words := query_words ∩ text_words in
         let similarity :=
           Float64.div_int
             (size common_words)
             (pymax3 (size query_words) (size text_words) 1) in
         pymin similarity 1)
      texts.

Definition calculate_similarity (query : pystr) (texts : list pystr)
  : exc (list Q) :=
  exc_try (tfidf_cosine query texts)
          (fun _ => Ok (fallback_similarity query texts)).

(** ** [summarize_text] *)

(** [re.split(pattern, s)] for a pattern matching the maximal runs of the
    characters satisfying [sep]. *)
Fixpoint split_runs_aux (sep : N -> bool) (in_run : bool) (cur s : pystr)
  : list pystr :=
  match s with
  | [] => [rev cur]
  | c :: s' =>
    if sep c then
      if in_run then split_runs_aux sep true [] s'
      else rev cur :: split_runs_aux sep true [] s'
    else split_runs_aux sep false (c :: cur) s'
  end.

Definition is_terminal (c : N) : bool := bool_decide (c ∈ py ".!?").

Definition _split_sentences (text : pystr) : list pystr :=
  let sentences := split_runs_aux is_terminal false [] text in
  map strip (filter (fun s => nonempty (strip s) = true) sentences).

(** [s[:n] + "..." if len(s) > n else s] *)
Definition truncate (n : nat) (s : pystr) : pystr :=
  if (n <? length s)%nat then prefix n s ++ py "..." else s.

(** Nothing in the [try] raises on a [str]; the [except] branch is dead. *)
Definition summarize_text (text : pystr) : exc pystr :=
  exc_try
    (let sentences := _split_sentences text in
     if (length sentences <=? 3)%nat then Ok (truncate 500 text)
     else
       let summary_sentences :=
         take 2 sentences ++ drop (length sentences - 1) sentences in
       let summary := join (py " ") summary_sentences in
       Ok (truncate 500 summary))
    (fun _ => Ok (truncate 200 text)).

(** ** [find_relevant_excerpts] *)

Fixpoint zip_scores (xs : list pystr) (qs : list Q) : list (pystr * Q) :=
  match xs, qs with
  | x :: xs', q :: qs' => (x, q) :: zip_scores xs' qs'
  | _, _ => []
  end.

(** The loop of the [except] branch, with its [break]. *)
Fixpoint excerpts_loop (query_words : gset pystr) (max_excerpts : nat)
         (sentences relevant : list pystr) : list pystr :=
  match sentences with
  | [] => relevant
  | sentence :: rest =>
    if nonempty (elements (query_words ∩ word_set sentence)) then
      let relevant' := relevant ++ [strip sentence ++ py "."] in
      if (max_excerpts <=? length relevant')%nat then relevant'
      else excerpts_loop query_words max_excerpts rest relevant'
    else excerpts_loop query_words max_excerpts rest relevant
  end.

Definition fallback_excerpts (query text : pystr) (max_excerpts : nat)
  : list pystr :=
  let query_words := word_set query in
  let sentences :=
    map strip (filter (fun s => nonempty (strip s) = true)
                      (split_on 46 text)) in
  excerpts_loop query_words max_excerpts (take 10 sentences) [].

Definition find_relevant_excerpts (query text : pystr) (max_excerpts : nat)
  : exc (list pystr) :=
  exc_try
    (let sentences :=
       map strip (filter (fun s => nonempty (strip s) = true)
                         (split_on 46 text)) in
     if nonempty sentences then
       (let* similarities := calculate_similarity query sentences in
        let sentence_scores :=
          sort_by_desc Qltb snd (zip_scores sentences similarities) in
        Ok (map (fun p => strip (fst p) ++ py ".")
                (filter (fun p => Qltb (Float64.rnd (1 # 10)) (snd p) = true)
                        (take max_excerpts sentence_scores))))%exc
     else Ok [])
    (fun _ => Ok (fallback_excerpts query text max_excerpts)).

End Service.

(** What [process_batch] asks of the analyzer ([nlp_service]). *)
Class Service := {
  svc_summarize_text : pystr -> exc pystr;
  svc_calculate_similarity : pystr -> list pystr -> exc (list Q);
  svc_find_relevant_excerpts : pystr -> pystr -> exc (list pystr);
}.

(** The analyzer [app/api.py] imports. *)
Definition nlp_service {U : Unicode} {V : Vectorizer} : Service := {|
  svc_summarize_text := summarize_text;
  svc_calculate_similarity := calculate_similarity;
  svc_find_relevant_excerpts := fun q t => find_relevant_excerpts q t 3;
  |}.

End NLP.

(* ===================================================================== *)
(** * app/utils/text.py *)
(* ===================================================================== *)

Module TextUtils.
Import Py Eff.

(** [re.findall(pattern, text)] and [re.findall(pattern, text,
    re.IGNORECASE)] for a pattern without groups: the matched substrings,
    left to right. *)
Class Regex := {
  findall : pystr -> pystr -> exc (list pystr);
  findall_ignorecase : pystr -> pystr -> exc (list pystr);
}.

(** [list(set(xs))].  The order in which a Python set is iterated is not
    specified; the order of [elements] stands for it. *)
Definition list_of_set (xs : list pystr) : list pystr :=
  elements (list_to_set xs : gset pystr).

Section Extractors.
Context {R : Regex}.

Definition email_pattern : pystr :=
  py "\b[A-Za-z0-9._%+-]+@[A-Za-z0-9.-]+\.[A-Z|a-z]{2,}\b".

Definition extract_emails (text : pystr) : exc (list pystr) :=
  exc_try
    (let* emails := findall email_pattern text in
     Ok (list_of_set emails))%exc
    (fun _ => Ok []).

(** [for pattern in patterns: xs.extend(find(pattern, text))] *)
Fixpoint collect (find : pystr -> pystr -> exc (list pystr))
         (patterns : list pystr) (text : pystr) (xs : list pystr)
  : exc (list pystr) :=
  match patterns with
  | [] => Ok xs
  | pattern :: rest =>
    (let* matches := find pattern text in
     collect find rest text (xs ++ matches))%exc
  end.

Definition phone_patterns : list pystr :=
  [ py "\(\d{2}\)\s*\d{4,5}-?\d{4}";
    py "\d{2}\s*\d{4,5}-?\d{4}";
    py "\+55\s*\d{2}\s*\d{4,5}-?\d{4}" ].

Definition extract_phone_numbers (text : pystr) : exc (list pystr) :=
  exc_try
    (let* phones := collect findall phone_patterns text [] in
     Ok (list_of_set phones))%exc
    (fun _ => Ok []).

(** [url_pattern]; the double quote of its character class is code point
    34. *)
Definition url_pattern : pystr :=
  py "https?://[^\s<>" ++ [34%N] ++ py "{}|\\^`\[\]]+".

Definition extract_urls (text : pystr) : exc (list pystr) :=
  exc_try
    (let* urls := findall url_pattern text in
     Ok (list_of_set urls))%exc
    (fun _ => Ok []).

Definition date_patterns : list pystr :=
  [ py "\d{1,2}/\d{1,2}/\d{4}";
    py "\d{1,2}-\d{1,2}-\d{4}";
    py "\d{4}-\d{1,2}-\d{1,2}";
    py "\d{1,2}\s+de\s+\w+\s+de\s+\d{4}" ].

Definition extract_dates (text : pystr) : exc (list pystr) :=
  exc_try
    (let* dates := collect findall_ignorecase date_patterns text [] in
     Ok (list_of_set dates))%exc
    (fun _ => Ok []).

End Extractors.
End TextUtils.

(* ===================================================================== *)
(** * app/api.py *)
(* ===================================================================== *)

Module Api.
Import Py Eff Models Sorting.
Local Open Scope Q_scope.

(** [audit_log.write_log(...)]. *)
Class AuditSink := {
  write_log : AuditRecord -> M pystr;
}.

Definition LANG_MAP : gmap pystr pystr :=
  list_to_map
    [ (py "pt", py "por"); (py "en", py "eng"); (py "es", py "spa");
      (py "por", py "por"); (py "eng", py "eng"); (py "spa", py "spa") ].

(** [a or b] on two strings. *)
Definition str_or (a b : pystr) : pystr := if nonempty a then a else b.

(** [bool(query and query.strip())] *)
Definition has_query_of (query : option pystr) : bool :=
  match query with
  | None => false
  | Some q => nonempty q && nonempty (strip q)
  end.

(** The three bands of the justification. *)
Definition justify (similarity_score : Q) : pystr :=
  if Qltb (Float64.rnd (7 # 10)) similarity_score then
    py "Documento altamente relevante (score: "
      ++ format_2f similarity_score
      ++ py ") - contém informações relacionadas à query"
  else if Qltb (Float64.rnd (4 # 10)) similarity_score then
    py "Documento moderadamente relevante (score: "
      ++ format_2f similarity_score
      ++ py ") - possui algumas informações relacionadas"
  else
    py "Documento pouco relevante (score: "
      ++ format_2f similarity_score
      ++ py ") - poucas informações relacionadas à query".

(** The sort key [x.similarity_score or 0]. *)
Definition score_key (x : DocumentResult) : Q :=
  match similarity_score x with
  | Some s => if Qeq_bool s 0 then 0 else s
  | None => 0
  end.

Section Batch.
Context {W : World} {B : OCR.Backend} {U : NLP.Unicode}
        {nlp_service : NLP.Service} {audit_log : AuditSink}.

(** Text extraction, by declared content type. *)
Definition extract_by_type (file : UploadFile) (content : pybytes)
           (tess_lang : pystr) : M pystr :=
  (if bool_decide (up_content_type file = Some (py "application/pdf")) then
     let b64_content := OCR.b64encode content in
     let* ocr_result :=
       OCR.extract_text_from_document b64_content PDF tess_lang in
     ret (str_or (text ocr_result) [])
   else
     match up_content_type file with
     | None => raise (py "'NoneType' object has no attribute 'startswith'")
     | Some content_type =>
       if startswith (py "image/") content_type then
         let b64_content := OCR.b64encode content in
         let* ocr_result :=
           OCR.extract_text_from_document b64_content IMAGE tess_lang in
         ret (str_or (text ocr_result) [])
       else
         ret (utf8_decode_ignore content)
     end)%io.

(** The body of the per-document [try], up to the construction of the
    [DocumentResult]. *)
Definition document_body (has_query : bool) (query : pystr)
           (tess_lang : pystr) (file : UploadFile) (document_id : pystr)
           (doc_start_time : Q) : M DocumentResult :=
  (let* content := lift (up_read file) in
   let* extracted_text := extract_by_type file content tess_lang in
   let* summary := lift (NLP.svc_summarize_text extracted_text) in
   let* (similarity_score, justification, relevant_excerpts) :=
     (if has_query then
        let* similarities :=
          lift (NLP.svc_calculate_similarity query [extracted_text]) in
        let similarity_score :=
          match similarities with s :: _ => s | [] => 0 end in
        let* relevant_excerpts :=
          lift (NLP.svc_find_relevant_excerpts query extracted_text) in
        ret (Some similarity_score, Some (justify similarity_score),
             Some relevant_excerpts)
      else ret (None, None, None)) in
   let* now := time_time in
   ret {| document_id := document_id;
          filename := up_filename file;
          status := COMPLETED;
          extracted_text := Some extracted_text;
          summary := Some summary;
          similarity_score := similarity_score;
          justification := justification;
          relevant_excerpts := relevant_excerpts;
          doc_processing_time := now - doc_start_time;
          error_message := None |})%io.

(** The [except] branch of the per-document [try]. *)
Definition document_failed (file : UploadFile) (document_id : pystr)
           (doc_start_time : Q) (e : pystr) : M DocumentResult :=
  (let* now := time_time in
   ret {| document_id := document_id;
          filename := up_filename file;
          status := FAILED;
          extracted_text := None;
          summary := None;
          similarity_score := None;
          justification := None;
          relevant_excerpts := None;
          doc_processing_time := now - doc_start_time;
          error_message := Some e |})%io.

(** One turn of [for file in files]; [acc] is ([results],
    [successful_docs], [failed_docs]). *)
Definition process_file (has_query : bool) (query : pystr)
           (tess_lang : pystr) (file : UploadFile)
           (acc : list DocumentResult * nat * nat)
  : M (list DocumentResult * nat * nat) :=
  (let '(results, successful_docs, failed_docs) := acc in
   let* doc_start_time := time_time in
   let* document_id := uuid4 in
   try_except
     (let* doc_result :=
        document_body has_query query tess_lang file document_id
                      doc_start_time in
      ret (results ++ [doc_result], S successful_docs, failed_docs))
     (fun e =>
        let* doc_result :=
          document_failed file document_id doc_start_time e in
        ret (results ++ [doc_result], successful_docs, S failed_docs)))%io.

Fixpoint process_files (has_query : bool) (query : pystr)
         (tess_lang : pystr) (files : list UploadFile)
         (acc : list DocumentResult * nat * nat)
  : M (list DocumentResult * nat * nat) :=
  match files with
  | [] => ret acc
  | file :: rest =>
    (let* acc' := process_file has_query query tess_lang file acc in
     process_files has_query query tess_lang rest acc')%io
  end.

(** [results.sort(key=lambda x: x.similarity_score or 0, reverse=True)],
    when the run has a query. *)
Definition order_results (has_query : bool) (results : list DocumentResult)
  : list DocumentResult :=
  if has_query then sort_by_desc Qltb score_key results else results.

Definition batch_summary (files : list UploadFile)
           (successful_docs failed_docs : nat) (has_query : bool)
  : BatchSummary :=
  {| sum_total_documents := length files;
     sum_successful_documents := successful_docs;
     sum_failed_documents := failed_docs;
     sum_has_query := has_query;
     sum_processing_mode :=
       if has_query then py "ranking" else py "summary_only" |}.

(** The body of the outer [try]. *)
Definition batch_body (request_id user_id : pystr) (query : option pystr)
           (language : pystr) (files : list UploadFile) : M BatchResponse :=
  (let* start_time := time_time in
   let lang_param := NLP.lower (str_or language (py "por")) in
   let tess_lang := default (py "por") (LANG_MAP !! lang_param) in
   let has_query := has_query_of query in
   let* (results, successful_docs, failed_docs) :=
     process_files has_query (default [] query) tess_lang files
                   ([], 0%nat, 0%nat) in
   let results := order_results has_query results in
   let* now := time_time in
   let total_processing_time := now - start_time in
   let* stamp := utcnow in
   let batch_response :=
     {| request_id := request_id;
        user_id := user_id;
        query := if has_query then query else None;
        total_documents := length files;
        successful_documents := successful_docs;
        failed_documents := failed_docs;
        results := results;
        total_processing_time := total_processing_time;
        timestamp := stamp |} in
   let* _ :=
     try_except
       (let* _ :=
          write_log
            {| log_request_id := request_id;
               log_user_id := user_id;
               log_query := if has_query then query else None;
               log_resultado :=
                 Some (batch_summary files successful_docs failed_docs
                                     has_query);
               log_processing_time := Some total_processing_time;
               log_error := None |} in
        ret tt)
       (fun _ => ret tt) in
   ret batch_response)%io.

(** [process_batch]: a failure of the body is logged, tolerantly, and
    raised again as [HTTPException(500, detail=str(e))]. *)
Definition process_batch (request_id user_id : pystr)
           (query : option pystr) (language : pystr)
           (files : list UploadFile) : M BatchResponse :=
  try_except
    (batch_body request_id user_id query language files)
    (fun e =>
       (let* _ :=
          try_except
            (let* _ :=
               write_log
                 {| log_request_id := request_id;
                    log_user_id := user_id;
                    log_query := query;
                    log_resultado := None;
                    log_processing_time := None;
                    log_error := Some e |} in
             ret tt)
            (fun _ => ret tt) in
        raise e)%io).

End Batch.
End Api.

(* ===================================================================== *)
(** * Reference implementations of the interfaces, for concrete runs *)
(* ===================================================================== *)

Module Reference.
Import Py Eff Models.
Local Open Scope N_scope.

(** ** Unicode tables, exact on the code points below U+0100

    Above, a character is left as it is by [lower_char] and is no word
    character for [word_char]. *)

Definition lower_char (c : N) : N :=
  if in_range 65 90 c || (in_range 192 222 c && negb (c =? 215))
  then c + 32 else c.

Definition word_char (c : N) : bool :=
  in_range 48 57 c || in_range 65 90 c || (c =? 95) || in_range 97 122 c
  || (c =? 170) || (c =? 178) || (c =? 179) || (c =? 181) || (c =? 185)
  || (c =? 186) || in_range 188 190 c
  || (in_range 192 255 c && negb (c =? 215) && negb (c =? 247)).

Definition latin1 : NLP.Unicode :=
  {| NLP.lower := map lower_char; NLP.is_word := word_char |}.

(** ** scikit-learn not installed: the import raises *)

Definition no_sklearn : NLP.Vectorizer :=
  {| NLP.tfidf_cosine := fun _ _ =>
       Raise (py "No module named 'sklearn'") |}.

(** ** A clock that advances by one second per reading *)

Definition world : World :=
  {| time_reading := fun n => inject_Z (Z.of_nat n);
     utc_reading := fun n => inject_Z (Z.of_nat n);
     uuid_value := fun n => py "doc-" ++ decimal (Z.of_nat n) |}.

Definition s0 : St := {| ticks := 0; drawn := 0 |}.

(** ** Base64, on canonical input (the alphabet, padded) *)

Definition b64_char (n : N) : N :=
  if n <? 26 then 65 + n
  else if n <? 52 then 97 + (n - 26)
  else if n <? 62 then 48 + (n - 52)
  else if n =? 62 then 43 else 47.

Definition b64_index (c : N) : option N :=
  if in_range 65 90 c then Some (c - 65)
  else if in_range 97 122 c then Some (c - 97 + 26)
  else if in_range 48 57 c then Some (c - 48 + 52)
  else if c =? 43 then Some 62
  else if c =? 47 then Some 63
  else None.

Fixpoint b64_encode (bs : pybytes) : pystr :=
  match bs with
  | [] => []
  | [a] =>
    let x := Byte.to_N a in
    [b64_char (x / 4); b64_char ((x mod 4) * 16); 61; 61]
  | [a; b] =>
    let x := Byte.to_N a in
    let y := Byte.to_N b in
    [b64_char (x / 4); b64_char ((x mod 4) * 16 + y / 16);
     b64_char ((y mod 16) * 4); 61]
  | a :: b :: c :: rest =>
    let x := Byte.to_N a in
    let y := Byte.to_N b in
    let z := Byte.to_N c in
    b64_char (x / 4) :: b64_char ((x mod 4) * 16 + y / 16)
      :: b64_char ((y mod 16) * 4 + z / 64) :: b64_char (z mod 64)
      :: b64_encode rest
  end.

Definition to_byte (n : N) : byte := default x00 (Byte.of_N n).

Fixpoint b64_decode (s : pystr) : option pybytes :=
  match s with
  | [] => Some []
  | c0 :: c1 :: c2 :: c3 :: rest =>
    match b64_index c0, b64_index c1 with
    | Some i0, Some i1 =>
      let b0 := to_byte (i0 * 4 + i1 / 16) in
      match b64_index c2 with
      | Some i2 =>
        let b1 := to_byte ((i1 mod 16) * 16 + i2 / 4) in
        match b64_index c3 with
        | Some i3 =>
          let b2 := to_byte ((i2 mod 4) * 64 + i3) in
          option_map (fun r => b0 :: b1 :: b2 :: r) (b64_decode rest)
        | None =>
          if (c3 =? 61) && negb (nonempty rest) then Some [b0; b1] else None
        end
      | None =>
        if (c2 =? 61) && (c3 =? 61) && negb (nonempty rest)
        then Some [b0] else None
      end
    | _, _ => None
    end
  | _ => None
  end.

(** ** A scripted document backend

    A test fixes which byte payloads are PDFs and what their pages hold
    ([pdfs]), and what Tesseract reads from each picture ([pictures]). *)

Record ScriptedPage := {
  layer : exc pystr;
  pixels : exc pybytes;
}.

Definition backend (pdfs : pybytes -> exc (list ScriptedPage))
           (pictures : pybytes -> exc pystr) : OCR.Backend :=
  {| OCR.document := list ScriptedPage;
     OCR.page := ScriptedPage;
     OCR.image := pybytes;
     OCR.b64encode := b64_encode;
     OCR.b64decode := fun s =>
       match b64_decode s with
       | Some bs => Ok bs
       | None => Raise (py "Incorrect padding")
       end;
     OCR.fitz_open := pdfs;
     OCR.doc_page_count := fun d => length d;
     OCR.load_page := fun d n =>
       match d !! n with
       | Some p => Ok p
       | None => Raise (py "page not in document")
       end;
     OCR.get_text := layer;
     OCR.pixmap_png := pixels;
     OCR.doc_close := fun _ => Ok tt;
     OCR.image_open := fun data => Ok data;
     OCR.image_to_string := fun img _ => pictures img |}.

Definition not_a_pdf {A} (_ : pybytes) : exc A :=
  Raise (py "Failed to open stream").

Definition unreadable (_ : pybytes) : exc pystr :=
  Raise (py "cannot identify image file").

(** No PDFs, no readable pictures. *)
Definition plain_backend : OCR.Backend := backend not_a_pdf unreadable.

(** One PDF, whose bytes are [PDF2]: its first page has a text layer, its
    second has none and a picture Tesseract cannot read. *)
Definition two_pages : list ScriptedPage :=
  [ {| layer := Ok (py "Contract terms"); pixels := Ok [] |};
    {| layer := Ok []; pixels := Ok (list_byte_of_string "scan") |} ].

Definition one_bad_page : OCR.Backend :=
  backend (fun data =>
             if bool_decide (data = list_byte_of_string "PDF2")
             then Ok two_pages else not_a_pdf data)
          unreadable.

(** ** [audit_log_mock.py] *)

Definition mock_audit_log {W : World} : Api.AuditSink :=
  {| Api.write_log := fun r =>
       bind utcnow (fun _ => ret (py "mock_log_" ++ log_request_id r)) |}.

(** ** Uploads *)

Definition text_file (name body : string) : UploadFile :=
  {| up_filename := py name;
     up_content_type := Some (py "text/plain");
     up_read := Ok (list_byte_of_string body) |}.

Definition broken_file (name : string) : UploadFile :=
  {| up_filename := py name;
     up_content_type := Some (py "text/plain");
     up_read := Raise (py "read failed") |}.

End Reference.

(* ===================================================================== *)
(** * Facts about strings and numbers *)
(* ===================================================================== *)

Module PyFacts.
Import Py.

(** ** Whitespace *)

Definition all_space (s : pystr) : Prop := Forall (fun c => is_space c = true) s.

Lemma lstrip_nil_iff s : lstrip s = [] <-> all_space s.
Proof.
  unfold all_space. induction s as [|c s IH]; simpl.
  - split; [constructor|done].
  - destruct (is_space c) eqn:Hc.
    + rewrite IH. split; [by constructor|by inversion 1].
    + split; [done|]. inversion 1; congruence.
Qed.

Lemma lstrip_all_space s : all_space (lstrip s) -> lstrip s = [].
Proof.
  induction s as [|c s IH]; simpl; [done|].
  destruct (is_space c) eqn:Hc; [done|]. inversion 1; congruence.
Qed.

(** A string strips to nothing exactly when it is made of whitespace (the
    empty string included). *)
Lemma strip_nil_iff s : strip s = [] <-> all_space s.
Proof.
  unfold strip, rstrip. split.
  - intros H. apply lstrip_nil_iff, lstrip_all_space.
    assert (Hrev : lstrip (rev (lstrip s)) = []).
    { by rewrite <- (rev_involutive (lstrip (rev (lstrip s)))), H. }
    apply lstrip_nil_iff in Hrev. unfold all_space in *.
    apply Forall_forall. intros c Hc.
    apply (proj1 (Forall_forall _ _) Hrev), list_elem_of_In, in_rev.
    rewrite rev_involutive. by apply list_elem_of_In.
  - intros H%lstrip_nil_iff. by rewrite H.
Qed.

(** ** Rounding to the nearest integer *)

Lemma round_half_even_nearest q :
  (Qabs (q - inject_Z (round_half_even q)) <= 1 # 2)%Q.
Proof.
  apply Qabs_Qle_condition.
  destruct q as [n d]. unfold round_half_even. simpl Qnum. simpl Qden.
  pose proof (Z.div_mod n (Z.pos d) ltac:(lia)) as Hdm.
  pose proof (Z.mod_pos_bound n (Z.pos d) ltac:(lia)) as Hr.
  set (fl := (n / Z.pos d)%Z) in *. set (r := (n mod Z.pos d)%Z) in *.
  assert (Hcases : forall z,
             (z = fl /\ 2 * r <= Z.pos d \/ z = fl + 1 /\ Z.pos d <= 2 * r)%Z ->
             (- (1 # 2) <= (n # d) - inject_Z z <= 1 # 2)%Q).
  { intros z Hz. unfold Qle, Qminus, Qplus, Qopp, inject_Z. simpl.
    rewrite !Z.mul_1_r. rewrite !Pos2Z.inj_mul.
    destruct Hz as [[-> H]|[-> H]]; split; nia. }
  apply Hcases.
  destruct (Z.compare_spec (2 * r) (Z.pos d)); [destruct (Z.even fl)|..]; lia.
Qed.

Lemma round_half_even_nonneg q : (0 <= q)%Q -> (0 <= round_half_even q)%Z.
Proof.
  destruct q as [n d]. unfold Qle, round_half_even. simpl. rewrite Z.mul_1_r.
  intros Hn. pose proof (Z.div_pos n (Z.pos d) Hn ltac:(lia)).
  destruct (_ ?= _)%Z; [destruct (Z.even _)|..]; lia.
Qed.

(** A number between two integers rounds to an integer between them. *)
Lemma round_half_even_between (a b : Z) q :
  (inject_Z a <= q <= inject_Z b)%Q ->
  (a <= round_half_even q <= b)%Z.
Proof.
  intros [Ha Hb].
  pose proof (round_half_even_nearest q) as Hn.
  apply Qabs_Qle_condition in Hn as [Hn1 Hn2].
  set (r := round_half_even q) in *.
  split.
  - destruct (Z_le_gt_dec a r) as [|Hgt]; [done|]. exfalso.
    assert (H : (inject_Z r <= inject_Z (a + -1))%Q)
      by (rewrite <- Zle_Qle; lia).
    rewrite inject_Z_plus in H. change (inject_Z (-1)) with (-1 # 1)%Q in H.
    lra.
  - destruct (Z_le_gt_dec r b) as [|Hgt]; [done|]. exfalso.
    assert (H : (inject_Z (b + 1) <= inject_Z r)%Q)
      by (rewrite <- Zle_Qle; lia).
    rewrite inject_Z_plus in H. change (inject_Z 1) with 1%Q in H.
    lra.
Qed.

(** A tie goes to the even integer. *)
Lemma round_half_even_tie q :
  (Qabs (q - inject_Z (round_half_even q)) == 1 # 2)%Q ->
  Z.even (round_half_even q) = true.
Proof.
  destruct q as [n d]. unfold round_half_even. simpl Qnum. simpl Qden.
  pose proof (Z.div_mod n (Z.pos d) ltac:(lia)) as Hdm.
  pose proof (Z.mod_pos_bound n (Z.pos d) ltac:(lia)) as Hr.
  set (fl := (n / Z.pos d)%Z) in *. set (r := (n mod Z.pos d)%Z) in *.
  assert (Hfl : ((n # d) - inject_Z fl == r # d)%Q).
  { unfold Qeq, Qminus, Qplus, Qopp, inject_Z. simpl. nia. }
  assert (Hfl1 : ((n # d) - inject_Z (fl + 1) == (r - Z.pos d) # d)%Q).
  { unfold Qeq, Qminus, Qplus, Qopp, inject_Z. simpl. nia. }
  destruct (Z.compare_spec (2 * r) (Z.pos d)) as [He|Hl|Hg].
  - destruct (Z.even fl) eqn:Hev; [done|]. intros _.
    rewrite Z.even_add, Hev. reflexivity.
  - rewrite Hfl. intros H. exfalso.
    rewrite Qabs_pos in H by (unfold Qle; simpl; lia).
    unfold Qeq in H. simpl in H. lia.
  - rewrite Hfl1. intros H. exfalso.
    rewrite Qabs_neg in H by (unfold Qle; simpl; lia).
    unfold Qeq, Qopp in H. simpl in H. lia.
Qed.

(** The number of hundredths [format_2f] prints. *)
Definition hundredths (q : Q) : Z := round_half_even (Qabs q * 100).

Lemma hundredths_nonneg q : (0 <= hundredths q)%Z.
Proof.
  apply round_half_even_nonneg. apply Qmult_le_0_compat; [|done].
  apply Qabs_nonneg.
Qed.

Lemma digit_is_digit d : (0 <= d <= 9)%Z -> (48 <= digit d <= 57)%N.
Proof. unfold digit. lia. Qed.

End PyFacts.

(* ===================================================================== *)
(** * Facts about floats *)
(* ===================================================================== *)

Module Float64Facts.
Import Py PyFacts Float64.
Local Open Scope Q_scope.

Lemma pow2_pos e : 0 < pow2 e.
Proof. apply Qpower_0_lt. reflexivity. Qed.

Lemma pow2_plus a b : pow2 (a + b) == pow2 a * pow2 b.
Proof. apply Qpower_plus. discriminate. Qed.

Lemma pow2_inject e : (0 <= e)%Z -> pow2 e == inject_Z (2 ^ e).
Proof. intros He. unfold pow2. by rewrite Zpower_Qpower. Qed.

Lemma pow2_neg e : (e <= 0)%Z -> pow2 e * inject_Z (2 ^ (- e)) == 1.
Proof.
  intros He. rewrite <- pow2_inject by lia. rewrite <- pow2_plus.
  replace (e + - e)%Z with 0%Z by lia. reflexivity.
Qed.

Lemma pow2_mono a b : (a <= b)%Z -> pow2 a <= pow2 b.
Proof. intros H. apply Qpower_le_compat_l; [exact H|discriminate]. Qed.

(** ** The binary exponent of a positive fraction *)

Lemma ilog2_spec n d :
  (0 < n)%Z -> (0 < d)%Z ->
  pow2 (ilog2 n d) * inject_Z d <= inject_Z n
  /\ inject_Z n < pow2 (ilog2 n d + 1) * inject_Z d.
Proof.
  intros Hn Hd.
  destruct (Z.log2_spec n Hn) as [Ha1 Ha2].
  destruct (Z.log2_spec d Hd) as [Hb1 Hb2].
  pose proof (Z.log2_nonneg n) as Ha0. pose proof (Z.log2_nonneg d) as Hb0.
  set (a := Z.log2 n) in *. set (b := Z.log2 d) in *.
  rewrite Zle_Qle, <- pow2_inject in Ha1 by lia.
  rewrite Zlt_Qlt, <- pow2_inject in Ha2 by lia.
  rewrite Zle_Qle, <- pow2_inject in Hb1 by lia.
  rewrite Zlt_Qlt, <- pow2_inject in Hb2 by lia.
  assert (Hdq : 0 < inject_Z d) by (by rewrite <- (Zlt_Qlt 0)).
  (* the first guess [a - b], and what it is sure of *)
  assert (Hlow : pow2 (a - b - 1) * inject_Z d <= inject_Z n).
  { apply Qle_trans with (pow2 (a - b - 1) * pow2 (Z.succ b));
      [apply Qmult_le_l; [apply pow2_pos|by apply Qlt_le_weak]|].
    rewrite <- pow2_plus. replace (a - b - 1 + Z.succ b)%Z with a by lia.
    done. }
  assert (Hhigh : inject_Z n < pow2 (a - b + 1) * inject_Z d).
  { eapply Qlt_le_trans; [exact Ha2|].
    apply Qle_trans with (pow2 (a - b + 1) * pow2 b);
      [|apply Qmult_le_l; [apply pow2_pos|done]].
    rewrite <- pow2_plus. replace (a - b + 1 + b)%Z with (Z.succ a) by lia.
    apply Qle_refl. }
  assert (Htest : (if (0 <=? a - b)%Z then (d * 2 ^ (a - b) <=? n)%Z
                   else (d <=? n * 2 ^ (- (a - b)))%Z) = true
                  <-> pow2 (a - b) * inject_Z d <= inject_Z n).
  { destruct (Z.leb_spec 0 (a - b)) as [He|He].
    - rewrite Z.leb_le, Zle_Qle, inject_Z_mult, <- pow2_inject by lia.
      by rewrite Qmult_comm.
    - rewrite Z.leb_le, Zle_Qle, inject_Z_mult.
      assert (Hp := pow2_neg (a - b) ltac:(lia)).
      assert (Hpos := pow2_pos (a - b)).
      set (p := pow2 (a - b)) in *.
      set (k := inject_Z (2 ^ (- (a - b)))) in *.
      split; intros H.
      + apply Qle_trans with (p * (inject_Z n * k));
          [apply Qmult_le_l; done|].
        apply Qle_lteq. right.
        transitivity (inject_Z n * (p * k)); [ring|]. rewrite Hp. ring.
      + assert (Hk : 0 < k).
        { unfold k. rewrite <- (Zlt_Qlt 0). apply Z.pow_pos_nonneg; lia. }
        apply Qle_trans with (p * inject_Z d * k).
        * apply Qle_lteq. right.
          transitivity (inject_Z d * (p * k)); [rewrite Hp; ring|ring].
        * apply Qmult_le_compat_r; [done|by apply Qlt_le_weak]. }
  unfold ilog2. fold a b.
  destruct (if (0 <=? a - b)%Z then _ else _) eqn:Ht.
  - split; [by apply Htest|done].
  - split; [done|]. replace (a - b - 1 + 1)%Z with (a - b)%Z by lia.
    apply Qnot_le_lt. intros H. apply Htest in H. congruence.
Qed.

Lemma rnd_proper p q : p == q -> rnd p = rnd q.
Proof. intros H. unfold rnd. by rewrite (Qred_complete _ _ H). Qed.

Lemma rnd_0 : rnd 0 = 0.
Proof. reflexivity. Qed.


Lemma Qabs_fraction q :
  Qabs q == inject_Z (Z.abs (Qnum q)) / inject_Z (Z.pos (Qden q)).
Proof. destruct q as [n d]. simpl. apply Qmake_Qdiv. Qed.

(** The last place is 52 places below the leading bit, but never below
    [2 ^ -1074]. *)
Lemma exponent_spec q :
  ~ q == 0 ->
  (-1074 <= exponent q)%Z
  /\ Qabs q < pow2 (exponent q + 53)
  /\ (exponent q = (-1074)%Z \/ pow2 (exponent q + 52) <= Qabs q).
Proof.
  intros Hq. unfold exponent.
  set (n := Z.abs (Qnum q)). set (d := Z.pos (Qden q)).
  assert (Hn : (0 < n)%Z).
  { unfold n. destruct q as [[|a|a] b]; simpl; try lia.
    exfalso. by apply Hq. }
  assert (Hd : 0 < inject_Z d) by done.
  destruct (ilog2_spec n d Hn eq_refl) as [Hlo Hhi].
  set (i := ilog2 n d) in *.
  assert (Habs : Qabs q == inject_Z n / inject_Z d) by apply Qabs_fraction.
  split; [lia|]. split.
  - rewrite Habs. apply Qlt_shift_div_r; [done|].
    eapply Qlt_le_trans; [exact Hhi|].
    apply Qmult_le_compat_r; [|by apply Qlt_le_weak].
    apply pow2_mono. lia.
  - destruct (Z.max_spec (i - 52) (-1074)) as [[_ ->]|[_ ->]]; [by left|].
    right. rewrite Habs. apply Qle_shift_div_l; [done|].
    by replace (i - 52 + 52)%Z with i by lia.
Qed.

(** ** The nearest float *)

(** A float: a multiple of a power of two, with a significand of at most
    53 bits and no binary place below [2 ^ -1074]. *)
Definition representable (x : Q) : Prop :=
  exists m e,
    (Z.abs m <= 2 ^ 53)%Z /\ (-1074 <= e)%Z /\ x == inject_Z m * pow2 e.

(** [rnd q] is the multiple of the last place of [q] nearest to [q], the
    even one when two are as near. *)
Lemma rnd_spec q :
  ~ q == 0 ->
  let e := exponent (Qred q) in
  exists m,
    rnd q == inject_Z m * pow2 e
    /\ (Z.abs m <= 2 ^ 53)%Z
    /\ Qabs (q / pow2 e - inject_Z m) <= 1 # 2
    /\ (Qabs (q / pow2 e - inject_Z m) == 1 # 2 -> Z.even m = true).
Proof.
  intros Hq e. unfold rnd. fold e.
  assert (Hred : Qred q == q) by apply Qred_correct.
  assert (Hq' : ~ Qred q == 0) by (by rewrite Hred).
  destruct (Qeq_bool (Qred q) 0) eqn:H0; [by apply Qeq_bool_iff in H0|].
  destruct (exponent_spec (Qred q) Hq') as (_ & Hhi & _). fold e in Hhi.
  set (x := Qred q / pow2 e).
  assert (Hx : q / pow2 e == x) by (unfold x; by rewrite Hred).
  exists (round_half_even x). split; [apply Qred_correct|]. split; [|split].
  - assert (Hp := pow2_pos e).
    assert (Hb : inject_Z (- 2 ^ 53) <= x <= inject_Z (2 ^ 53)).
    { assert (Habs : Qabs x <= inject_Z (2 ^ 53)).
      { unfold x, Qdiv. rewrite Qabs_Qmult.
        rewrite (Qabs_pos (/ pow2 e))
          by (apply Qlt_le_weak, Qinv_lt_0_compat, Hp).
        apply Qle_shift_div_r; [done|]. apply Qlt_le_weak.
        eapply Qlt_le_trans; [exact Hhi|].
        rewrite Z.add_comm, pow2_plus, pow2_inject by lia. apply Qle_refl. }
      apply Qabs_Qle_condition in Habs. by rewrite inject_Z_opp. }
    apply round_half_even_between in Hb. lia.
  - rewrite Hx. apply round_half_even_nearest.
  - rewrite Hx. apply round_half_even_tie.
Qed.

Lemma rnd_representable q : representable (rnd q).
Proof.
  destruct (Qeq_dec q 0) as [H0|H0].
  - rewrite (rnd_proper _ _ H0). exists 0%Z, 0%Z. by repeat split.
  - destruct (rnd_spec q H0) as (m & Hm & Hb & _).
    destruct (exponent_spec (Qred q)) as (He & _);
      [by rewrite Qred_correct|].
    by exists m, (exponent (Qred q)).
Qed.

(** The error of a rounding is at most half the last place. *)
Lemma rnd_error q :
  Qabs (rnd q - q) <= pow2 (exponent (Qred q)) * (1 # 2).
Proof.
  destruct (Qeq_dec q 0) as [H0|H0].
  - assert (E : Qabs (rnd q - q) == 0)
      by (rewrite (rnd_proper _ _ H0), H0; reflexivity).
    rewrite E.
    apply Qmult_le_0_compat; [apply Qlt_le_weak, pow2_pos|discriminate].
  - destruct (rnd_spec q H0) as (m & -> & _ & Hnear & _).
    set (p := pow2 (exponent (Qred q))) in *.
    assert (Hp : 0 < p) by apply pow2_pos.
    assert (E : inject_Z m * p - q == - (p * (q / p - inject_Z m))).
    { field. intros Hp0. rewrite Hp0 in Hp. by apply (Qlt_irrefl 0). }
    rewrite E, Qabs_opp, Qabs_Qmult, (Qabs_pos p) by by apply Qlt_le_weak.
    apply Qmult_le_l; done.
Qed.

(** ** Floats between 0 and 1 *)

Lemma exponent_unit q :
  ~ q == 0 -> Qabs q <= 1 -> (exponent q <= -52)%Z.
Proof.
  intros H0 H1. destruct (exponent_spec q H0) as (_ & _ & [->|Hlow]); [lia|].
  assert (H : pow2 (exponent q + 52) <= pow2 0)
    by (eapply Qle_trans; [exact Hlow|exact H1]).
  apply Qpower_le_compat_l_inv in H; [lia|reflexivity].
Qed.

Lemma rnd_nonneg q : 0 <= q -> 0 <= rnd q.
Proof.
  intros Hq. unfold rnd.
  destruct (Qeq_bool (Qred q) 0); [discriminate|].
  rewrite Qred_correct.
  apply Qmult_le_0_compat; [|apply Qlt_le_weak, pow2_pos].
  rewrite <- (Zle_Qle 0). apply round_half_even_nonneg.
  apply Qle_shift_div_l; [apply pow2_pos|].
  rewrite Qmult_0_l, Qred_correct. exact Hq.
Qed.

Lemma rnd_unit q : 0 <= q <= 1 -> 0 <= rnd q <= 1.
Proof.
  intros [Hq0 Hq1]. split; [by apply rnd_nonneg|].
  destruct (Qeq_dec q 0) as [H0|H0];
    [by rewrite (rnd_proper _ _ H0)|].
  assert (Hred : Qred q == q) by apply Qred_correct.
  assert (He : (exponent (Qred q) <= -52)%Z).
  { apply exponent_unit; rewrite Hred; [done|]. by rewrite Qabs_pos. }
  unfold rnd.
  destruct (Qeq_bool (Qred q) 0); [discriminate|].
  set (e := exponent (Qred q)) in *.
  assert (Hp := pow2_pos e). assert (Hk := pow2_neg e ltac:(lia)).
  set (p := pow2 e) in *. set (k := (2 ^ (- e))%Z) in *.
  assert (Hm : (round_half_even (Qred q / p) <= k)%Z).
  { apply (round_half_even_between 0 k). split.
    - apply Qle_shift_div_l; [done|]. by rewrite Qmult_0_l, Hred.
    - apply Qle_shift_div_r; [done|]. rewrite Hred, Qmult_comm, Hk. done. }
  rewrite Qred_correct, <- Hk, (Qmult_comm p).
  apply Qmult_le_compat_r; [by rewrite <- Zle_Qle|by apply Qlt_le_weak].
Qed.

(** Between 0 and 1 a rounding errs by at most [2 ^ -53]. *)
Lemma rnd_unit_error q :
  0 <= q <= 1 -> Qabs (rnd q - q) <= 1 # 2 ^ 53.
Proof.
  intros [Hq0 Hq1].
  destruct (Qeq_dec q 0) as [H0|H0].
  { rewrite (rnd_proper _ _ H0), H0. discriminate. }
  eapply Qle_trans; [apply rnd_error|].
  assert (He : (exponent (Qred q) <= -52)%Z).
  { apply exponent_unit; rewrite Qred_correct; [done|].
    by rewrite Qabs_pos. }
  apply Qle_trans with (pow2 (-52) * (1 # 2)); [|by vm_compute].
  apply Qmult_le_compat_r; [by apply pow2_mono|discriminate].
Qed.

End Float64Facts.

(* ===================================================================== *)
(** * Facts about the stable descending sort *)
(* ===================================================================== *)

Module SortingFacts.
Import Sorting.

Section Sort.
Context {A K : Type} (ltb : K -> K -> bool) (key : A -> K).

(** [ltb] is a strict weak order. *)
Hypothesis ltb_irrefl : forall a, ltb a a = false.
Hypothesis ltb_trans :
  forall a b c, ltb a b = true -> ltb b c = true -> ltb a c = true.
Hypothesis ltb_negtrans :
  forall a b c, ltb a b = false -> ltb b c = false -> ltb a c = false.

(** No key is below a later one. *)
Definition desc (x y : A) : Prop := ltb (key x) (key y) = false.

Lemma ltb_asym a b : ltb a b = true -> ltb b a = false.
Proof.
  intros Hab. destruct (ltb b a) eqn:Hba; [|done].
  rewrite <- (ltb_irrefl a). symmetry. eauto.
Qed.

Lemma insert_desc_perm x l : insert_desc ltb key x l ≡ₚ x :: l.
Proof.
  induction l as [|y l IH]; simpl; [done|].
  destruct (ltb (key x) (key y)); [|done].
  rewrite IH. apply Permutation_swap.
Qed.

Lemma sort_by_desc_perm l : sort_by_desc ltb key l ≡ₚ l.
Proof.
  induction l as [|x l IH]; simpl; [done|].
  rewrite insert_desc_perm. by rewrite IH.
Qed.

Lemma insert_desc_sorted x l :
  StronglySorted desc l -> StronglySorted desc (insert_desc ltb key x l).
Proof.
  induction 1 as [|y l Hl IH Hy]; simpl.
  - repeat constructor.
  - destruct (ltb (key x) (key y)) eqn:Hxy.
    + constructor; [done|].
      rewrite insert_desc_perm. constructor; [|done].
      by apply ltb_asym.
    + constructor; [by constructor|].
      constructor; [done|].
      eapply Forall_impl; [exact Hy|].
      intros z Hz. unfold desc in *. eauto.
Qed.

Lemma sort_by_desc_sorted l : StronglySorted desc (sort_by_desc ltb key l).
Proof.
  induction l; simpl; [constructor|by apply insert_desc_sorted].
Qed.

Lemma same_key_below k a b :
  ltb a b = true -> same_key ltb b k -> ~ same_key ltb a k.
Proof.
  intros Hab [Hbk Hkb] [Hak Hka].
  assert (ltb a b = false) by eauto. congruence.
Qed.

Lemma insert_desc_filter k x l :
  filter (fun a => same_key ltb (key a) k) (insert_desc ltb key x l)
  = filter (fun a => same_key ltb (key a) k) (x :: l).
Proof.
  induction l as [|y l IH]; simpl; [done|].
  destruct (ltb (key x) (key y)) eqn:Hxy; [|done].
  rewrite (filter_cons _ y), IH.
  destruct (decide (same_key ltb (key y) k)) as [Hy|Hy].
  - rewrite (filter_cons_False _ x); [|by eapply same_key_below].
    rewrite (filter_cons_False _ x); [|by eapply same_key_below].
    by rewrite filter_cons_True.
  - rewrite !(filter_cons _ x).
    destruct (decide (same_key ltb (key x) k));
      by rewrite (filter_cons_False _ y).
Qed.

(** Stability: the elements of any one key come out in the order they
    went in. *)
Lemma sort_by_desc_stable k l :
  filter (fun a => same_key ltb (key a) k) (sort_by_desc ltb key l)
  = filter (fun a => same_key ltb (key a) k) l.
Proof.
  induction l as [|x l IH]; simpl; [done|].
  rewrite insert_desc_filter, !filter_cons. by rewrite IH.
Qed.

Lemma same_key_refl a : same_key ltb a a.
Proof. by split. Qed.

(** Two arrangements of the same elements, both by decreasing key and with
    the same order within every key, are the same list: the contract of a
    stable sort determines its result. *)
Lemma stable_sorted_unique l1 l2 :
  l1 ≡ₚ l2 ->
  StronglySorted desc l1 -> StronglySorted desc l2 ->
  (forall k, filter (fun a => same_key ltb (key a) k) l1
             = filter (fun a => same_key ltb (key a) k) l2) ->
  l1 = l2.
Proof.
  revert l2. induction l1 as [|x l1 IH]; intros l2 Hp H1 H2 Hf.
  - by apply Permutation_nil_l in Hp.
  - destruct l2 as [|y l2]; [by apply Permutation_nil_r in Hp|].
    apply StronglySorted_inv in H1 as [H1 Hx].
    apply StronglySorted_inv in H2 as [H2 Hy].
    assert (Hxy : same_key ltb (key x) (key y)).
    { split.
      - assert (Hin : y ∈ x :: l1) by (rewrite Hp; left).
        apply elem_of_cons in Hin as [->|Hin]; [done|].
        by apply (proj1 (Forall_forall _ _) Hx).
      - assert (Hin : x ∈ y :: l2) by (rewrite <- Hp; left).
        apply elem_of_cons in Hin as [->|Hin]; [done|].
        by apply (proj1 (Forall_forall _ _) Hy). }
    assert (x = y) as <-.
    { specialize (Hf (key y)).
      rewrite (filter_cons_True _ x), (filter_cons_True _ y) in Hf;
        [congruence|apply same_key_refl|done]. }
    f_equal. apply IH; [by eapply Permutation_cons_inv|done|done|].
    intros k. specialize (Hf k). rewrite !(filter_cons _ x) in Hf.
    destruct (decide (same_key ltb (key x) k)); congruence.
Qed.

(** So [sort_by_desc] is the result of any stable sort by decreasing key. *)
Lemma sort_by_desc_unique l l' :
  l' ≡ₚ l ->
  StronglySorted desc l' ->
  (forall k, filter (fun a => same_key ltb (key a) k) l'
             = filter (fun a => same_key ltb (key a) k) l) ->
  l' = sort_by_desc ltb key l.
Proof.
  intros Hp Hs Hf. apply stable_sorted_unique; [|done|..].
  - by rewrite sort_by_desc_perm.
  - apply sort_by_desc_sorted.
  - intros k. by rewrite sort_by_desc_stable.
Qed.

Lemma sort_by_desc_length l : length (sort_by_desc ltb key l) = length l.
Proof. by rewrite sort_by_desc_perm. Qed.
End Sort.

Lemma strongly_sorted_impl {A} (R1 R2 : A -> A -> Prop) l :
  (forall x y, R1 x y -> R2 x y) ->
  StronglySorted R1 l -> StronglySorted R2 l.
Proof.
  intros HR. induction 1 as [|x l _ IH Hx]; constructor; [done|].
  eapply Forall_impl; [exact Hx|]. auto.
Qed.

(** ** The two orders the program sorts by *)

Lemma Qltb_lt a b : Py.Qltb a b = true <-> (a < b)%Q.
Proof.
  unfold Py.Qltb. rewrite negb_true_iff.
  destruct (Qle_bool b a) eqn:H.
  - apply Qle_bool_iff in H. split; [done|]. intros ?%Qlt_not_le. tauto.
  - split; [|done]. intros _. apply Qnot_le_lt. intros ?%Qle_bool_iff.
    congruence.
Qed.

Lemma Qltb_ge a b : Py.Qltb a b = false <-> (b <= a)%Q.
Proof.
  unfold Py.Qltb. rewrite negb_false_iff. apply Qle_bool_iff.
Qed.

Lemma Qltb_irrefl a : Py.Qltb a a = false.
Proof. apply Qltb_ge, Qle_refl. Qed.

Lemma Qltb_trans a b c :
  Py.Qltb a b = true -> Py.Qltb b c = true -> Py.Qltb a c = true.
Proof. rewrite !Qltb_lt. apply Qlt_trans. Qed.

Lemma Qltb_negtrans a b c :
  Py.Qltb a b = false -> Py.Qltb b c = false -> Py.Qltb a c = false.
Proof. rewrite !Qltb_ge. intros ??. by eapply Qle_trans. Qed.

Lemma same_key_Q a b : same_key Py.Qltb a b <-> (a == b)%Q.
Proof.
  unfold same_key. rewrite !Qltb_ge. split.
  - intros [??]. by apply Qle_antisym.
  - intros ->. split; apply Qle_refl.
Qed.

Lemma ltb_irrefl_nat a : Nat.ltb a a = false.
Proof. apply Nat.ltb_irrefl. Qed.

Lemma ltb_trans_nat a b c :
  Nat.ltb a b = true -> Nat.ltb b c = true -> Nat.ltb a c = true.
Proof. rewrite !Nat.ltb_lt. lia. Qed.

Lemma ltb_negtrans_nat a b c :
  Nat.ltb a b = false -> Nat.ltb b c = false -> Nat.ltb a c = false.
Proof. rewrite !Nat.ltb_ge. lia. Qed.

Lemma same_key_nat a b : same_key Nat.ltb a b <-> a = b.
Proof. unfold same_key. rewrite !Nat.ltb_ge. lia. Qed.

End SortingFacts.

(* ===================================================================== *)
(** * Properties of the text extractor *)
(* ===================================================================== *)

Module OCRFacts.
Import Py Eff Models OCR.
Local Open Scope Q_scope.

Section Service.
Context {B : Backend} {W : World}.

(** Some step of the extraction raised: the base64 decoding, the opening
    of the PDF, a page, the image, or the UTF-8 decoding. *)
Definition internal_failure (content : pystr) (document_type : DocumentType)
           (language : pystr) : Prop :=
  match b64decode content with
  | Raise _ => True
  | Ok file_data =>
    match document_type with
    | PDF => is_ok (pdf_body file_data language) = false
    | IMAGE => is_ok (image_body file_data language) = false
    | _ => utf8_decode file_data = None
    end
  end.

Lemma extract_from_pdf_ok file_data language :
  _extract_from_pdf file_data language
  = match pdf_body file_data language with
    | Ok r => Ok r
    | Raise _ => Ok ([], 0)
    end.
Proof. reflexivity. Qed.

Lemma extract_from_image_ok file_data language :
  _extract_from_image file_data language
  = match image_body file_data language with
    | Ok r => Ok r
    | Raise _ => Ok ([], 0)
    end.
Proof. reflexivity. Qed.

Lemma internal_failure_dispatch content document_type language :
  internal_failure content document_type language ->
  match extract_dispatch content document_type language with
  | Ok (t, c) => t = [] /\ c = 0
  | Raise _ => True
  end.
Proof.
  unfold internal_failure, extract_dispatch.
  destruct (b64decode content) as [file_data|e]; simpl; [|done].
  destruct document_type; simpl;
    rewrite ?extract_from_pdf_ok, ?extract_from_image_ok;
    try (destruct (pdf_body file_data language); simpl; by intros);
    try (destruct (image_body file_data language); simpl; by intros);
    unfold decode_utf8; by intros ->.
Qed.

(** What a run of the service amounts to: two clock readings, and the
    result of the dispatch or the failure result. *)
Lemma extract_run content document_type language s :
  extract_text_from_document content document_type language s
  = ({| ticks := S (S (ticks s)); drawn := drawn s |},
     Ok (match extract_dispatch content document_type language with
         | Ok (t, c) =>
           {| text := t; confidence := c;
              processing_time :=
                time_reading (S (ticks s)) - time_reading (ticks s);
              page_count := None |}
         | Raise _ =>
           {| text := []; confidence := 0;
              processing_time :=
                time_reading (S (ticks s)) - time_reading (ticks s);
              page_count := None |}
         end)).
Proof.
  unfold extract_text_from_document, bind, try_except, lift, time_time, ret.
  simpl. by destruct (extract_dispatch _ _ _) as [[t c]|e].
Qed.

(** C5. For every content, kind and language, and in every state of the
    environment, [extract_text_from_document] returns a result and does not
    raise; the result carries the time elapsed between its two clock
    readings; it is what the extraction produced when nothing raised, and
    whenever a step of the extraction raised it has the empty text and
    confidence 0.0. *)
Theorem extract_never_raises content document_type language s :
  exists r,
    extract_text_from_document content document_type language s
    = ({| ticks := S (S (ticks s)); drawn := drawn s |}, Ok r)
    /\ processing_time r
       = time_reading (S (ticks s)) - time_reading (ticks s)
    /\ match extract_dispatch content document_type language with
       | Ok (t, c) => text r = t /\ confidence r = c
       | Raise _ => text r = [] /\ confidence r = 0
       end
    /\ (internal_failure content document_type language ->
        text r = [] /\ confidence r = 0).
Proof.
  rewrite extract_run. eexists. split; [reflexivity|].
  pose proof (internal_failure_dispatch content document_type language)
    as Hfail.
  destruct (extract_dispatch _ _ _) as [[t c]|e]; simpl; auto.
Qed.

(** C6, as the code has it. For every payload extracted with kind TEXT:
    when the bytes are well-formed UTF-8 the text is their decoding and the
    confidence is exactly 1.0; when they are not, the decoding raises and
    the result is the failure result, empty text and confidence 0.0. *)
Theorem text_kind_strict_decoding content file_data language s :
  b64decode content = Ok file_data ->
  exists r,
    snd (extract_text_from_document content TEXT language s) = Ok r
    /\ match utf8_decode file_data with
       | Some t => text r = t /\ confidence r = 1
       | None => text r = [] /\ confidence r = 0
       end.
Proof.
  intros Hdec. rewrite extract_run. eexists. split; [reflexivity|].
  unfold extract_dispatch, decode_utf8. rewrite Hdec. simpl.
  by destruct (utf8_decode file_data).
Qed.

(** ** The page loop *)

Definition page_text (doc : document) (language : pystr) (n : nat) : pystr :=
  match pdf_page doc language n with
  | Ok (t, _) => t
  | Raise _ => []
  end.

Definition page_confidence (doc : document) (language : pystr) (n : nat)
  : Q :=
  match pdf_page doc language n with
  | Ok (_, c) => c
  | Raise _ => 0
  end.


Lemma pdf_pages_all_ok doc language nums all_text total count :
  (forall n, n ∈ nums -> is_ok (pdf_page doc language n) = true) ->
  pdf_pages doc language nums (all_text, total, count)
  = Ok (all_text ++ map (page_text doc language) nums,
        fold_left Qplus (map (page_confidence doc language) nums) total,
        (count + length nums)%nat).
Proof.
  revert all_text total count.
  induction nums as [|m nums IH]; intros all_text total count Hok; simpl.
  - by rewrite app_nil_r, Nat.add_0_r.
  - assert (Hm : is_ok (pdf_page doc language m) = true)
      by (apply Hok; left).
    destruct (pdf_page doc language m) as [[t c]|e] eqn:Hpage; [|done].
    assert (page_text doc language m = t) as ->
      by (unfold page_text; by rewrite Hpage).
    assert (page_confidence doc language m = c) as ->
      by (unfold page_confidence; by rewrite Hpage).
    simpl. rewrite IH by (intros; apply Hok; by right).
    by rewrite <- app_assoc, Nat.add_succ_r.
Qed.

End Service.

(** C5, run: an image that cannot be opened gives the failure result. *)
Lemma extract_never_raises_run :
  exists r,
    @extract_text_from_document Reference.plain_backend Reference.world
      (py "/w==") IMAGE (py "por") Reference.s0
    = ({| ticks := 2; drawn := 0 |}, Ok r)
    /\ text r = [] /\ confidence r = 0.
Proof.
  destruct (@extract_never_raises Reference.plain_backend Reference.world
              (py "/w==") IMAGE (py "por") Reference.s0)
    as (r & Hrun & _ & _ & Hfail).
  exists r. split; [exact Hrun|]. apply Hfail. vm_compute. reflexivity.
Defined.

(** C6, run: the bytes of "olá". *)
Lemma text_kind_strict_decoding_witness :
  exists r,
    snd (@extract_text_from_document Reference.plain_backend Reference.world
           (py "b2zDoQ==") TEXT (py "por") Reference.s0) = Ok r
    /\ text r = py "olá" /\ confidence r = 1.
Proof.
  apply (@text_kind_strict_decoding Reference.plain_backend Reference.world
           (py "b2zDoQ==") (list_byte_of_string "olá") (py "por")
           Reference.s0).
  vm_compute. reflexivity.
Defined.

(** C6 as stated fails: the single byte FF, which is not UTF-8, extracted
    with kind TEXT gives the empty text and confidence 0.0, not a text with
    the byte replaced and confidence 1.0. *)
Lemma text_kind_invalid_utf8_rejected :
  @b64decode Reference.plain_backend (py "/w==") = Ok [xff]
  /\ utf8_decode [xff] = None
  /\ exists r,
       snd (@extract_text_from_document Reference.plain_backend
              Reference.world (py "/w==") TEXT (py "por") Reference.s0)
       = Ok r
       /\ text r = [] /\ confidence r = 0 /\ ~ (confidence r == 1).
Proof.
  split; [vm_compute; reflexivity|]. split; [vm_compute; reflexivity|].
  eexists. split; [vm_compute; reflexivity|]. simpl.
  repeat split. discriminate.
Qed.



End OCRFacts.

(* ===================================================================== *)
(** * Properties of the text analyzer *)
(* ===================================================================== *)

Module NLPFacts.
Import Py Eff Sorting SortingFacts NLP.

(** ** Keyword extraction, as the specification words it *)

(** Number of occurrences of [w] among the tokens. *)
Definition count (w : pystr) (ws : list pystr) : nat :=
  length (filter (fun x => x = w) ws).

(** The distinct tokens, in the order of their first occurrence. *)
Fixpoint distinct (ws : list pystr) : list pystr :=
  match ws with
  | [] => []
  | w :: ws' => w :: filter (fun x => x <> w) (distinct ws')
  end.

Section Keywords.
Context {U : Unicode}.

End Keywords.

Lemma elem_of_distinct w ws : w ∈ distinct ws <-> w ∈ ws.
Proof.
  induction ws as [|a ws IH]; simpl; [done|].
  rewrite !elem_of_cons, list_elem_of_filter, IH.
  destruct (decide (w = a)); intuition congruence.
Qed.

Lemma NoDup_distinct ws : NoDup (distinct ws).
Proof.
  induction ws as [|a ws IH]; simpl; constructor.
  - rewrite list_elem_of_filter. intuition congruence.
  - by apply NoDup_filter.
Qed.

Lemma distinct_snoc ws w :
  distinct (ws ++ [w])
  = if decide (w ∈ ws) then distinct ws else distinct ws ++ [w].
Proof.
  induction ws as [|a ws IH]; [done|]. cbn [app distinct].
  rewrite IH. destruct (decide (w ∈ ws)) as [Hin|Hin].
  - rewrite decide_True; [done|by right].
  - rewrite filter_app. destruct (decide (w = a)) as [->|Hne].
    + rewrite decide_True by left.
      rewrite filter_cons_False by intuition congruence.
      by rewrite filter_nil, app_nil_r.
    + rewrite decide_False by (rewrite elem_of_cons; intuition congruence).
      by rewrite filter_cons_True.
Qed.

Lemma count_snoc x ws w :
  count x (ws ++ [w]) = (count x ws + if decide (w = x) then 1 else 0)%nat.
Proof.
  unfold count. rewrite filter_app, length_app, filter_cons, filter_nil.
  by destruct (decide (w = x)).
Qed.

Lemma count_not_elem x ws : x ∉ ws -> count x ws = 0%nat.
Proof.
  intros Hx. unfold count. induction ws as [|a ws IH]; [done|].
  rewrite not_elem_of_cons in Hx. destruct Hx as [Hne Hx].
  rewrite filter_cons_False by congruence. by apply IH.
Qed.

(** The entries of a counter whose keys are [l], counts given by [c]. *)
Definition entries (c : pystr -> nat) (l : list pystr) : list (pystr * nat) :=
  map (fun x => (x, c x)) l.

Lemma entries_ext c1 c2 l :
  (forall x, x ∈ l -> c1 x = c2 x) -> entries c1 l = entries c2 l.
Proof.
  intros H. unfold entries. apply map_ext_in. intros x Hx%list_elem_of_In.
  by rewrite H.
Qed.

Lemma counter_add_entries w c l :
  NoDup l ->
  counter_add w (entries c l)
  = entries (fun x => (c x + if decide (w = x) then 1 else 0)%nat) l
    ++ if decide (w ∈ l) then [] else [(w, 1%nat)].
Proof.
  induction 1 as [|a l Ha Hl IH]; [done|].
  unfold entries in *. cbn [map counter_add app].
  destruct (decide (a = w)) as [->|Hne].
  - rewrite (decide_True (P := w = w)) by done.
    rewrite (decide_True (P := w ∈ w :: l)) by left.
    rewrite app_nil_r, Nat.add_1_r. f_equal.
    apply map_ext_in. intros x Hx%list_elem_of_In.
    rewrite decide_False; [by rewrite Nat.add_0_r|]. by intros ->.
  - rewrite IH. rewrite (decide_False (P := w = a)) by done.
    rewrite Nat.add_0_r. f_equal. f_equal.
    destruct (decide (w ∈ l)) as [Hin|Hin].
    + rewrite decide_True; [done|by right].
    + rewrite decide_False; [done|].
      rewrite elem_of_cons. intros [?|?]; congruence.
Qed.

(** The counter of a list of tokens: the distinct tokens in order of first
    occurrence, each with its number of occurrences. *)
Lemma Counter_entries_from pre ws :
  fold_left (fun c w => counter_add w c) ws
            (entries (fun x => count x pre) (distinct pre))
  = entries (fun x => count x (pre ++ ws)) (distinct (pre ++ ws)).
Proof.
  revert pre. induction ws as [|w ws IH]; intros pre; simpl.
  - by rewrite app_nil_r.
  - rewrite counter_add_entries by apply NoDup_distinct.
    replace (pre ++ w :: ws) with ((pre ++ [w]) ++ ws)
      by (by rewrite <- app_assoc).
    rewrite <- IH. f_equal. rewrite distinct_snoc.
    destruct (decide (w ∈ distinct pre)) as [Hin|Hin];
      rewrite elem_of_distinct in Hin.
    + rewrite decide_True by done. rewrite app_nil_r.
      apply entries_ext. intros x _. by rewrite count_snoc.
    + rewrite decide_False by done. unfold entries. rewrite map_app. simpl.
      f_equal.
      * apply map_ext. intros x. by rewrite count_snoc.
      * rewrite count_snoc, count_not_elem by done.
        by rewrite decide_True.
Qed.

Lemma Counter_entries ws :
  Counter ws = entries (fun x => count x ws) (distinct ws).
Proof. apply (Counter_entries_from [] ws). Qed.

Lemma insert_desc_map {A B K} (ltb : K -> K -> bool) (key : B -> K)
      (f : A -> B) x l :
  insert_desc ltb key (f x) (map f l)
  = map f (insert_desc ltb (fun a => key (f a)) x l).
Proof.
  induction l as [|y l IH]; simpl; [done|].
  destruct (ltb (key (f x)) (key (f y))); simpl; by rewrite ?IH.
Qed.

Lemma sort_by_desc_map {A B K} (ltb : K -> K -> bool) (key : B -> K)
      (f : A -> B) l :
  sort_by_desc ltb key (map f l)
  = map f (sort_by_desc ltb (fun a => key (f a)) l).
Proof.
  induction l as [|x l IH]; simpl; [done|].
  by rewrite IH, insert_desc_map.
Qed.

Lemma most_common_Counter n ws :
  map fst (most_common n (Counter ws))
  = take (Z.to_nat n)
         (sort_by_desc Nat.ltb (fun w => count w ws) (distinct ws)).
Proof.
  unfold most_common. rewrite Counter_entries. unfold entries.
  rewrite sort_by_desc_map. simpl.
  rewrite firstn_map, map_map. simpl. apply map_id.
Qed.

(** The ranking [keywords_spec] cuts its keywords from: the distinct tokens
    by decreasing count, tokens of equal count in the order of their first
    occurrence. *)
Lemma keyword_ranking_sorted tokens :
  StronglySorted (fun a b => (count b tokens <= count a tokens)%nat)
    (sort_by_desc Nat.ltb (fun w => count w tokens) (distinct tokens)).
Proof.
  eapply strongly_sorted_impl;
    [|apply (sort_by_desc_sorted Nat.ltb (fun w => count w tokens)
               ltb_irrefl_nat ltb_trans_nat ltb_negtrans_nat)].
  intros a b. unfold desc. rewrite Nat.ltb_ge. lia.
Qed.

Lemma keyword_ranking_ties tokens c :
  filter (fun w => count w tokens = c)
         (sort_by_desc Nat.ltb (fun w => count w tokens) (distinct tokens))
  = filter (fun w => count w tokens = c) (distinct tokens).
Proof.
  rewrite (list_filter_iff (fun w => count w tokens = c)
             (fun w => same_key Nat.ltb (count w tokens) c))
    by (intros; by rewrite same_key_nat).
  rewrite (list_filter_iff (fun w => count w tokens = c)
             (fun w => same_key Nat.ltb (count w tokens) c)
             (distinct tokens))
    by (intros; by rewrite same_key_nat).
  apply (sort_by_desc_stable Nat.ltb (fun w => count w tokens)
           ltb_negtrans_nat).
Qed.

Section Claims.
Context {U : Unicode} {V : Vectorizer}.


End Claims.

(** ** The word-overlap fallback, as the specification words it *)

Definition no_space (w : pystr) : Prop :=
  Forall (fun c => is_space c = false) w.

(** [ws] are the words of [s], in order: [s] is whitespace, then the first
    word, then, when something follows it, whitespace and the other
    words. *)
Inductive words_of : pystr -> list pystr -> Prop :=
| words_none sp :
    PyFacts.all_space sp -> words_of sp []
| words_next sp w rest ws :
    PyFacts.all_space sp -> w <> [] -> no_space w ->
    (rest = [] \/ exists c rest', rest = c :: rest' /\ is_space c = true) ->
    words_of rest ws ->
    words_of (sp ++ w ++ rest) (w :: ws).

(** |query words ∩ text words| / max(|query words|, |text words|, 1), the
    words of each side counted once. *)
Definition overlap (query_words text_words : list pystr) : Q :=
  let common :=
    filter (fun w => w ∈ text_words) (distinct query_words) in
  (inject_Z (Z.of_nat (length common))
   / inject_Z (Z.of_nat (Nat.max (Nat.max (length (distinct query_words))
                                          (length (distinct text_words)))
                                 1)))%Q.

Definition clamp01 (x : Q) : Q :=
  if Qltb x 0 then 0%Q else if Qltb 1 x then 1%Q else x.

(** *** [str.split()] gives the words *)

Lemma split_at_aux_no_space w cur rest :
  no_space w ->
  split_at_aux is_space cur (w ++ rest)
  = split_at_aux is_space (rev w ++ cur) rest.
Proof.
  intros Hw. revert cur. induction Hw as [|c w Hc _ IH]; intros cur; [done|].
  simpl. rewrite Hc, IH. by rewrite <- app_assoc.
Qed.

Lemma split_leading_space sp s :
  PyFacts.all_space sp -> split (sp ++ s) = split s.
Proof.
  unfold split, split_at.
  induction 1 as [|c sp Hc _ IH]; [done|].
  simpl. rewrite Hc. by rewrite filter_cons_False.
Qed.

Lemma split_all_space sp : PyFacts.all_space sp -> split sp = [].
Proof.
  intros Hsp. rewrite <- (app_nil_r sp). by rewrite split_leading_space.
Qed.

Lemma split_word w rest :
  w <> [] -> no_space w ->
  (rest = [] \/ exists c rest', rest = c :: rest' /\ is_space c = true) ->
  split (w ++ rest) = w :: split rest.
Proof.
  intros Hne Hw Hrest. unfold split, split_at.
  rewrite split_at_aux_no_space, app_nil_r by done.
  assert (Hkeep : nonempty w = true) by (by destruct w).
  destruct Hrest as [->|(c & rest' & -> & Hc)]; simpl.
  - rewrite rev_involutive, filter_cons_True by done. done.
  - rewrite Hc, rev_involutive, filter_cons_True by done.
    by rewrite (filter_cons_False _ []).
Qed.

(** The words of a string are what [str.split()] returns, and nothing
    else is. *)
Lemma words_of_split s ws : words_of s ws <-> split s = ws.
Proof.
  assert (Hunique : forall s ws, words_of s ws -> split s = ws).
  { induction 1 as [sp Hsp|sp w rest ws1 Hsp Hne Hw Hrest _ IH].
    - by apply split_all_space.
    - rewrite split_leading_space, split_word by done. by rewrite IH. }
  assert (Hspace : forall c s ws,
             is_space c = true -> words_of s ws -> words_of (c :: s) ws).
  { intros c s0 ws0 Hc Hws.
    destruct Hws as [sp Hsp|sp w rest ws' Hsp Hne Hw Hrest Hws'].
    - apply words_none. by constructor.
    - apply (words_next (c :: sp)); try done. by constructor. }
  assert (Hexists : forall s,
             (exists ws, words_of s ws)
             /\ forall w, w <> [] -> no_space w ->
                          exists ws, words_of (w ++ s) ws).
  { induction s0 as [|c s0 [[ws0 IH1] IH2]].
    - split; [exists []; apply words_none; constructor|].
      intros w Hne Hw. exists [w].
      apply (words_next [] w [] []); try done;
        [constructor|by left|apply words_none; constructor].
    - destruct (is_space c) eqn:Hc.
      + assert (Hhere : words_of (c :: s0) ws0) by (by apply Hspace).
        split; [by exists ws0|].
        intros w Hne Hw. exists (w :: ws0).
        apply (words_next [] w (c :: s0) ws0); try done; [constructor|].
        right. by exists c, s0.
      + assert (Hrun : forall w, no_space w ->
                                 exists ws, words_of (w ++ c :: s0) ws).
        { intros w Hw.
          replace (w ++ c :: s0) with ((w ++ [c]) ++ s0)
            by (by rewrite <- app_assoc).
          apply IH2; [by destruct w|].
          apply Forall_app. split; [done|by repeat constructor]. }
        split; [apply (Hrun []); constructor|].
        intros w _ Hw. by apply Hrun. }
  split; [apply Hunique|].
  intros <-. destruct (Hexists s) as [[ws' Hws'] _].
  by rewrite (Hunique _ _ Hws').
Qed.

(** *** Counting the words once *)

Lemma size_word_list (l : list pystr) :
  size (list_to_set l : gset pystr) = length (distinct l).
Proof.
  rewrite <- (size_list_to_set (C := gset pystr) (distinct l))
    by apply NoDup_distinct.
  f_equal. apply set_eq. intros w.
  by rewrite !elem_of_list_to_set, elem_of_distinct.
Qed.

Lemma size_common_words (a b : list pystr) :
  size ((list_to_set a : gset pystr) ∩ list_to_set b)
  = length (filter (fun w => w ∈ b) (distinct a)).
Proof.
  rewrite <- (size_list_to_set (C := gset pystr)
                (filter (fun w => w ∈ b) (distinct a)))
    by apply NoDup_filter, NoDup_distinct.
  f_equal. apply set_eq. intros w.
  rewrite elem_of_intersection, !elem_of_list_to_set, list_elem_of_filter,
    elem_of_distinct.
  tauto.
Qed.

Lemma overlap_unit a b : (0 <= overlap a b <= 1)%Q.
Proof.
  unfold overlap.
  set (n := length (filter _ (distinct a))).
  set (m := Nat.max (Nat.max (length (distinct a)) (length (distinct b))) 1).
  assert (Hnm : (n <= m)%nat).
  { pose proof (length_filter (fun w => w ∈ b) (distinct a)).
    unfold n, m. lia. }
  assert (Hm : (0 < inject_Z (Z.of_nat m))%Q).
  { rewrite <- (Zlt_Qlt 0). unfold m. lia. }
  split.
  - apply Qle_shift_div_l; [done|]. rewrite Qmult_0_l.
    rewrite <- (Zle_Qle 0). lia.
  - apply Qle_shift_div_r; [done|]. rewrite Qmult_1_l.
    rewrite <- Zle_Qle. lia.
Qed.

Section Fallback.
Context {U : Unicode} {V : Vectorizer}.

(** The ratio the [except] branch computes for one text. *)
Definition overlap_ratio (query text : pystr) : Q :=
  Float64.div_int
    (size (word_set query ∩ word_set text))
    (pymax3 (size (word_set query)) (size (word_set text)) 1).

Lemma overlap_ratio_spec query text :
  overlap_ratio query text
  = Float64.rnd (overlap (split (lower query)) (split (lower text))).
Proof.
  unfold overlap_ratio, Float64.div_int, overlap, word_set, pymax3.
  by rewrite size_common_words, !size_word_list.
Qed.

Lemma overlap_ratio_bounds query text :
  (0 <= overlap_ratio query text <= 1)%Q.
Proof.
  rewrite overlap_ratio_spec. apply Float64Facts.rnd_unit, overlap_unit.
Qed.

Lemma fallback_similarity_eq query texts :
  fallback_similarity query texts
  = map (fun text => pymin (overlap_ratio query text) 1) texts.
Proof. reflexivity. Qed.

Lemma pymin_clamp query text :
  pymin (overlap_ratio query text) 1 = clamp01 (overlap_ratio query text).
Proof.
  destruct (overlap_ratio_bounds query text) as [H0 H1].
  unfold pymin, clamp01.
  apply Qltb_ge in H0. apply Qltb_ge in H1. by rewrite H0, H1.
Qed.

Lemma clamp01_unit x : (0 <= x <= 1)%Q -> clamp01 x = x.
Proof.
  intros [H0 H1]. unfold clamp01.
  apply Qltb_ge in H0. apply Qltb_ge in H1. by rewrite H0, H1.
Qed.

(** C9. Whenever the vectorization path raises, [calculate_similarity]
    returns the fallback scores: one score per candidate text, in input
    order.  The score of a text is the float nearest to the word-overlap
    ratio |query words ∩ text words| / max(|query words|, |text words|, 1)
    of the whitespace-separated words of the lowercased query and text,
    clamped to [0, 1]; the clamp changes nothing, the score is a float,
    lies in [0, 1] and is within 2^-53 of the ratio. *)
Theorem fallback_similarity_scores query texts e :
  tfidf_cosine query texts = Raise e ->
  exists scores,
    calculate_similarity query texts = Ok scores
    /\ length scores = length texts
    /\ Forall2
         (fun text score =>
            exists query_words text_words,
              words_of (lower query) query_words
              /\ words_of (lower text) text_words
              /\ score
                 = clamp01 (Float64.rnd (overlap query_words text_words))
              /\ score = Float64.rnd (overlap query_words text_words)
              /\ Float64Facts.representable score
              /\ (Qabs (score - overlap query_words text_words)
                  <= 1 # 9007199254740992)%Q
              /\ (0 <= score <= 1)%Q)
         texts scores.
Proof.
  intros Hfail. unfold calculate_similarity. rewrite Hfail. simpl.
  eexists. split; [reflexivity|]. rewrite fallback_similarity_eq.
  split; [by rewrite length_map|].
  apply Forall2_fmap_r, Forall_Forall2_diag, Forall_forall.
  intros text _.
  exists (split (lower query)), (split (lower text)).
  pose proof (overlap_unit (split (lower query)) (split (lower text)))
    as Hunit.
  pose proof (Float64Facts.rnd_unit _ Hunit) as Hrnd.
  split; [by apply words_of_split|]. split; [by apply words_of_split|].
  rewrite pymin_clamp, overlap_ratio_spec, clamp01_unit by done.
  split; [done|]. split; [done|].
  split; [apply Float64Facts.rnd_representable|].
  split; [by apply Float64Facts.rnd_unit_error|done].
Qed.
End Fallback.


(** C9, run: scikit-learn missing, three candidate texts, of which the
    first shares one of two words with the query, the second is empty, and
    the third has the words of the query. *)
Lemma fallback_similarity_scores_witness :
  @calculate_similarity Reference.latin1 Reference.no_sklearn
    (py "employment contract")
    [py "the contract"; py ""; py "employment Contract"]
  = Ok [1 # 2; 0; 1]%Q
  /\ words_of (py "employment contract")
              [py "employment"; py "contract"]
  /\ words_of (py "the contract") [py "the"; py "contract"]
  /\ overlap [py "employment"; py "contract"] [py "the"; py "contract"]
     = ((1 # 1) / (2 # 1))%Q.
Proof.
  destruct (@fallback_similarity_scores Reference.latin1 Reference.no_sklearn
              (py "employment contract")
              [py "the contract"; py ""; py "employment Contract"]
              (py "No module named 'sklearn'") eq_refl)
    as (scores & Hrun & _ & Hscores).
  split; [|split; [|split]].
  - rewrite Hrun. f_equal.
    inversion Hscores as [|? s1 ? l1 H1 Hl1]; subst.
    inversion Hl1 as [|? s2 ? l2 H2 Hl2]; subst.
    inversion Hl2 as [|? s3 ? l3 H3 Hl3]; subst.
    inversion Hl3; subst.
    destruct H1 as (q1 & t1 & <-%words_of_split & <-%words_of_split & _
                    & -> & _).
    destruct H2 as (q2 & t2 & <-%words_of_split & <-%words_of_split & _
                    & -> & _).
    destruct H3 as (q3 & t3 & <-%words_of_split & <-%words_of_split & _
                    & -> & _).
    by vm_compute.
  - apply words_of_split. by vm_compute.
  - apply words_of_split. by vm_compute.
  - by vm_compute.
Defined.

End NLPFacts.

(* ===================================================================== *)
(** * Properties of the information extractors *)
(* ===================================================================== *)

Module TextFacts.
Import Py Eff TextUtils.

Lemma NoDup_list_of_set xs : NoDup (list_of_set xs).
Proof. unfold list_of_set. apply NoDup_elements. Qed.

Lemma elem_of_list_of_set x xs : x ∈ list_of_set xs <-> x ∈ xs.
Proof. unfold list_of_set. by rewrite elem_of_elements, elem_of_list_to_set. Qed.

(** The shape the four extractors share. *)
Lemma deduplicated (found : exc (list pystr)) :
  exists l,
    exc_try (exc_bind found (fun xs => Ok (list_of_set xs))) (fun _ => Ok [])
    = Ok l
    /\ NoDup l.
Proof.
  destruct found as [xs|e]; simpl; eexists; (split; [reflexivity|]).
  - apply NoDup_list_of_set.
  - constructor.
Qed.

Section Extractors.
Context {R : Regex}.

(** C10. For every text, each of [extract_emails], [extract_phone_numbers],
    [extract_urls] and [extract_dates] returns a list, and that list holds
    no string twice. *)
Theorem extractors_no_duplicates text :
  (exists l, extract_emails text = Ok l /\ NoDup l)
  /\ (exists l, extract_phone_numbers text = Ok l /\ NoDup l)
  /\ (exists l, extract_urls text = Ok l /\ NoDup l)
  /\ (exists l, extract_dates text = Ok l /\ NoDup l).
Proof. repeat split; apply deduplicated. Qed.
End Extractors.

End TextFacts.

(* ===================================================================== *)
(** * Properties of the batch orchestrator *)
(* ===================================================================== *)

Module ApiFacts.
Import Py Eff Models Sorting SortingFacts Api.
Local Open Scope Q_scope.

#[export] Instance Qeq_decision : RelDecision Qeq := Qeq_dec.

(** ** The justification, as the specification words it *)

Inductive Band := High | Moderate | Low.

(** The floats that the literals [0.7] and [0.4] denote. *)
Definition f0_7 : Q := 3152519739159347 # 4503599627370496.
Definition f0_4 : Q := 3602879701896397 # 9007199254740992.

(** [score > 0.7]; otherwise [score > 0.4]; otherwise. *)
Definition in_band (score : Q) (b : Band) : Prop :=
  match b with
  | High => f0_7 < score
  | Moderate => f0_4 < score /\ score <= f0_7
  | Low => score <= f0_4
  end.

Definition band_message (b : Band) (formatted : pystr) : pystr :=
  match b with
  | High =>
    py "Documento altamente relevante (score: " ++ formatted
      ++ py ") - contém informações relacionadas à query"
  | Moderate =>
    py "Documento moderadamente relevante (score: " ++ formatted
      ++ py ") - possui algumas informações relacionadas"
  | Low =>
    py "Documento pouco relevante (score: " ++ formatted
      ++ py ") - poucas informações relacionadas à query"
  end.

(** The digit a character stands for: the characters 0 to 9 have the
    codes 48 to 57. *)
Definition digit_of (c : N) : option Z :=
  if ((48 <=? c) && (c <=? 57))%N then Some (Z.of_N c - 48)%Z else None.

Fixpoint number_from (acc : Z) (s : pystr) : option Z :=
  match s with
  | [] => Some acc
  | c :: s' =>
    match digit_of c with
    | Some d => number_from (10 * acc + d) s'
    | None => None
    end
  end.

(** The number a non-empty string of digits stands for. *)
Definition number_of (s : pystr) : option Z :=
  match s with
  | [] => None
  | _ => number_from 0 s
  end.

(** [t] writes [h] hundredths: the whole part, with no zero in front of
    another digit, a point (code 46) and two digits. *)
Definition hundredths_numeral (h : Z) (t : pystr) : Prop :=
  exists whole d1 d2 w a b,
    t = whole ++ [46%N; d1; d2]
    /\ number_of whole = Some w
    /\ (whole = [48%N] \/ head whole <> Some 48%N)
    /\ digit_of d1 = Some a
    /\ digit_of d2 = Some b
    /\ h = (100 * w + 10 * a + b)%Z.

(** [t] is [score] written with two decimal places: a minus sign (code
    45) when the score is negative, then the number of hundredths nearest
    to its absolute value, the even one when two are as near. *)
Definition two_places (score : Q) (t : pystr) : Prop :=
  exists h numeral,
    (0 <= h)%Z
    /\ Qabs (Qabs score * 100 - inject_Z h) <= 1 # 2
    /\ (Qabs (Qabs score * 100 - inject_Z h) == 1 # 2 -> Z.even h = true)
    /\ hundredths_numeral h numeral
    /\ t = (if Qltb score 0 then [45%N] else []) ++ numeral.

(** The sort key of the specification: the similarity score, a missing
    score counting as 0. *)
Definition score_or_zero (r : DocumentResult) : Q :=
  match similarity_score r with
  | Some score => score
  | None => 0
  end.

(** Two outcomes that differ at most in their identifier and processing
    time. *)
Definition same_verdict (r r' : DocumentResult) : Prop :=
  filename r = filename r'
  /\ status r = status r'
  /\ extracted_text r = extracted_text r'
  /\ summary r = summary r'
  /\ similarity_score r = similarity_score r'
  /\ justification r = justification r'
  /\ relevant_excerpts r = relevant_excerpts r'
  /\ error_message r = error_message r'.

(** ** What one document leaves in the outcome list *)

Definition completed_shape (has_query : bool) (file : UploadFile)
           (r : DocumentResult) : Prop :=
  filename r = up_filename file
  /\ status r = COMPLETED
  /\ error_message r = None
  /\ is_Some (extracted_text r)
  /\ is_Some (summary r)
  /\ if has_query then
       exists score,
         similarity_score r = Some score
         /\ justification r = Some (justify score)
         /\ is_Some (relevant_excerpts r)
     else
       similarity_score r = None /\ justification r = None
       /\ relevant_excerpts r = None.

Definition failed_shape (file : UploadFile) (r : DocumentResult) : Prop :=
  filename r = up_filename file
  /\ status r = FAILED
  /\ is_Some (error_message r)
  /\ extracted_text r = None
  /\ summary r = None
  /\ similarity_score r = None
  /\ justification r = None
  /\ relevant_excerpts r = None.

(** The outcome of [file]: completed or failed, and failed with the message
    of the exception whenever reading the upload raised. *)
Definition outcome_of (has_query : bool) (file : UploadFile)
           (r : DocumentResult) : Prop :=
  (completed_shape has_query file r \/ failed_shape file r)
  /\ forall e, up_read file = Raise e ->
               status r = FAILED /\ error_message r = Some e.

Definition completed (r : DocumentResult) : Prop := status r = COMPLETED.
Definition failed (r : DocumentResult) : Prop := status r = FAILED.

#[export] Instance status_eq_dec : EqDecision ProcessingStatus.
Proof. solve_decision. Defined.

#[export] Instance completed_dec r : Decision (completed r).
Proof. unfold completed. apply _. Defined.

#[export] Instance failed_dec r : Decision (failed r).
Proof. unfold failed. apply _. Defined.

Section Batch.
Context {W : World} {B : OCR.Backend} {U : NLP.Unicode}
        {nlp_service : NLP.Service} {audit_log : AuditSink}.

Lemma document_body_spec has_query query tess_lang file document_id
      doc_start_time s :
  match document_body has_query query tess_lang file document_id
                      doc_start_time s with
  | (_, Ok r) =>
    completed_shape has_query file r /\ is_ok (up_read file) = true
  | (_, Raise e) =>
    forall e', up_read file = Raise e' -> e = e'
  end.
Proof.
  unfold document_body, bind, lift, ret, time_time.
  destruct (up_read file) as [content|e0]; [|by intros ? [= ->]].
  destruct (extract_by_type file content tess_lang s) as [s1 [t|e1]];
    [|done].
  destruct (NLP.svc_summarize_text t) as [summ|e2]; [|done].
  destruct has_query; simpl.
  - destruct (NLP.svc_calculate_similarity query [t]) as [sims|e3]; [|done].
    destruct (NLP.svc_find_relevant_excerpts query t) as [ex|e4]; [|done].
    simpl. unfold completed_shape. simpl. repeat split; eauto.
  - unfold completed_shape. simpl. repeat split; eauto.
Qed.

(** One turn of the loop appends exactly one outcome and counts it once,
    whatever happened inside. *)
Lemma process_file_spec has_query query tess_lang file results
      successful failed_n s :
  exists s' r,
    process_file has_query query tess_lang file
                 (results, successful, failed_n) s
    = (s', Ok (results ++ [r],
               (successful + if decide (completed r) then 1 else 0)%nat,
               (failed_n + if decide (failed r) then 1 else 0)%nat))
    /\ outcome_of has_query file r.
Proof.
  unfold process_file, bind, try_except, time_time, uuid4, ret.
  cbn [ticks drawn].
  match goal with
  | |- context [document_body ?a ?b ?c ?d ?i ?t ?g] =>
    pose proof (document_body_spec a b c d i t g) as Hbody;
    destruct (document_body a b c d i t g) as [s1 [r|e]]
  end.
  - destruct Hbody as [Hshape Hread]. exists s1, r. split.
    + assert (Hc : status r = COMPLETED) by apply Hshape.
      rewrite decide_True by done.
      rewrite decide_False by (unfold failed; congruence).
      by rewrite Nat.add_1_r, Nat.add_0_r.
    + split; [by left|]. intros e He. by rewrite He in Hread.
  - unfold document_failed, bind, time_time, ret. cbn [ticks drawn].
    match goal with
    | |- context [Ok (results ++ [?rec], _, _)] => eexists _, rec
    end.
    split.
    + rewrite decide_False by (unfold completed; simpl; congruence).
      rewrite decide_True by done.
      by rewrite Nat.add_1_r, Nat.add_0_r.
    + split.
      * right. unfold failed_shape. simpl. repeat split; eauto.
      * intros e' He'. simpl. split; [done|]. f_equal. by apply Hbody.
Qed.

Lemma process_files_spec has_query query tess_lang files results
      successful failed_n s :
  exists s' rs,
    process_files has_query query tess_lang files
                  (results, successful, failed_n) s
    = (s', Ok (results ++ rs,
               (successful + length (filter completed rs))%nat,
               (failed_n + length (filter failed rs))%nat))
    /\ Forall2 (outcome_of has_query) files rs.
Proof.
  revert results successful failed_n s.
  induction files as [|file files IH];
    intros results successful failed_n s; cbn [process_files].
  - exists s, []. split; [|constructor].
    unfold ret. simpl. by rewrite app_nil_r, !Nat.add_0_r.
  - unfold bind.
    destruct (process_file_spec has_query query tess_lang file results
                successful failed_n s) as (s1 & r & -> & Hr).
    destruct (IH (results ++ [r])
                 (successful + if decide (completed r) then 1 else 0)%nat
                 (failed_n + if decide (failed r) then 1 else 0)%nat s1)
      as (s2 & rs & -> & Hrs).
    exists s2, (r :: rs). split; [|by constructor].
    rewrite <- app_assoc. simpl. rewrite !filter_cons.
    destruct (decide (completed r)), (decide (failed r)); simpl;
      repeat first [lia | f_equal].
Qed.

Definition tess_lang_of (language : pystr) : pystr :=
  default (py "por") (LANG_MAP !! NLP.lower (str_or language (py "por"))).

(** The outcome list as the loop leaves it, before any sorting: the
    per-document processing order. *)
Definition outcomes (query : option pystr) (language : pystr)
           (files : list UploadFile) (s : St) : list DocumentResult :=
  match process_files (has_query_of query) (default [] query)
                      (tess_lang_of language) files ([], 0%nat, 0%nat)
                      {| ticks := S (ticks s); drawn := drawn s |} with
  | (_, Ok (rs, _, _)) => rs
  | (_, Raise _) => []
  end.

(** The body of [process_batch] never raises, and its response is
    assembled from the outcome list of the loop. *)
Lemma batch_body_run rid uid query language files s :
  let pre := outcomes query language files s in
  exists s' resp,
    batch_body rid uid query language files s = (s', Ok resp)
    /\ request_id resp = rid
    /\ user_id resp = uid
    /\ Models.query resp = (if has_query_of query then query else None)
    /\ total_documents resp = length files
    /\ successful_documents resp = length (filter completed pre)
    /\ failed_documents resp = length (filter failed pre)
    /\ results resp = order_results (has_query_of query) pre
    /\ Forall2 (outcome_of (has_query_of query)) files pre.
Proof.
  unfold outcomes, batch_body, try_except, bind, time_time,
    utcnow, ret. cbn [ticks drawn]. fold (tess_lang_of language).
  destruct (process_files_spec (has_query_of query) (default [] query)
              (tess_lang_of language) files [] 0%nat 0%nat
              {| ticks := S (ticks s); drawn := drawn s |})
    as (s1 & rs & -> & Hrs).
  cbn [app ticks drawn].
  match goal with
  | |- context [write_log ?rec ?st] =>
    destruct (write_log rec st) as [s2 [log_id|e]]
  end; eexists _, _; (split; [reflexivity|]); simpl; by repeat split.
Qed.

(** So the [except] branch of [process_batch] is never taken. *)
Lemma process_batch_body rid uid query language files s :
  process_batch rid uid query language files s
  = batch_body rid uid query language files s.
Proof.
  unfold process_batch, try_except.
  destruct (batch_body_run rid uid query language files s)
    as (s' & resp & -> & _). reflexivity.
Qed.

Lemma process_batch_run rid uid query language files s :
  let pre := outcomes query language files s in
  exists s' resp,
    process_batch rid uid query language files s = (s', Ok resp)
    /\ request_id resp = rid
    /\ user_id resp = uid
    /\ Models.query resp = (if has_query_of query then query else None)
    /\ total_documents resp = length files
    /\ successful_documents resp = length (filter completed pre)
    /\ failed_documents resp = length (filter failed pre)
    /\ results resp = order_results (has_query_of query) pre
    /\ Forall2 (outcome_of (has_query_of query)) files pre.
Proof. rewrite process_batch_body. apply batch_body_run. Qed.

Lemma outcomes_length query language files s :
  length (outcomes query language files s) = length files.
Proof.
  destruct (process_batch_run [] [] query language files s)
    as (_ & _ & _ & _ & _ & _ & _ & _ & _ & _ & H).
  symmetry. by eapply Forall2_length.
Qed.

Lemma outcomes_filenames query language files s :
  map filename (outcomes query language files s) = map up_filename files.
Proof.
  destruct (process_batch_run [] [] query language files s)
    as (_ & _ & _ & _ & _ & _ & _ & _ & _ & _ & H).
  induction H as [|file r files rs [[Hr|Hr] _] _ IH]; simpl; [done|..];
    f_equal; try done; apply Hr.
Qed.

Lemma status_partition (rs : list DocumentResult) :
  Forall (fun r => status r = COMPLETED \/ status r = FAILED) rs ->
  (length (filter completed rs) + length (filter failed rs))%nat
  = length rs.
Proof.
  induction 1 as [|r rs Hr _ IH]; [done|].
  rewrite !filter_cons.
  destruct (decide (completed r)) as [Hc|Hc], (decide (failed r)) as [Hf|Hf];
    unfold completed, failed in Hc, Hf; simpl; [congruence|lia|lia|].
  destruct Hr; congruence.
Qed.

Lemma outcome_status has_query file r :
  outcome_of has_query file r ->
  status r = COMPLETED \/ status r = FAILED.
Proof. intros [[H|H] _]; [left|right]; apply H. Qed.

Lemma order_results_perm has_query rs :
  order_results has_query rs ≡ₚ rs.
Proof.
  unfold order_results. destruct has_query; [|done].
  apply sort_by_desc_perm.
Qed.

(** ** A document is judged on its own *)

Lemma extract_by_type_result file content tess_lang s1 s2 :
  snd (extract_by_type file content tess_lang s1)
  = snd (extract_by_type file content tess_lang s2).
Proof.
  unfold extract_by_type, bind, ret, raise.
  destruct (bool_decide _).
  { rewrite !OCRFacts.extract_run. simpl.
    by destruct (OCR.extract_dispatch _ _ _) as [[t c]|]. }
  destruct (up_content_type file) as [ct|]; [|done].
  destruct (startswith _ ct); [|done].
  rewrite !OCRFacts.extract_run. simpl.
  by destruct (OCR.extract_dispatch _ _ _) as [[t c]|].
Qed.

(** What the body of the per-document [try] returns or raises depends on
    the document only, the identifier and the clock readings aside. *)
Lemma document_body_verdict has_query query tess_lang file id1 t1 s1
      id2 t2 s2 :
  match snd (document_body has_query query tess_lang file id1 t1 s1),
        snd (document_body has_query query tess_lang file id2 t2 s2) with
  | Ok r1, Ok r2 => same_verdict r1 r2
  | Raise e1, Raise e2 => e1 = e2
  | _, _ => False
  end.
Proof.
  unfold document_body, bind, lift, ret, time_time.
  destruct (up_read file) as [content|e0]; [|done].
  pose proof (extract_by_type_result file content tess_lang s1 s2) as Hsame.
  destruct (extract_by_type file content tess_lang s1) as [s1' [x1|e1]],
           (extract_by_type file content tess_lang s2) as [s2' [x2|e2]];
    simpl in Hsame; try discriminate; [|congruence].
  injection Hsame as <-.
  destruct (NLP.svc_summarize_text x1) as [summ|e2]; [|done].
  destruct has_query; simpl; [|by repeat split].
  destruct (NLP.svc_calculate_similarity query [x1]) as [sims|e3]; [|done].
  destruct (NLP.svc_find_relevant_excerpts query x1) as [ex|e4]; [|done].
  simpl. by repeat split.
Qed.

(** So is the outcome a turn of the loop appends, whatever the outcomes
    before it and whatever the state of the environment. *)
Lemma process_file_verdict has_query query tess_lang file
      results1 su1 fa1 s1 results2 su2 fa2 s2 s1' r1 a1 b1 s2' r2 a2 b2 :
  process_file has_query query tess_lang file (results1, su1, fa1) s1
  = (s1', Ok (results1 ++ [r1], a1, b1)) ->
  process_file has_query query tess_lang file (results2, su2, fa2) s2
  = (s2', Ok (results2 ++ [r2], a2, b2)) ->
  same_verdict r1 r2.
Proof.
  unfold process_file, bind, try_except, time_time, uuid4, ret.
  cbn [ticks drawn].
  set (g1 := {| ticks := S (ticks s1); drawn := S (drawn s1) |}).
  set (g2 := {| ticks := S (ticks s2); drawn := S (drawn s2) |}).
  pose proof (document_body_verdict has_query query tess_lang file
                (uuid_value (drawn s1)) (time_reading (ticks s1)) g1
                (uuid_value (drawn s2)) (time_reading (ticks s2)) g2) as Hv.
  destruct (document_body has_query query tess_lang file
              (uuid_value (drawn s1)) (time_reading (ticks s1)) g1)
    as [g1' [x1|e1]],
           (document_body has_query query tess_lang file
              (uuid_value (drawn s2)) (time_reading (ticks s2)) g2)
    as [g2' [x2|e2]]; simpl in Hv; try done.
  - intros [= _ H1%app_inj_tail _ _] [= _ H2%app_inj_tail _ _].
    destruct H1 as [_ <-], H2 as [_ <-]. done.
  - subst e2. unfold document_failed, bind, time_time, ret.
    cbn [ticks drawn].
    intros [= _ H1%app_inj_tail _ _] [= _ H2%app_inj_tail _ _].
    destruct H1 as [_ <-], H2 as [_ <-]. by repeat split.
Qed.

(** Lifting a fact about one turn of the loop to the whole outcome list. *)
Lemma process_files_Forall2 (P : UploadFile -> DocumentResult -> Prop)
      has_query query tess_lang :
  (forall file results successful failed_n s,
      exists s' r successful' failed_n',
        process_file has_query query tess_lang file
                     (results, successful, failed_n) s
        = (s', Ok (results ++ [r], successful', failed_n'))
        /\ P file r) ->
  forall files results successful failed_n s,
    exists s' rs successful' failed_n',
      process_files has_query query tess_lang files
                    (results, successful, failed_n) s
      = (s', Ok (results ++ rs, successful', failed_n'))
      /\ Forall2 P files rs.
Proof.
  intros Hstep files.
  induction files as [|file files IH];
    intros results successful failed_n s; cbn [process_files].
  - exists s, [], successful, failed_n. unfold ret. rewrite app_nil_r.
    split; [done|constructor].
  - unfold bind.
    destruct (Hstep file results successful failed_n s)
      as (s1 & r & su1 & fa1 & -> & Hr).
    destruct (IH (results ++ [r]) su1 fa1 s1)
      as (s2 & rs & su2 & fa2 & -> & Hrs).
    exists s2, (r :: rs), su2, fa2. rewrite <- app_assoc.
    split; [done|by constructor].
Qed.

Lemma outcomes_Forall2 (P : UploadFile -> DocumentResult -> Prop)
      query language files s :
  (forall file results successful failed_n s0,
      exists s' r successful' failed_n',
        process_file (has_query_of query) (default [] query)
                     (tess_lang_of language) file
                     (results, successful, failed_n) s0
        = (s', Ok (results ++ [r], successful', failed_n'))
        /\ P file r) ->
  Forall2 P files (outcomes query language files s).
Proof.
  intros Hstep. unfold outcomes.
  destruct (process_files_Forall2 P _ _ _ Hstep files [] 0%nat 0%nat
              {| ticks := S (ticks s); drawn := drawn s |})
    as (s1 & rs & su & fa & -> & Hrs).
  done.
Qed.

(** The outcome of a document in a batch is the outcome it has as the only
    document of a batch, in any state of the environment. *)
Definition judged_alone (query : option pystr) (language : pystr)
           (file : UploadFile) (r : DocumentResult) : Prop :=
  forall s0, exists r0,
    outcomes query language [file] s0 = [r0] /\ same_verdict r r0.

Lemma outcomes_judged_alone query language files s :
  Forall2 (fun file r =>
             outcome_of (has_query_of query) file r
             /\ judged_alone query language file r)
          files (outcomes query language files s).
Proof.
  apply outcomes_Forall2. intros file results successful failed_n s0.
  destruct (process_file_spec (has_query_of query) (default [] query)
              (tess_lang_of language) file results successful failed_n s0)
    as (s' & r & Hrun & Hr).
  eexists s', r, _, _. split; [exact Hrun|]. split; [exact Hr|].
  intros s1. unfold outcomes. cbn [process_files]. unfold bind, ret.
  destruct (process_file_spec (has_query_of query) (default [] query)
              (tess_lang_of language) file [] 0%nat 0%nat
              {| ticks := S (ticks s1); drawn := drawn s1 |})
    as (s1' & r0 & Hrun0 & _).
  rewrite Hrun0. exists r0. split; [done|].
  eapply process_file_verdict; [exact Hrun|exact Hrun0].
Qed.


(** ** Absent and blank queries *)

(** No query: the parameter is absent, or made of whitespace only. *)
Definition blank (query : option pystr) : Prop :=
  match query with
  | None => True
  | Some q => PyFacts.all_space q
  end.

Lemma has_query_of_false_iff query :
  has_query_of query = false <-> blank query.
Proof.
  destruct query as [q|]; simpl; [|done].
  rewrite <- PyFacts.strip_nil_iff.
  destruct q as [|c q]; [done|]. simpl nonempty at 1.
  rewrite andb_true_l. by destruct (strip (c :: q)).
Qed.

Lemma has_query_of_true_iff query :
  has_query_of query = true <-> ~ blank query.
Proof.
  rewrite <- has_query_of_false_iff. by destruct (has_query_of query).
Qed.

Lemma score_key_missing r : similarity_score r = None -> score_key r = 0.
Proof. unfold score_key. by intros ->. Qed.

(** The key [x.similarity_score or 0] has the value of the similarity
    score, and 0 when the score is missing. *)
Lemma score_key_value r : score_key r == score_or_zero r.
Proof.
  unfold score_key, score_or_zero.
  destruct (similarity_score r) as [score|]; [|done].
  destruct (Qeq_bool score 0) eqn:H0; [|done].
  apply Qeq_bool_iff in H0. by rewrite H0.
Qed.

(** C1. For every batch run, [process_batch] returns a response.  The
    outcomes are produced in input order, one per document, and a FAILED
    outcome has no similarity score.  When the query is not blank, the
    result list is that outcome list rearranged by decreasing similarity
    score, a missing score counting as 0: no result has a higher score
    than a result before it, and the outcomes of one score keep their
    relative order.  When there is no query, the result list is the
    outcome list itself, in input order. *)
Theorem batch_results_order rid uid query language files s :
  let pre := outcomes query language files s in
  exists s' resp,
    process_batch rid uid query language files s = (s', Ok resp)
    /\ map filename pre = map up_filename files
    /\ Forall (fun r => status r = FAILED ->
                        similarity_score r = None /\ score_or_zero r = 0)
              pre
    /\ (~ blank query ->
        results resp ≡ₚ pre
        /\ StronglySorted (fun a b => score_or_zero b <= score_or_zero a)
                          (results resp)
        /\ forall q,
             filter (fun r => score_or_zero r == q) (results resp)
             = filter (fun r => score_or_zero r == q) pre)
    /\ (blank query -> results resp = pre).
Proof.
  intros pre.
  destruct (process_batch_run rid uid query language files s)
    as (s' & resp & Hrun & _ & _ & _ & _ & _ & _ & Hres & Hout).
  fold pre in Hres, Hout. exists s', resp.
  split; [done|]. split; [apply outcomes_filenames|]. split; [|split].
  - eapply Forall2_Forall_r; [exact Hout|]. apply Forall_forall.
    intros file _ r [[Hc|Hf] _] Hst.
    + destruct Hc as (_ & Hc & _). congruence.
    + destruct Hf as (_ & _ & _ & _ & _ & Hs & _).
      split; [done|]. unfold score_or_zero. by rewrite Hs.
  - intros Hq%has_query_of_true_iff. rewrite Hres, Hq. simpl.
    split; [|split].
    + apply sort_by_desc_perm.
    + eapply strongly_sorted_impl;
        [|apply (sort_by_desc_sorted Qltb score_key
                   Qltb_irrefl Qltb_trans Qltb_negtrans)].
      intros x y. unfold desc. rewrite Qltb_ge.
      by rewrite !score_key_value.
    + intros q.
      rewrite (list_filter_iff (fun r => score_or_zero r == q)
                 (fun r => same_key Qltb (score_key r) q))
        by (intros; by rewrite same_key_Q, score_key_value).
      rewrite (list_filter_iff (fun r => score_or_zero r == q)
                 (fun r => same_key Qltb (score_key r) q) pre)
        by (intros; by rewrite same_key_Q, score_key_value).
      apply (sort_by_desc_stable Qltb score_key Qltb_negtrans).
  - intros Hq%has_query_of_false_iff. by rewrite Hres, Hq.
Qed.

(** C2. For every batch run, [process_batch] returns a response in which
    total_documents = successful_documents + failed_documents = the length
    of the result list = the number of input documents, the two counters
    being the numbers of COMPLETED and of FAILED results.  The result list
    is a rearrangement of the outcome list, which holds exactly one
    outcome per input document, in input order, each COMPLETED or FAILED.
    A document whose reading raises is in it, FAILED with the message of
    the exception; and the outcome of every document is, its identifier
    and processing time aside, the outcome it has as the only document of
    a batch: what happens to a document neither removes it from the list
    nor changes the outcome of another. *)
Theorem batch_counts_and_outcomes rid uid query language files s :
  let pre := outcomes query language files s in
  exists s' resp,
    process_batch rid uid query language files s = (s', Ok resp)
    /\ total_documents resp
       = (successful_documents resp + failed_documents resp)%nat
    /\ total_documents resp = length (results resp)
    /\ total_documents resp = length files
    /\ successful_documents resp
       = length (filter completed (results resp))
    /\ failed_documents resp = length (filter failed (results resp))
    /\ results resp ≡ₚ pre
    /\ Forall2
         (fun file r =>
            filename r = up_filename file
            /\ (status r = COMPLETED \/ status r = FAILED)
            /\ (forall e, up_read file = Raise e ->
                          status r = FAILED /\ error_message r = Some e)
            /\ forall s0, exists r0,
                 outcomes query language [file] s0 = [r0]
                 /\ same_verdict r r0)
         files pre.
Proof.
  intros pre.
  destruct (process_batch_run rid uid query language files s)
    as (s' & resp & Hrun & _ & _ & _ & Htot & Hsucc & Hfail & Hres & Hout).
  fold pre in Hsucc, Hfail, Hres, Hout. exists s', resp.
  assert (Hperm : results resp ≡ₚ pre)
    by (rewrite Hres; apply order_results_perm).
  assert (Hlen : length pre = length files)
    by apply outcomes_length.
  assert (Hstatus : Forall (fun r => status r = COMPLETED
                                     \/ status r = FAILED) pre).
  { eapply Forall2_Forall_r; [exact Hout|]. apply Forall_forall.
    intros file _ r Hr. by eapply outcome_status. }
  repeat split.
  - done.
  - rewrite Htot, Hsucc, Hfail, status_partition; done.
  - by rewrite Htot, Hperm.
  - done.
  - by rewrite Hperm.
  - by rewrite Hperm.
  - done.
  - eapply Forall2_impl; [apply outcomes_judged_alone|].
    intros file r [Hr Halone].
    split; [|split; [|split]].
    + destruct Hr as [[H|H] _]; apply H.
    + by eapply outcome_status.
    + apply Hr.
    + exact Halone.
Qed.

Lemma process_files_no_query q1 q2 tess_lang files acc s :
  process_files false q1 tess_lang files acc s
  = process_files false q2 tess_lang files acc s.
Proof.
  revert acc s. induction files as [|file files IH]; intros acc s;
    cbn [process_files]; [done|].
  unfold bind.
  assert (process_file false q1 tess_lang file acc s
          = process_file false q2 tess_lang file acc s) as ->
    by (by destruct acc as [[??]?]).
  destruct (process_file false q2 tess_lang file acc s) as [s1 [acc'|e]];
    [apply IH|done].
Qed.

(** C3. A batch run whose query consists only of whitespace (the empty
    string included) is the run with the query absent: same response, same
    use of the environment.  In it no outcome carries a similarity score,
    a justification or relevant excerpts, and the echoed query is
    absent. *)
Theorem blank_query_is_absent_query rid uid q language files s :
  PyFacts.all_space q ->
  process_batch rid uid (Some q) language files s
  = process_batch rid uid None language files s
  /\ exists s' resp,
       process_batch rid uid (Some q) language files s = (s', Ok resp)
       /\ Models.query resp = None
       /\ Forall (fun r => similarity_score r = None
                           /\ justification r = None
                           /\ relevant_excerpts r = None) (results resp).
Proof.
  intros Hq. assert (Hno : has_query_of (Some q) = false)
    by (by apply has_query_of_false_iff).
  split.
  - rewrite !process_batch_body. unfold batch_body. rewrite Hno.
    cbn [has_query_of default]. unfold bind.
    destruct (time_time s) as [s1 [start_time|e]]; [|done].
    by rewrite (process_files_no_query q []).
  - destruct (process_batch_run rid uid (Some q) language files s)
      as (s' & resp & Hrun & _ & _ & Hquery & _ & _ & _ & Hres & Hout).
    rewrite Hno in *. exists s', resp. split; [done|]. split; [done|].
    rewrite Hres. simpl.
    eapply Forall2_Forall_r; [exact Hout|]. apply Forall_forall.
    intros file _ r [[Hc|Hf] _].
    + by destruct Hc as (_ & _ & _ & _ & _ & ? & ? & ?).
    + by destruct Hf as (_ & _ & _ & _ & _ & ? & ? & ?).
Qed.

(** ** The justification *)

Lemma f0_7_literal : Float64.rnd (7 # 10) = f0_7.
Proof. by vm_compute. Qed.

Lemma f0_4_literal : Float64.rnd (4 # 10) = f0_4.
Proof. by vm_compute. Qed.

Lemma justify_band score :
  exists b,
    justify score = band_message b (format_2f score) /\ in_band score b.
Proof.
  unfold justify. rewrite f0_7_literal, f0_4_literal.
  destruct (Qltb f0_7 score) eqn:H7.
  { exists High. split; [done|]. by apply Qltb_lt. }
  destruct (Qltb f0_4 score) eqn:H4.
  { exists Moderate. split; [done|]. split; [by apply Qltb_lt|].
    by apply Qltb_ge. }
  exists Low. split; [done|]. by apply Qltb_ge.
Qed.

(** A score is in one band only. *)
Lemma in_band_unique score b b' :
  in_band score b -> in_band score b' -> b = b'.
Proof.
  assert (H47 : f0_4 < f0_7) by done.
  destruct b, b'; simpl; try done; intros; exfalso; lra.
Qed.

(** *** Decimal numerals *)

Fixpoint uint_codes (d : Decimal.uint) : pystr :=
  match d with
  | Decimal.Nil => []
  | Decimal.D0 d' => 48%N :: uint_codes d'
  | Decimal.D1 d' => 49%N :: uint_codes d'
  | Decimal.D2 d' => 50%N :: uint_codes d'
  | Decimal.D3 d' => 51%N :: uint_codes d'
  | Decimal.D4 d' => 52%N :: uint_codes d'
  | Decimal.D5 d' => 53%N :: uint_codes d'
  | Decimal.D6 d' => 54%N :: uint_codes d'
  | Decimal.D7 d' => 55%N :: uint_codes d'
  | Decimal.D8 d' => 56%N :: uint_codes d'
  | Decimal.D9 d' => 57%N :: uint_codes d'
  end.

Lemma py_uint d : py (NilEmpty.string_of_uint d) = uint_codes d.
Proof.
  unfold py.
  assert (H : utf8_decode (list_byte_of_string (NilEmpty.string_of_uint d))
              = Some (uint_codes d)).
  { induction d as [|d IH|d IH|d IH|d IH|d IH|d IH|d IH|d IH|d IH|d IH];
      [done|..]; unfold list_byte_of_string in *;
      cbn [NilEmpty.string_of_uint list_ascii_of_string map utf8_decode];
      rewrite IH; reflexivity. }
  by rewrite H.
Qed.

Lemma number_from_acc d acc :
  number_from (Z.pos acc) (uint_codes d)
  = Some (Z.pos (Pos.of_uint_acc d acc)).
Proof.
  revert acc.
  induction d as [|d IH|d IH|d IH|d IH|d IH|d IH|d IH|d IH|d IH|d IH];
    intros acc; [done|..];
    cbn [uint_codes number_from Pos.of_uint_acc];
    change (digit_of _) with (Some 0%Z) || change (digit_of _) with (Some 1%Z)
    || change (digit_of _) with (Some 2%Z)
    || change (digit_of _) with (Some 3%Z)
    || change (digit_of _) with (Some 4%Z)
    || change (digit_of _) with (Some 5%Z)
    || change (digit_of _) with (Some 6%Z)
    || change (digit_of _) with (Some 7%Z)
    || change (digit_of _) with (Some 8%Z)
    || change (digit_of _) with (Some 9%Z);
    rewrite <- IH; f_equal; lia.
Qed.

Lemma number_from_uint d :
  number_from 0 (uint_codes d) = Some (Z.of_N (Pos.of_uint d)).
Proof.
  induction d as [|d IH|d IH|d IH|d IH|d IH|d IH|d IH|d IH|d IH|d IH];
    [done|exact IH|..];
    cbn [uint_codes number_from Pos.of_uint];
    change (digit_of _) with (Some 1%Z) || change (digit_of _) with (Some 2%Z)
    || change (digit_of _) with (Some 3%Z)
    || change (digit_of _) with (Some 4%Z)
    || change (digit_of _) with (Some 5%Z)
    || change (digit_of _) with (Some 6%Z)
    || change (digit_of _) with (Some 7%Z)
    || change (digit_of _) with (Some 8%Z)
    || change (digit_of _) with (Some 9%Z);
    apply number_from_acc.
Qed.

(** [decimal n] is the numeral of [n], with no zero in front of another
    digit. *)
Lemma decimal_number n :
  (0 <= n)%Z ->
  number_of (decimal n) = Some n
  /\ (decimal n = [48%N] \/ head (decimal n) <> Some 48%N).
Proof.
  intros Hn. unfold decimal.
  set (u := N.to_uint (Z.to_N n)).
  assert (Hval : N.of_uint u = Z.to_N n) by apply DecimalN.Unsigned.of_to.
  assert (Hnorm : Decimal.unorm u = u).
  { unfold u at 2. rewrite <- Hval. symmetry.
    apply DecimalN.Unsigned.to_of. }
  assert (Hvalue : number_from 0 (uint_codes u) = Some n).
  { rewrite number_from_uint. f_equal.
    change (Pos.of_uint u) with (N.of_uint u). rewrite Hval. lia. }
  destruct u as [|l|l|l|l|l|l|l|l|l|l] eqn:Hu; [done|..];
    cbn [NilZero.string_of_uint]; rewrite py_uint;
    (split; [exact Hvalue|]); try (by right).
  unfold Decimal.unorm in Hnorm. cbn [Decimal.nzhead] in Hnorm.
  destruct (Decimal.nzhead l) eqn:Hz; try discriminate.
  - left. by injection Hnorm as <-.
  - exfalso. by apply (DecimalFacts.nzhead_nonzero _ _ Hz).
Qed.

Lemma digit_of_digit d : (0 <= d <= 9)%Z -> digit_of (digit d) = Some d.
Proof.
  intros Hd. unfold digit_of, digit.
  rewrite (proj2 (N.leb_le 48 _)), (proj2 (N.leb_le _ 57)) by lia.
  simpl. f_equal. lia.
Qed.

Lemma format_2f_two_places score : two_places score (format_2f score).
Proof.
  set (h := PyFacts.hundredths score).
  pose proof (PyFacts.hundredths_nonneg score) as Hh. fold h in Hh.
  destruct (decimal_number (h / 100)) as [Hwhole Hcanon];
    [apply Z.div_pos; lia|].
  exists h, (decimal (h / 100) ++ [46%N; digit (h mod 100 / 10);
                                   digit (h mod 10)]).
  split; [done|].
  split; [apply PyFacts.round_half_even_nearest|].
  split; [apply PyFacts.round_half_even_tie|].
  split; [|unfold format_2f; fold (PyFacts.hundredths score); fold h;
           by destruct (Qltb score 0)].
  exists (decimal (h / 100)), (digit (h mod 100 / 10)), (digit (h mod 10)),
    (h / 100)%Z, (h mod 100 / 10)%Z, (h mod 10)%Z.
  split; [done|]. split; [done|]. split; [done|].
  split; [apply digit_of_digit; Z.div_mod_to_equations; lia|].
  split; [apply digit_of_digit; Z.div_mod_to_equations; lia|].
  Z.div_mod_to_equations. lia.
Qed.

(** C4. For every batch run with a non-blank query, every COMPLETED result
    carries a score and a justification derived from it: the message of
    the band of the score, with the score written to two decimal places
    inside.  The band is "highly relevant" when score > 0.7, "moderately
    relevant" when 0.4 < score <= 0.7, and "low relevance" when score <=
    0.4, the thresholds being the floats 0.7 and 0.4: a score that is the
    float 0.7 is in the middle band, and one that is the float 0.4 in the
    low band. *)
Theorem justification_bands rid uid query language files s :
  (exists s' resp,
      process_batch rid uid query language files s = (s', Ok resp)
      /\ (~ blank query ->
          Forall (fun r =>
                    status r = COMPLETED ->
                    exists score band formatted,
                      similarity_score r = Some score
                      /\ justification r
                         = Some (band_message band formatted)
                      /\ in_band score band
                      /\ two_places score formatted)
                 (results resp)))
  /\ in_band (Float64.rnd (7 # 10)) Moderate
  /\ in_band (Float64.rnd (4 # 10)) Low.
Proof.
  split; [|by rewrite f0_7_literal, f0_4_literal].
  destruct (process_batch_run rid uid query language files s)
    as (s' & resp & Hrun & _ & _ & _ & _ & _ & _ & Hres & Hout).
  exists s', resp. split; [done|].
  intros Hq%has_query_of_true_iff. rewrite Hq in Hout.
  assert (Hperm : results resp ≡ₚ outcomes query language files s)
    by (rewrite Hres; apply order_results_perm).
  rewrite Hperm.
  eapply Forall2_Forall_r; [exact Hout|]. apply Forall_forall.
  intros file _ r [[Hc|Hf] _] Hst.
  - destruct Hc as (_ & _ & _ & _ & _ & score & Hs & Hj & _).
    destruct (justify_band score) as (band & Hmsg & Hband).
    exists score, band, (format_2f score).
    split; [done|]. split; [by rewrite Hj, Hmsg|].
    split; [done|apply format_2f_two_places].
  - destruct Hf as (_ & Hf & _). congruence.
Qed.

End Batch.

(** C3, run: the query is three spaces. *)
Lemma blank_query_is_absent_query_witness :
  let run query :=
    @process_batch Reference.world Reference.plain_backend Reference.latin1
      (@NLP.nlp_service Reference.latin1 Reference.no_sklearn)
      (@Reference.mock_audit_log Reference.world) (py "r1") (py "u1")
      query (py "pt")
      [Reference.text_file "a.txt" "contract law"] Reference.s0 in
  run (Some (py "   ")) = run None
  /\ exists s' resp,
       run (Some (py "   ")) = (s', Ok resp)
       /\ Models.query resp = None
       /\ Forall (fun r => similarity_score r = None
                           /\ justification r = None
                           /\ relevant_excerpts r = None) (results resp).
Proof.
  apply (@blank_query_is_absent_query Reference.world Reference.plain_backend
           Reference.latin1
           (@NLP.nlp_service Reference.latin1 Reference.no_sklearn)
           (@Reference.mock_audit_log Reference.world)).
  repeat constructor.
Defined.

(** A ranked run of three uploads, the second of which cannot be read: the
    results come out by decreasing score, the failed one last. *)
Example ranked_run :
  match @process_batch Reference.world Reference.plain_backend
          Reference.latin1
          (@NLP.nlp_service Reference.latin1 Reference.no_sklearn)
          (@Reference.mock_audit_log Reference.world) (py "r1") (py "u1")
          (Some (py "contract law")) (py "pt")
          [Reference.text_file "a.txt" "nothing";
           Reference.broken_file "b.txt";
           Reference.text_file "c.txt" "contract law"] Reference.s0 with
  | (_, Ok resp) =>
    map filename (results resp) = [py "c.txt"; py "a.txt"; py "b.txt"]
    /\ map status (results resp) = [COMPLETED; COMPLETED; FAILED]
    /\ (total_documents resp, successful_documents resp,
        failed_documents resp) = (3, 2, 1)%nat
  | (_, Raise _) => False
  end.
Proof. vm_compute. repeat split. Qed.

(** ** The bands at and around their boundaries *)

Example justify_0_75 :
  justify (Float64.rnd (75 # 100))
  = py "Documento altamente relevante (score: 0.75) - contém informações relacionadas à query".
Proof. vm_compute. reflexivity. Qed.

Example justify_0_70 :
  justify (Float64.rnd (70 # 100))
  = py "Documento moderadamente relevante (score: 0.70) - possui algumas informações relacionadas".
Proof. vm_compute. reflexivity. Qed.

Example justify_0_40 :
  justify (Float64.rnd (40 # 100))
  = py "Documento pouco relevante (score: 0.40) - poucas informações relacionadas à query".
Proof. vm_compute. reflexivity. Qed.

(** One word in forty: the float nearest to 1/40 is above 0.025 and is
    printed 0.03. *)
Example justify_one_in_forty :
  justify (Float64.div_int 1 40)
  = py "Documento pouco relevante (score: 0.03) - poucas informações relacionadas à query".
Proof. vm_compute. reflexivity. Qed.

(** The same in a run: the query is one of the forty words of the
    document. *)
Example one_word_in_forty_run :
  match @process_batch Reference.world Reference.plain_backend
          Reference.latin1
          (@NLP.nlp_service Reference.latin1 Reference.no_sklearn)
          (@Reference.mock_audit_log Reference.world) (py "r1") (py "u1")
          (Some (py "a")) (py "pt")
          [Reference.text_file "a.txt"
             "a b c d e f g h i j k l m n o p q r s t u v w x y z aa bb cc dd ee ff gg hh ii jj kk ll mm nn"]
          Reference.s0 with
  | (_, Ok resp) =>
    map similarity_score (results resp)
    = [Some (3602879701896397 # 144115188075855872)]
    /\ map justification (results resp)
       = [Some (py "Documento pouco relevante (score: 0.03) - poucas informações relacionadas à query")]
  | (_, Raise _) => False
  end.
Proof. vm_compute. split; reflexivity. Qed.

(** A tie: 1/8 is a float, and 12.5 hundredths are printed as 12. *)
Example justify_one_in_eight :
  justify (Float64.div_int 1 8)
  = py "Documento pouco relevante (score: 0.12) - poucas informações relacionadas à query".
Proof. vm_compute. reflexivity. Qed.

End ApiFacts.

(* ===================================================================== *)
(** * Further properties of the text extractor *)
(* ===================================================================== *)

Module OCRProps.
Import Py Eff Models OCR SortingFacts OCRFacts.
Local Open Scope Q_scope.

Lemma pymin_cases a b : pymin a b = a /\ a <= b \/ pymin a b = b /\ b < a.
Proof.
  unfold pymin. destruct (Qltb b a) eqn:H.
  - right. split; [done|]. by apply Qltb_lt.
  - left. split; [done|]. by apply Qltb_ge.
Qed.

Lemma len_over_nonneg s d : (0 < d)%Z -> 0 <= len_over s d.
Proof.
  intros Hd. unfold len_over. apply Qle_shift_div_l.
  - by rewrite <- (Zlt_Qlt 0).
  - rewrite Qmult_0_l. rewrite <- (Zle_Qle 0). lia.
Qed.

Lemma inject_nat_succ n :
  inject_Z (Z.of_nat (S n)) == inject_Z (Z.of_nat n) + 1.
Proof. rewrite Nat2Z.inj_succ. unfold Z.succ. by rewrite inject_Z_plus. Qed.

Section Service.
Context {B : Backend} {W : World}.

(** A page adds a confidence between 0 and 0.95. *)
Lemma pdf_page_confidence doc language n t c :
  pdf_page doc language n = Ok (t, c) -> 0 <= c <= 95 # 100.
Proof.
  unfold pdf_page.
  destruct (load_page doc n) as [pg|]; simpl; [|done].
  destruct (get_text pg) as [direct|]; simpl; [|done].
  destruct (nonempty (strip direct)).
  - intros [= _ <-]. split; discriminate.
  - destruct (pixmap_png pg) as [img_data|]; simpl; [|done].
    destruct (image_open img_data) as [img|]; simpl; [|done].
    destruct (image_to_string img language) as [ocr_text|]; simpl; [|done].
    intros [= _ <-].
    pose proof (len_over_nonneg (strip ocr_text) 1000 eq_refl) as Hlen.
    destruct (pymin_cases (8 # 10) (len_over (strip ocr_text) 1000))
      as [[-> _]|[-> Hlt]].
    + split; discriminate.
    + split; [done|]. apply Qlt_le_weak.
      eapply Qlt_le_trans; [exact Hlt|discriminate].
Qed.

Lemma pdf_pages_bounds doc language nums all_text total count r :
  pdf_pages doc language nums (all_text, total, count) = Ok r ->
  0 <= total <= (95 # 100) * inject_Z (Z.of_nat count) ->
  let '(_, total', count') := r in
  0 <= total' <= (95 # 100) * inject_Z (Z.of_nat count')
  /\ count' = (count + length nums)%nat.
Proof.
  revert all_text total count.
  induction nums as [|n nums IH]; intros all_text total count; simpl.
  - intros [= <-] Hb. split; [done|lia].
  - destruct (pdf_page doc language n) as [[t c]|] eqn:Hpage; simpl; [|done].
    intros Hrun Hb. apply pdf_page_confidence in Hpage.
    specialize (IH _ _ _ Hrun). destruct r as [[a' total'] count'].
    destruct IH as [Hb' ->]; [|split; [done|lia]].
    rewrite inject_nat_succ. lra.
Qed.

(** What the body of [_extract_from_pdf] returns when nothing raises. *)
Lemma pdf_body_confidence file_data language t c :
  pdf_body file_data language = Ok (t, c) -> 0 <= c <= 95 # 100.
Proof.
  intros Hbody. unfold pdf_body in Hbody.
  destruct (fitz_open file_data) as [doc|]; simpl in Hbody; [|done].
  destruct (pdf_pages doc language _ _) as [[[all_text total] count]|]
    eqn:Hpages; simpl in Hbody; [|done].
  destruct (doc_close doc); simpl in Hbody; [|done].
  injection Hbody as _ <-.
  apply pdf_pages_bounds in Hpages; [|split; discriminate].
  destruct Hpages as [[H0 H1] _].
  destruct (0 <? count)%nat eqn:Hcount.
  - apply Nat.ltb_lt in Hcount.
    assert (Hpos : 0 < inject_Z (Z.of_nat count))
      by (rewrite <- (Zlt_Qlt 0); lia).
    assert (Havg : 0 <= total / inject_Z (Z.of_nat count) <= 95 # 100).
    { split.
      - apply Qle_shift_div_l; [done|lra].
      - apply Qle_shift_div_r; [done|lra]. }
    set (avg := total / inject_Z (Z.of_nat count)) in *.
    destruct (pymin_cases 1 avg) as [[-> Hle]|[-> _]]; [|done].
    exfalso. destruct Havg as [_ Havg].
    apply (Qle_not_lt _ _ (Qle_trans _ _ _ Hle Havg)). reflexivity.
  - destruct (pymin_cases 1 0) as [[-> Hle]|[-> _]]; [|split; discriminate].
    exfalso. by apply Hle.
Qed.

(** What the body of [_extract_from_image] returns when nothing raises. *)
Lemma image_body_confidence file_data language t c :
  image_body file_data language = Ok (t, c) -> 0 <= c <= 9 # 10.
Proof.
  unfold image_body.
  destruct (image_open file_data) as [img|]; simpl; [|done].
  destruct (image_to_string img language) as [ocr_text|]; simpl; [|done].
  intros [= _ <-].
  pose proof (len_over_nonneg (strip ocr_text) 500 eq_refl) as Hlen.
  destruct (pymin_cases (9 # 10) (len_over (strip ocr_text) 500))
    as [[-> _]|[-> Hlt]]; split; try done; try discriminate.
  by apply Qlt_le_weak.
Qed.

(** X1. Whatever the bytes and whatever the libraries do, [_extract_from_pdf]
    returns a text and a confidence, and the confidence lies between 0 and
    1.  A PDF that opens and has no page gives the empty text with
    confidence 0: the average is not taken over zero pages; and so does
    every extraction in which a step raises. *)
Theorem pdf_confidence_bounds file_data language :
  exists t c,
    _extract_from_pdf file_data language = Ok (t, c)
    /\ 0 <= c <= 1
    /\ (forall doc, fitz_open file_data = Ok doc ->
                    doc_page_count doc = 0%nat -> t = [] /\ c = 0)
    /\ (is_ok (pdf_body file_data language) = false -> t = [] /\ c = 0).
Proof.
  rewrite extract_from_pdf_ok.
  destruct (pdf_body file_data language) as [[t c]|e] eqn:Hbody.
  - exists t, c. split; [done|]. split; [|split; [|done]].
    + apply pdf_body_confidence in Hbody. split; lra.
    + intros doc Hopen Hcount. unfold pdf_body in Hbody.
      rewrite Hopen in Hbody. cbn [exc_bind] in Hbody.
      rewrite Hcount in Hbody. simpl in Hbody.
      destruct (doc_close doc); simpl in Hbody; [|done].
      by injection Hbody as <- <-.
  - exists [], 0. split; [done|]. split; [split; discriminate|].
    by split.
Qed.

(** X2. [_extract_from_image] never raises; its confidence lies between 0
    and 0.9, and a failure of PIL or Tesseract gives the empty text with
    confidence 0. *)
Theorem image_confidence_bounds file_data language :
  exists t c,
    _extract_from_image file_data language = Ok (t, c)
    /\ 0 <= c <= 9 # 10
    /\ (is_ok (image_body file_data language) = false -> t = [] /\ c = 0).
Proof.
  rewrite extract_from_image_ok.
  destruct (image_body file_data language) as [[t c]|e] eqn:Hbody; simpl.
  - exists t, c. split; [done|]. split; [|done].
    by eapply image_body_confidence.
  - exists [], 0. repeat split; discriminate.
Qed.

(** X3. For every content, kind and language, the confidence of the result
    of [extract_text_from_document] lies between 0 and 1. *)
Theorem extract_confidence_in_unit_interval content document_type language s :
  exists r s',
    extract_text_from_document content document_type language s = (s', Ok r)
    /\ 0 <= confidence r <= 1.
Proof.
  rewrite extract_run. eexists _, _. split; [reflexivity|].
  unfold extract_dispatch.
  destruct (b64decode content) as [file_data|]; simpl; [|split; discriminate].
  destruct document_type; simpl;
    rewrite ?extract_from_pdf_ok, ?extract_from_image_ok.
  - destruct (pdf_body file_data language) as [[t c]|e] eqn:Hbody; simpl;
      [|split; discriminate].
    apply pdf_body_confidence in Hbody. split; lra.
  - destruct (image_body file_data language) as [[t c]|e] eqn:Hbody; simpl;
      [|split; discriminate].
    apply image_body_confidence in Hbody. split; lra.
  - unfold decode_utf8. destruct (utf8_decode file_data); simpl;
      split; discriminate.
  - unfold decode_utf8. destruct (utf8_decode file_data); simpl;
      split; discriminate.
  - unfold decode_utf8. destruct (utf8_decode file_data); simpl;
      split; discriminate.
Qed.

Lemma fold_left_constant (l : list Q) (q acc : Q) :
  Forall (fun x => x = q) l ->
  fold_left Qplus l acc == acc + q * inject_Z (Z.of_nat (length l)).
Proof.
  revert acc. induction l as [|x l IH]; intros acc Hl; simpl.
  - change (inject_Z (Z.of_nat 0)) with 0. ring.
  - inversion Hl as [|? ? -> Hl']; subst.
    rewrite IH by done. rewrite inject_nat_succ. ring.
Qed.

(** X4. A PDF that opens and closes, has at least one page, and whose pages
    all carry a non-blank text layer is extracted without Tesseract: the
    text is the layers joined by blank lines, and the confidence is
    positive. *)
Theorem pdf_text_layers_only file_data language doc (layer : nat -> pystr) :
  fitz_open file_data = Ok doc ->
  doc_close doc = Ok tt ->
  (0 < doc_page_count doc)%nat ->
  (forall n, (n < doc_page_count doc)%nat ->
             exists pg, load_page doc n = Ok pg
                        /\ get_text pg = Ok (layer n)
                        /\ strip (layer n) <> []) ->
  exists c,
    _extract_from_pdf file_data language
    = Ok (join (py (String "010" (String "010" "")))
               (map layer (seq 0 (doc_page_count doc))), c)
    /\ 0 < c <= 1.
Proof.
  intros Hopen Hclose Hcount Hpages.
  assert (Hpage : forall n, (n < doc_page_count doc)%nat ->
                            pdf_page doc language n = Ok (layer n, 95 # 100)).
  { intros n Hn. destruct (Hpages n Hn) as (pg & Hload & Htext & Hstrip).
    unfold pdf_page. rewrite Hload. simpl. rewrite Htext. simpl.
    by destruct (strip (layer n)). }
  rewrite extract_from_pdf_ok. unfold pdf_body. rewrite Hopen. simpl.
  rewrite pdf_pages_all_ok
    by (intros n Hn%elem_of_seq; rewrite Hpage by lia; done).
  simpl. rewrite Hclose. simpl. rewrite length_seq.
  apply Nat.ltb_lt in Hcount as Hltb. rewrite Hltb.
  assert (Htexts : map (page_text doc language) (seq 0 (doc_page_count doc))
                   = map layer (seq 0 (doc_page_count doc))).
  { apply map_ext_in. intros n Hn%in_seq. unfold page_text.
    rewrite Hpage by lia. done. }
  rewrite Htexts.
  set (total := fold_left Qplus _ 0).
  assert (Htotal : total == (95 # 100)
                            * inject_Z (Z.of_nat (doc_page_count doc))).
  { unfold total. rewrite (fold_left_constant _ (95 # 100)).
    - rewrite length_map, length_seq. lra.
    - apply Forall_forall. intros q Hq%list_elem_of_In%in_map_iff.
      destruct Hq as (n & <- & Hn%in_seq). unfold page_confidence.
      rewrite Hpage by lia. done. }
  assert (Hpos : 0 < inject_Z (Z.of_nat (doc_page_count doc)))
    by (rewrite <- (Zlt_Qlt 0); lia).
  set (cnt := inject_Z (Z.of_nat (doc_page_count doc))) in *.
  assert (Havg : total / cnt == 95 # 100).
  { rewrite Htotal. field. lra. }
  set (avg := total / cnt) in *.
  destruct (pymin_cases 1 avg) as [[-> Hle]|[-> _]].
  - exfalso. rewrite Havg in Hle. by apply Hle.
  - exists avg. split; [done|]. rewrite Havg. split; [reflexivity|].
    discriminate.
Qed.

End Service.

(** X4, run: two pages with text layers. *)
Lemma pdf_text_layers_only_witness :
  let pages :=
    [ {| Reference.layer := Ok (py "Contract terms");
         Reference.pixels := Ok [] |};
      {| Reference.layer := Ok (py "Signatures");
         Reference.pixels := Ok [] |} ] in
  let backend :=
    Reference.backend (fun _ => Ok pages) Reference.unreadable in
  exists c,
    @_extract_from_pdf backend [] (py "por")
    = Ok (py "Contract terms" ++ [10; 10]%N ++ py "Signatures", c)
    /\ 0 < c <= 1.
Proof.
  intros pages backend.
  apply (@pdf_text_layers_only backend [] (py "por") pages
           (fun n => match n with
                     | O => py "Contract terms"
                     | _ => py "Signatures"
                     end)).
  - reflexivity.
  - reflexivity.
  - simpl. lia.
  - intros [|[|n]] Hn; simpl in Hn; try lia; eexists;
      (split; [reflexivity|split; [reflexivity|by vm_compute]]).
Defined.

End OCRProps.

(* ===================================================================== *)
(** * Further properties of decoding *)
(* ===================================================================== *)

Module DecodeProps.
Import Py.

Lemma option_map_cons_Some {A} (x : A) (o : option (list A)) t :
  option_map (cons x) o = Some t -> exists t', o = Some t' /\ t = x :: t'.
Proof. destruct o; simpl; [|done]. intros [= <-]. eauto. Qed.

(** On well-formed UTF-8 the lenient decoder drops nothing: it returns what
    the strict decoder returns. *)
Lemma utf8_decode_ignore_valid bs t :
  utf8_decode bs = Some t -> utf8_decode_ignore bs = t.
Proof.
  remember (length bs) as n eqn:Hn. revert bs t Hn.
  induction n as [n IH] using lt_wf_ind; intros bs t Hn.
  destruct bs as [|b0 r0]; [by intros [= <-]|].
  cbn [utf8_decode utf8_decode_ignore].
  destruct (Byte.to_N b0 <? 128)%N.
  { intros (t' & H & ->)%option_map_cons_Some. f_equal.
    eapply IH; [|reflexivity|done]. subst n. simpl. lia. }
  destruct (in_range 194 223 (Byte.to_N b0)).
  { destruct r0 as [|b1 r1]; [done|]. destruct (is_cont b1); [|done].
    intros (t' & H & ->)%option_map_cons_Some. f_equal.
    eapply IH; [|reflexivity|done]. subst n. simpl. lia. }
  destruct (in_range 224 239 (Byte.to_N b0)).
  { destruct r0 as [|b1 [|b2 r2]]; [done|done|].
    destruct (is_second (Byte.to_N b0) b1); [|done].
    destruct (is_cont b2); [|done]. cbn [andb].
    intros (t' & H & ->)%option_map_cons_Some. f_equal.
    eapply IH; [|reflexivity|done]. subst n. simpl. lia. }
  destruct (in_range 240 244 (Byte.to_N b0)); [|done].
  destruct r0 as [|b1 [|b2 [|b3 r3]]]; [done|done|done|].
  destruct (is_second (Byte.to_N b0) b1); [|done].
  destruct (is_cont b2); [|done]. destruct (is_cont b3); [|done].
  cbn [andb].
  intros (t' & H & ->)%option_map_cons_Some. f_equal.
  eapply IH; [|reflexivity|done]. subst n. simpl. lia.
Qed.

(** The lenient decoder never yields more characters than bytes. *)
Lemma utf8_decode_ignore_length bs :
  (length (utf8_decode_ignore bs) <= length bs)%nat.
Proof.
  remember (length bs) as n eqn:Hn. revert bs Hn.
  induction n as [n IH] using lt_wf_ind; intros bs Hn.
  assert (Hrec : forall r, (length r < n)%nat ->
                           (length (utf8_decode_ignore r) <= length r)%nat)
    by (intros r Hr; by eapply IH).
  destruct bs as [|b0 r0]; [simpl; lia|].
  cbn [utf8_decode_ignore]. subst n. simpl in Hrec.
  repeat first
    [ match goal with
      | |- context [if ?c then _ else _] => destruct c
      | |- context [match ?r with [] => _ | _ :: _ => _ end] =>
        is_var r; destruct r
      end
    | progress cbn [length] ];
    try lia;
    match goal with
    | |- (S (length (utf8_decode_ignore ?r)) <= _)%nat =>
      pose proof (Hrec r ltac:(simpl; lia)); simpl in *; lia
    | |- (length (utf8_decode_ignore ?r) <= _)%nat =>
      pose proof (Hrec r ltac:(simpl; lia)); simpl in *; lia
    end.
Qed.

End DecodeProps.

(* ===================================================================== *)
(** * Further properties of the text analyzer *)
(* ===================================================================== *)

Module NLPProps.
Import Py Eff Sorting SortingFacts NLP NLPFacts PyFacts.

(** ** [str.strip()] applied twice *)

Definition no_leading_space (s : pystr) : Prop :=
  match s with
  | c :: _ => is_space c = false
  | [] => True
  end.

Lemma lstrip_no_leading_space s : no_leading_space (lstrip s).
Proof.
  induction s as [|c s IH]; simpl; [done|].
  by destruct (is_space c) eqn:Hc.
Qed.

Lemma lstrip_fixed s : no_leading_space s -> lstrip s = s.
Proof. destruct s as [|c s]; simpl; [done|]. by intros ->. Qed.

Lemma lstrip_suffix s : exists sp, s = sp ++ lstrip s.
Proof.
  induction s as [|c s [sp IH]]; simpl; [by exists []|].
  destruct (is_space c); [|by exists []].
  exists (c :: sp). simpl. by f_equal.
Qed.

Lemma rstrip_prefix s : exists sp, s = rstrip s ++ sp.
Proof.
  unfold rstrip. destruct (lstrip_suffix (rev s)) as [sp Hsp].
  exists (rev sp). rewrite <- rev_app_distr, <- Hsp. by rewrite rev_involutive.
Qed.

Lemma rstrip_no_leading_space s :
  no_leading_space s -> no_leading_space (rstrip s).
Proof.
  intros Hs. destruct (rstrip_prefix s) as [sp Hsp].
  destruct (rstrip s) as [|c r]; [done|]. rewrite Hsp in Hs. exact Hs.
Qed.

Lemma strip_idemp s : strip (strip s) = strip s.
Proof.
  unfold strip.
  assert (H1 : no_leading_space (rstrip (lstrip s)))
    by apply rstrip_no_leading_space, lstrip_no_leading_space.
  rewrite (lstrip_fixed _ H1). unfold rstrip at 1 2.
  rewrite rev_involutive.
  rewrite (lstrip_fixed (lstrip (rev (lstrip s))))
    by apply lstrip_no_leading_space.
  reflexivity.
Qed.

(** ** Summaries *)

Lemma truncate_length n s : (length (truncate n s) <= n + 3)%nat.
Proof.
  unfold truncate, prefix. destruct (n <? length s)%nat eqn:H.
  - rewrite length_app, length_take. change (length (py "...")) with 3%nat.
    lia.
  - apply Nat.ltb_ge in H. lia.
Qed.

Lemma truncate_short n s : (length s <= n)%nat -> truncate n s = s.
Proof.
  intros H. unfold truncate. by rewrite (proj2 (Nat.ltb_ge _ _) H).
Qed.

(** X5. [summarize_text] never raises, its summary has at most 503
    characters (500 and the ellipsis), and a text of at most 500 characters
    and at most three sentences is its own summary. *)
Theorem summary_is_bounded text :
  exists summary,
    summarize_text text = Ok summary
    /\ (length summary <= 503)%nat
    /\ ((length (_split_sentences text) <= 3)%nat ->
        (length text <= 500)%nat -> summary = text).
Proof.
  unfold summarize_text, exc_try.
  destruct (length (_split_sentences text) <=? 3)%nat eqn:Hn.
  - eexists. split; [reflexivity|]. split; [apply truncate_length|].
    intros _ Hlen. by apply truncate_short.
  - eexists. split; [reflexivity|]. split; [apply truncate_length|].
    apply Nat.leb_gt in Hn. lia.
Qed.

Section Service.
Context {U : Unicode} {V : Vectorizer}.

(** ** Similarity *)

Lemma calculate_similarity_ok query texts :
  exists scores, calculate_similarity query texts = Ok scores.
Proof.
  unfold calculate_similarity, exc_try.
  destruct (tfidf_cosine query texts); eauto.
Qed.

Lemma overlap_ratio_sym query text :
  overlap_ratio query text = overlap_ratio text query.
Proof.
  unfold overlap_ratio, pymax3.
  rewrite (comm_L (∩) (word_set query) (word_set text)).
  by rewrite (Nat.max_comm (size (word_set query))).
Qed.

(** X6. The word-overlap fallback is symmetric in its two texts; it is 0
    when they share no word, and 1 when they have the same words and at
    least one. *)
Theorem fallback_similarity_symmetric query text :
  fallback_similarity query [text] = fallback_similarity text [query]
  /\ (word_set query ## word_set text ->
      Forall (fun s => (s == 0)%Q) (fallback_similarity query [text]))
  /\ (word_set query = word_set text -> word_set query <> ∅ ->
      Forall (fun s => (s == 1)%Q) (fallback_similarity query [text])).
Proof.
  rewrite !fallback_similarity_eq. simpl. split; [|split].
  - by rewrite overlap_ratio_sym.
  - intros Hdisj%disjoint_intersection_L. repeat constructor.
    rewrite pymin_clamp.
    assert (E : overlap_ratio query text = 0%Q).
    { unfold overlap_ratio, Float64.div_int. rewrite Hdisj, size_empty.
      apply (Float64Facts.rnd_proper _ 0). unfold Qdiv.
      change (inject_Z (Z.of_nat 0)) with 0%Q. ring. }
    by rewrite E.
  - intros Heq Hne. repeat constructor.
    rewrite pymin_clamp.
    assert (E : overlap_ratio query text = 1%Q).
    { unfold overlap_ratio, Float64.div_int, pymax3.
      rewrite <- Heq. rewrite (idemp_L (∩) (word_set query)), Nat.max_id.
      assert (Hpos : (0 < size (word_set query))%nat).
      { apply Nat.neq_0_lt_0. intros H0%size_empty_iff.
        apply Hne. by apply leibniz_equiv. }
      rewrite Nat.max_l by lia.
      set (n := inject_Z (Z.of_nat (size (word_set query)))).
      assert (Hn : (0 < n)%Q) by (unfold n; rewrite <- (Zlt_Qlt 0); lia).
      assert (H1 : (n / n == 1)%Q) by (field; lra).
      by rewrite (Float64Facts.rnd_proper _ 1 H1). }
    by rewrite E.
Qed.

(** ** Keywords *)

Lemma elem_of_sort_by_desc {A K} (ltb : K -> K -> bool) (key : A -> K) x l :
  x ∈ sort_by_desc ltb key l <-> x ∈ l.
Proof. by rewrite sort_by_desc_perm. Qed.

(** X7. [extract_keywords] never raises; it returns at most [max_keywords]
    keywords (none when that is zero or negative), no keyword twice, and
    every keyword is a token of the lowercased text of at least four
    letters that is no stop word. *)
Theorem keywords_are_distinct_long_tokens text max_keywords :
  exists keywords,
    extract_keywords text max_keywords = Ok keywords
    /\ (length keywords <= Z.to_nat max_keywords)%nat
    /\ NoDup keywords
    /\ Forall (fun w => w ∈ findall_words 3 (lower text)
                        /\ (4 <= length w)%nat
                        /\ w ∉ stop_words) keywords.
Proof.
  unfold extract_keywords, exc_try. eexists. split; [reflexivity|].
  rewrite most_common_Counter.
  set (tokens := filter _ (findall_words 3 (lower text))).
  set (ranking := sort_by_desc Nat.ltb _ (distinct tokens)).
  split; [|split].
  - rewrite length_take. lia.
  - apply (sublist_NoDup _ ranking); [|apply sublist_take].
    unfold ranking. rewrite sort_by_desc_perm. apply NoDup_distinct.
  - apply Forall_forall. intros w Hw.
    apply (subseteq_take (Z.to_nat max_keywords)) in Hw.
    unfold ranking in Hw.
    rewrite elem_of_sort_by_desc, elem_of_distinct in Hw.
    unfold tokens in Hw. apply list_elem_of_filter in Hw.
    destruct Hw as [[Hstop Hlen] Hin]. repeat split; [done|lia|done].
Qed.

(** ** Excerpts *)

Lemma elem_of_zip_scores xs qs p :
  p ∈ zip_scores xs qs -> fst p ∈ xs.
Proof.
  revert qs. induction xs as [|x xs IH]; intros [|q qs] Hp; simpl in Hp;
    try by apply elem_of_nil in Hp.
  apply elem_of_cons in Hp as [->|Hp]; [left|right; by eapply IH].
Qed.

(** X8. [find_relevant_excerpts] never raises; it returns at most
    [max_excerpts] excerpts, each of them a non-blank piece of the text
    between two full stops, stripped, with a full stop appended; a text
    without such a piece has no excerpt. *)
Theorem excerpts_are_sentences query text max_excerpts :
  exists excerpts,
    find_relevant_excerpts query text max_excerpts = Ok excerpts
    /\ (length excerpts <= max_excerpts)%nat
    /\ Forall (fun e => exists piece,
                          piece ∈ split_on 46 text
                          /\ strip piece <> []
                          /\ e = strip piece ++ py ".") excerpts.
Proof.
  unfold find_relevant_excerpts.
  set (sentences := map strip (filter _ (split_on 46 text))).
  destruct (nonempty sentences) eqn:Hne;
    [|exists []; simpl; repeat split; [lia|constructor]].
  destruct (calculate_similarity_ok query sentences) as [sims ->].
  simpl. eexists. split; [reflexivity|]. split.
  - rewrite length_map. etransitivity; [apply length_filter|].
    rewrite length_take. lia.
  - apply Forall_forall. intros e He%list_elem_of_In%in_map_iff.
    destruct He as (p & <- & Hp%list_elem_of_In).
    apply list_elem_of_filter in Hp as [_ Hp].
    apply (subseteq_take max_excerpts) in Hp.
    rewrite elem_of_sort_by_desc in Hp.
    apply elem_of_zip_scores in Hp. unfold sentences in Hp.
    apply list_elem_of_In, in_map_iff in Hp.
    destruct Hp as (piece & Hpiece & Hin%list_elem_of_In).
    apply list_elem_of_filter in Hin as [Hblank Hin].
    exists piece. split; [done|]. split.
    + by destruct (strip piece).
    + by rewrite <- Hpiece, strip_idemp.
Qed.
End Service.

End NLPProps.

(* ===================================================================== *)
(** * Further properties of the batch orchestrator *)
(* ===================================================================== *)

Module ApiProps.
Import Py Eff Models Sorting SortingFacts Api ApiFacts.
Local Open Scope Q_scope.


Section Batch.
Context {W : World} {B : OCR.Backend} {U : NLP.Unicode}
        {nlp_service : NLP.Service} {audit_log : AuditSink}.


(** X10. In a ranked run no result with a positive score comes after a
    FAILED result: the failed documents are at the end of the list, among
    the documents of score 0 (or below). *)
Theorem failed_results_rank_last rid uid query language files s s' resp
        l1 r l2 :
  ~ blank query ->
  process_batch rid uid query language files s = (s', Ok resp) ->
  results resp = l1 ++ r :: l2 ->
  status r = FAILED ->
  Forall (fun x => forall score,
                     similarity_score x = Some score -> score <= 0) l2.
Proof.
  intros Hq%has_query_of_true_iff Hrun Hsplit Hfailed.
  destruct (process_batch_run rid uid query language files s)
    as (s1 & resp1 & Hrun1 & _ & _ & _ & _ & _ & _ & Hres & Hout).
  rewrite Hrun in Hrun1. injection Hrun1 as <- <-.
  rewrite Hq in Hres, Hout. simpl in Hres.
  assert (Hsorted : StronglySorted (desc Qltb score_key) (results resp)).
  { rewrite Hres. apply sort_by_desc_sorted;
      [apply Qltb_irrefl|apply Qltb_trans|apply Qltb_negtrans]. }
  assert (Hkey : score_key r = 0).
  { assert (Hin : r ∈ outcomes query language files s).
    { rewrite <- (sort_by_desc_perm Qltb score_key), <- Hres, Hsplit.
      apply elem_of_app. right. left. }
    apply list_elem_of_lookup in Hin as [i Hi].
    destruct (Forall2_lookup_r _ _ _ _ _ Hout Hi) as (file & _ & [[Hc|Hf] _]).
    - destruct Hc as (_ & Hc & _). congruence.
    - apply score_key_missing, Hf. }
  rewrite Hsplit in Hsorted.
  apply StronglySorted_app_1_r, StronglySorted_inv in Hsorted as [_ Hafter].
  eapply Forall_impl; [exact Hafter|]. intros x Hx score Hscore.
  unfold desc in Hx. apply Qltb_ge in Hx. rewrite Hkey in Hx.
  unfold score_key in Hx. rewrite Hscore in Hx.
  destruct (Qeq_bool score 0) eqn:H0; [|done].
  apply Qeq_bool_iff in H0. by rewrite H0.
Qed.

(** X11. The response of a batch run does not depend on the audit sink:
    whatever [write_log] does, returning or raising, the caller gets the
    same response. *)
Theorem response_independent_of_audit (other_log : AuditSink)
        rid uid query language files s :
  snd (@process_batch W B U nlp_service audit_log
         rid uid query language files s)
  = snd (@process_batch W B U nlp_service other_log
           rid uid query language files s).
Proof.
  rewrite !process_batch_body.
  unfold batch_body, try_except, bind, time_time, utcnow, ret.
  cbn [ticks drawn].
  destruct (process_files _ _ _ files _ _) as [s1 [[[rs su] fa]|e]];
    [|reflexivity].
  cbn [ticks drawn].
  repeat match goal with
         | |- context [@write_log ?A ?rec ?st] =>
           destruct (@write_log A rec st) as [? [?|?]]
         end; reflexivity.
Qed.

(** ** Identifiers and clock readings along a run *)

Lemma extract_by_type_state file content tess_lang s :
  drawn (fst (extract_by_type file content tess_lang s)) = drawn s
  /\ (ticks s <= ticks (fst (extract_by_type file content tess_lang s)))%nat.
Proof.
  unfold extract_by_type, bind, ret, raise.
  destruct (bool_decide _).
  - rewrite OCRFacts.extract_run. simpl. split; [done|lia].
  - destruct (up_content_type file) as [ct|]; [|simpl; split; [done|lia]].
    destruct (startswith _ ct); [|simpl; split; [done|lia]].
    rewrite OCRFacts.extract_run. simpl. split; [done|lia].
Qed.

Lemma document_body_trace has_query query tess_lang file doc_id
      doc_start_time s :
  match document_body has_query query tess_lang file doc_id
                      doc_start_time s with
  | (s1, Ok r) =>
    drawn s1 = drawn s
    /\ (ticks s < ticks s1)%nat
    /\ document_id r = doc_id
    /\ doc_processing_time r
       = time_reading (Nat.pred (ticks s1)) - doc_start_time
  | (s1, Raise _) => drawn s1 = drawn s /\ (ticks s <= ticks s1)%nat
  end.
Proof.
  unfold document_body, bind, lift, ret, time_time.
  destruct (up_read file) as [content|e0]; [|split; [done|lia]].
  pose proof (extract_by_type_state file content tess_lang s) as [Hd Ht].
  destruct (extract_by_type file content tess_lang s) as [s1 [t|e1]];
    simpl in Hd, Ht; [|done].
  destruct (NLP.svc_summarize_text t) as [summ|e2]; [|done].
  destruct has_query; simpl.
  - destruct (NLP.svc_calculate_similarity query [t]) as [sims|e3]; [|done].
    destruct (NLP.svc_find_relevant_excerpts query t) as [ex|e4]; [|done].
    simpl. repeat split; [done|lia].
  - repeat split; [done|lia].
Qed.

(** One turn of the loop: one identifier drawn, and a processing time
    measured between two readings of the clock, the first of them the
    reading the turn starts with. *)
Lemma process_file_trace has_query query tess_lang file results
      successful failed_n s :
  exists s' r successful' failed_n' b,
    process_file has_query query tess_lang file
                 (results, successful, failed_n) s
    = (s', Ok (results ++ [r], successful', failed_n'))
    /\ drawn s' = S (drawn s)
    /\ (ticks s < b < ticks s')%nat
    /\ document_id r = uuid_value (drawn s)
    /\ doc_processing_time r = time_reading b - time_reading (ticks s).
Proof.
  unfold process_file, bind, try_except, time_time, uuid4, ret.
  cbn [ticks drawn].
  match goal with
  | |- context [document_body ?a ?b ?c ?d ?i ?t ?g] =>
    pose proof (document_body_trace a b c d i t g) as Hbody;
    destruct (document_body a b c d i t g) as [s1 [r|e]]
  end; cbn [ticks drawn] in Hbody.
  - destruct Hbody as (Hd & Ht & Hid & Htime).
    exists s1, r, (S successful), failed_n, (Nat.pred (ticks s1)).
    repeat split; [done|lia|lia|done|done].
  - destruct Hbody as [Hd Ht].
    unfold document_failed, bind, time_time, ret. cbn [ticks drawn].
    eexists _, _, _, _, (ticks s1). split; [reflexivity|].
    cbn [ticks drawn document_id doc_processing_time].
    repeat split; [done|lia|lia].
Qed.

Lemma process_files_trace has_query query tess_lang files results
      successful failed_n s :
  exists s' rs successful' failed_n',
    process_files has_query query tess_lang files
                  (results, successful, failed_n) s
    = (s', Ok (results ++ rs, successful', failed_n'))
    /\ (ticks s <= ticks s')%nat
    /\ map document_id rs
       = map uuid_value (seq (drawn s) (length files))
    /\ Forall (fun r => exists a b,
                          (ticks s <= a < b)%nat /\ (b < ticks s')%nat
                          /\ doc_processing_time r
                             = time_reading b - time_reading a) rs.
Proof.
  revert results successful failed_n s.
  induction files as [|file files IH];
    intros results successful failed_n s; cbn [process_files].
  - exists s, [], successful, failed_n. unfold ret. rewrite app_nil_r.
    repeat split; [lia|constructor].
  - unfold bind.
    destruct (process_file_trace has_query query tess_lang file results
                successful failed_n s)
      as (s1 & r & su1 & fa1 & b & -> & Hd & Hb & Hid & Htime).
    destruct (IH (results ++ [r]) su1 fa1 s1)
      as (s2 & rs & su2 & fa2 & -> & Ht & Hids & Htimes).
    exists s2, (r :: rs), su2, fa2. rewrite <- app_assoc.
    split; [done|]. split; [lia|]. split.
    + simpl. rewrite Hid, Hids, Hd. done.
    + constructor.
      * exists (ticks s), b. repeat split; [lia|lia|lia|done].
      * eapply Forall_impl; [exact Htimes|].
        intros x (a & b' & Ha & Hb' & Hx). exists a, b'.
        repeat split; [lia|lia|lia|done].
Qed.

Lemma batch_trace rid uid query language files s :
  let pre := outcomes query language files s in
  exists s' resp e,
    process_batch rid uid query language files s = (s', Ok resp)
    /\ (ticks s < e)%nat
    /\ total_processing_time resp = time_reading e - time_reading (ticks s)
    /\ map document_id pre = map uuid_value (seq (drawn s) (length files))
    /\ Forall (fun r => exists a b,
                          (ticks s < a < b)%nat /\ (b < e)%nat
                          /\ doc_processing_time r
                             = time_reading b - time_reading a) pre.
Proof.
  rewrite process_batch_body.
  unfold outcomes, batch_body, try_except, bind, time_time, utcnow, ret.
  cbn [ticks drawn]. fold (tess_lang_of language).
  destruct (process_files_trace (has_query_of query) (default [] query)
              (tess_lang_of language) files [] 0%nat 0%nat
              {| ticks := S (ticks s); drawn := drawn s |})
    as (s1 & rs & su & fa & -> & Ht & Hids & Htimes).
  cbn [app ticks drawn] in *.
  match goal with
  | |- context [write_log ?rec ?st] =>
    destruct (write_log rec st) as [s2 [log_id|err]]
  end; eexists _, _, (ticks s1); (split; [reflexivity|]);
    cbn [total_processing_time]; (split; [lia|]); (split; [done|]);
    (split; [done|]);
    (eapply Forall_impl; [exact Htimes|]);
    intros x (a & b & Ha & Hb & Hx); exists a, b;
    (repeat split; [lia|lia|lia|done]).
Qed.

(** X12. The i-th outcome of a run carries the i-th identifier drawn during
    the run, so that, identifiers being pairwise different, no two results
    of a response share a [document_id]. *)
Theorem document_ids_are_fresh rid uid query language files s :
  exists s' resp,
    process_batch rid uid query language files s = (s', Ok resp)
    /\ map document_id (outcomes query language files s)
       = map uuid_value (seq (drawn s) (length files))
    /\ ((forall i j, uuid_value i = uuid_value j -> i = j) ->
        NoDup (map document_id (results resp))).
Proof.
  destruct (batch_trace rid uid query language files s)
    as (s' & resp & e & Hrun & _ & _ & Hids & _).
  exists s', resp. split; [done|]. split; [done|].
  intros Hinj.
  destruct (process_batch_run rid uid query language files s)
    as (s1 & resp1 & Hrun1 & _ & _ & _ & _ & _ & _ & Hres & _).
  rewrite Hrun in Hrun1. injection Hrun1 as <- <-.
  rewrite Hres, order_results_perm, Hids.
  apply NoDup_fmap_2_strong; [|apply NoDup_seq].
  intros i j _ _. apply Hinj.
Qed.

(** X13. With a clock that never goes back, every per-document processing
    time of a response is non-negative and at most the total processing
    time of the run. *)
Theorem processing_times_are_bounded rid uid query language files s :
  (forall i j, (i <= j)%nat -> time_reading i <= time_reading j) ->
  exists s' resp,
    process_batch rid uid query language files s = (s', Ok resp)
    /\ 0 <= total_processing_time resp
    /\ Forall (fun r => 0 <= doc_processing_time r
                        /\ doc_processing_time r
                           <= total_processing_time resp)
              (results resp).
Proof.
  intros Hmono.
  destruct (batch_trace rid uid query language files s)
    as (s' & resp & e & Hrun & He & Htotal & _ & Htimes).
  exists s', resp. split; [done|].
  destruct (process_batch_run rid uid query language files s)
    as (s1 & resp1 & Hrun1 & _ & _ & _ & _ & _ & _ & Hres & _).
  rewrite Hrun in Hrun1. injection Hrun1 as <- <-.
  split.
  - rewrite Htotal. pose proof (Hmono (ticks s) e ltac:(lia)). lra.
  - rewrite Hres, order_results_perm.
    eapply Forall_impl; [exact Htimes|].
    intros r (a & b & Ha & Hb & ->). rewrite Htotal.
    pose proof (Hmono a b ltac:(lia)).
    pose proof (Hmono (ticks s) a ltac:(lia)).
    pose proof (Hmono b e ltac:(lia)). split; lra.
Qed.

(** ** The three extraction paths of a document *)

Lemma str_or_nil t : str_or t [] = t.
Proof. by destruct t. Qed.

(** X14. For an upload that is neither a PDF nor an image, whose bytes are
    well-formed UTF-8, the lenient decoding of [process_batch] keeps the
    whole text: it is the text the OCR service returns for the same bytes
    with kind TEXT, there with confidence 1.0. *)
Theorem text_paths_agree file content_type content encoded t tess_lang s :
  up_content_type file = Some content_type ->
  content_type <> py "application/pdf" ->
  startswith (py "image/") content_type = false ->
  utf8_decode content = Some t ->
  OCR.b64decode encoded = Ok content ->
  extract_by_type file content tess_lang s = (s, Ok t)
  /\ exists r s',
       OCR.extract_text_from_document encoded TEXT tess_lang s = (s', Ok r)
       /\ text r = t /\ confidence r = 1.
Proof.
  intros Hct Hpdf Himg Hvalid Hdec. split.
  - unfold extract_by_type. rewrite Hct.
    rewrite bool_decide_eq_false_2 by congruence. rewrite Himg.
    unfold ret. by rewrite (DecodeProps.utf8_decode_ignore_valid _ _ Hvalid).
  - rewrite OCRFacts.extract_run. eexists _, _. split; [reflexivity|].
    unfold OCR.extract_dispatch, OCR.decode_utf8. rewrite Hdec. simpl.
    by rewrite Hvalid.
Qed.

Definition text_of (r : exc (pystr * Q)) : pystr :=
  match r with
  | Ok (t, _) => t
  | Raise _ => []
  end.

(** X15. When base64 decoding undoes base64 encoding on the bytes of an
    upload, the text [process_batch] keeps for a PDF is the text
    [_extract_from_pdf] returns for those bytes, and for an image the text
    [_extract_from_image] returns. *)
Theorem ocr_paths_are_transparent file content_type content tess_lang s :
  up_content_type file = Some content_type ->
  OCR.b64decode (OCR.b64encode content) = Ok content ->
  (content_type = py "application/pdf" ->
   extract_by_type file content tess_lang s
   = ({| ticks := S (S (ticks s)); drawn := drawn s |},
      Ok (text_of (OCR._extract_from_pdf content tess_lang))))
  /\ (content_type <> py "application/pdf" ->
      startswith (py "image/") content_type = true ->
      extract_by_type file content tess_lang s
      = ({| ticks := S (S (ticks s)); drawn := drawn s |},
         Ok (text_of (OCR._extract_from_image content tess_lang)))).
Proof.
  intros Hct Hround. split.
  - intros ->. unfold extract_by_type, bind, ret. rewrite Hct.
    rewrite bool_decide_eq_true_2 by done.
    rewrite OCRFacts.extract_run. unfold OCR.extract_dispatch.
    rewrite Hround. simpl. rewrite OCRFacts.extract_from_pdf_ok.
    destruct (OCR.pdf_body content tess_lang) as [[t c]|]; simpl;
      by rewrite ?str_or_nil.
  - intros Hpdf Himg. unfold extract_by_type, bind, ret. rewrite Hct.
    rewrite bool_decide_eq_false_2 by congruence. rewrite Himg.
    rewrite OCRFacts.extract_run. unfold OCR.extract_dispatch.
    rewrite Hround. simpl. rewrite OCRFacts.extract_from_image_ok.
    destruct (OCR.image_body content tess_lang) as [[t c]|]; simpl;
      by rewrite ?str_or_nil.
Qed.

Lemma extract_by_type_raises file content tess_lang s :
  is_ok (snd (extract_by_type file content tess_lang s)) = false
  <-> up_content_type file = None.
Proof.
  unfold extract_by_type, bind, ret, raise.
  destruct (up_content_type file) as [ct|] eqn:Hct.
  - destruct (bool_decide _); [rewrite OCRFacts.extract_run; simpl; done|].
    destruct (startswith _ ct); [rewrite OCRFacts.extract_run|]; simpl; done.
  - rewrite bool_decide_eq_false_2 by done. simpl. done.
Qed.

End Batch.

(** ** Runs with the analyzer of [nlp.py] *)

Section Mock.
Context {W : World} {B : OCR.Backend} {U : NLP.Unicode} {V : NLP.Vectorizer}
        {audit_log : AuditSink}.

Local Existing Instance NLP.nlp_service.

Lemma summarize_text_ok t : exists x, NLP.summarize_text t = Ok x.
Proof.
  unfold NLP.summarize_text, exc_try.
  destruct (length (NLP._split_sentences t) <=? 3)%nat; eauto.
Qed.

Lemma similarity_never_raises query texts :
  exists x, NLP.calculate_similarity query texts = Ok x.
Proof.
  unfold NLP.calculate_similarity, exc_try.
  destruct (NLP.tfidf_cosine query texts); eauto.
Qed.

Lemma find_relevant_excerpts_ok query t n :
  exists x, NLP.find_relevant_excerpts query t n = Ok x.
Proof.
  unfold NLP.find_relevant_excerpts.
  match goal with |- context [if ?c then _ else _] => destruct c end;
    [|simpl; eauto].
  destruct (similarity_never_raises query
              (map strip (filter (fun s => nonempty (strip s) = true)
                                 (split_on 46 t)))) as [sims ->].
  simpl. eauto.
Qed.

Lemma mock_document_body has_query query tess_lang file doc_id t0 s :
  match up_read file with
  | Raise e =>
    snd (document_body has_query query tess_lang file doc_id t0 s) = Raise e
  | Ok content =>
    match snd (extract_by_type file content tess_lang s) with
    | Raise e =>
      snd (document_body has_query query tess_lang file doc_id t0 s)
      = Raise e
    | Ok t =>
      exists r,
        snd (document_body has_query query tess_lang file doc_id t0 s) = Ok r
        /\ status r = COMPLETED
        /\ extracted_text r = Some t
        /\ exists summ,
             summary r = Some summ /\ NLP.summarize_text t = Ok summ
    end
  end.
Proof.
  unfold document_body, bind, lift, ret, time_time.
  destruct (up_read file) as [content|e0]; [|done].
  destruct (extract_by_type file content tess_lang s) as [s1 [t|e1]];
    simpl; [|done].
  destruct (summarize_text_ok t) as [summ Hsumm].
  change (NLP.svc_summarize_text t) with (NLP.summarize_text t).
  rewrite Hsumm. destruct has_query; simpl.
  - change (NLP.svc_calculate_similarity query [t])
      with (NLP.calculate_similarity query [t]).
    destruct (similarity_never_raises query [t]) as [sims ->].
    change (NLP.svc_find_relevant_excerpts query t)
      with (NLP.find_relevant_excerpts query t 3).
    destruct (find_relevant_excerpts_ok query t 3) as [ex ->].
    simpl. eexists. split; [reflexivity|]. simpl. repeat split. eauto.
  - eexists. split; [reflexivity|]. simpl. repeat split. eauto.
Qed.

(** The outcome of one file, with what was extracted from it. *)
Definition mock_step (tess_lang : pystr) (file : UploadFile)
           (r : DocumentResult) : Prop :=
  match up_read file with
  | Raise e => status r = FAILED /\ error_message r = Some e
  | Ok content =>
    match up_content_type file with
    | None => status r = FAILED
    | Some _ =>
      status r = COMPLETED
      /\ exists s t summ,
           snd (extract_by_type file content tess_lang s) = Ok t
           /\ extracted_text r = Some t
           /\ summary r = Some summ
           /\ NLP.summarize_text t = Ok summ
    end
  end.

Lemma mock_process_file has_query query tess_lang file results
      successful failed_n s :
  exists s' r successful' failed_n',
    process_file has_query query tess_lang file
                 (results, successful, failed_n) s
    = (s', Ok (results ++ [r], successful', failed_n'))
    /\ mock_step tess_lang file r.
Proof.
  unfold process_file, bind, try_except, time_time, uuid4, ret.
  cbn [ticks drawn]. unfold mock_step.
  match goal with
  | |- context [document_body ?a ?b ?c ?d ?i ?t ?g] =>
    pose proof (mock_document_body a b c d i t g) as Hbody;
    pose proof (extract_by_type_raises d) as Hraise;
    destruct (document_body a b c d i t g) as [s1 [r|e]] eqn:Hrun
  end; simpl in Hbody.
  - eexists _, r, _, _. split; [reflexivity|].
    destruct (up_read file) as [content|e0]; [|done].
    match type of Hbody with
    | context [extract_by_type ?f ?c ?l ?st] =>
      specialize (Hraise c l st);
      destruct (extract_by_type f c l st) as [s2 [t|e1]] eqn:Hext
    end; simpl in Hbody, Hraise; [|done].
    destruct Hbody as (r' & [= <-] & Hst & Htext & summ & Hsum & Hsummary).
    destruct (up_content_type file) as [ct|].
    + split; [done|]. eexists _, t, summ. rewrite Hext. simpl.
      by repeat split.
    + exfalso. by destruct Hraise as [_ Hraise]; specialize (Hraise eq_refl).
  - unfold document_failed, bind, time_time, ret. cbn [ticks drawn].
    eexists _, _, _, _. split; [reflexivity|]. simpl.
    destruct (up_read file) as [content|e0]; [|by injection Hbody as ->].
    match type of Hbody with
    | context [extract_by_type ?f ?c ?l ?st] =>
      specialize (Hraise c l st);
      destruct (extract_by_type f c l st) as [s2 [t|e1]] eqn:Hext
    end; simpl in Hbody, Hraise.
    + by destruct Hbody as (r' & [=] & _).
    + destruct Hraise as [Hraise _]. by rewrite (Hraise eq_refl).
Qed.

(** X16. With the analyzer of [nlp.py], a document of a batch is FAILED
    exactly when reading the upload raises or the upload declares no
    content type, and COMPLETED otherwise. *)
Theorem failure_causes query language files s :
  Forall2 (fun file r =>
             (status r = FAILED
              <-> is_ok (up_read file) = false \/ up_content_type file = None)
             /\ (status r = COMPLETED
                 <-> is_ok (up_read file) = true
                     /\ up_content_type file <> None))
          files (outcomes query language files s).
Proof.
  eapply Forall2_impl;
    [apply (outcomes_Forall2 (mock_step (tess_lang_of language)));
     intros; apply mock_process_file|].
  intros file r. unfold mock_step.
  destruct (up_read file) as [content|e0]; simpl.
  - destruct (up_content_type file) as [ct|].
    + intros [-> _]. split; split; try done; intuition congruence.
    + intros ->. split; split; try done; intuition congruence.
  - intros [-> _]. split; split; try done; intuition congruence.
Qed.

Lemma extract_by_type_failed_ocr file content content_type kind tess_lang s :
  up_content_type file = Some content_type ->
  (content_type = py "application/pdf" /\ kind = PDF
   \/ content_type <> py "application/pdf"
      /\ startswith (py "image/") content_type = true /\ kind = IMAGE) ->
  OCRFacts.internal_failure (OCR.b64encode content) kind tess_lang ->
  snd (extract_by_type file content tess_lang s) = Ok [].
Proof.
  intros Hct Hkind Hfail%OCRFacts.internal_failure_dispatch.
  unfold extract_by_type, bind, ret. rewrite Hct.
  destruct Hkind as [[-> ->]|(Hpdf & Himg & ->)].
  - rewrite bool_decide_eq_true_2 by done. rewrite OCRFacts.extract_run.
    destruct (OCR.extract_dispatch _ _ _) as [[t c]|]; simpl; [|done].
    by destruct Hfail as [-> _].
  - rewrite bool_decide_eq_false_2 by congruence. rewrite Himg.
    rewrite OCRFacts.extract_run.
    destruct (OCR.extract_dispatch _ _ _) as [[t c]|]; simpl; [|done].
    by destruct Hfail as [-> _].
Qed.

Lemma extract_by_type_value file content tess_lang s s0 :
  snd (extract_by_type file content tess_lang s)
  = snd (extract_by_type file content tess_lang s0).
Proof.
  unfold extract_by_type, bind, ret, raise.
  destruct (bool_decide _).
  - rewrite !OCRFacts.extract_run. simpl.
    by destruct (OCR.extract_dispatch _ _ _) as [[t c]|].
  - destruct (up_content_type file) as [ct|]; [|done].
    destruct (startswith _ ct); [|done].
    rewrite !OCRFacts.extract_run. simpl.
    by destruct (OCR.extract_dispatch _ _ _) as [[t c]|].
Qed.

(** X17. With the analyzer of [nlp.py], a failure of the OCR service does
    not fail the document: a PDF or an image that is read but whose
    extraction fails inside the service is COMPLETED, with the empty text
    and the empty summary. *)
Theorem ocr_failure_completes query language files s :
  Forall2 (fun file r =>
             forall content content_type kind,
               up_read file = Ok content ->
               up_content_type file = Some content_type ->
               (content_type = py "application/pdf" /\ kind = PDF
                \/ content_type <> py "application/pdf"
                   /\ startswith (py "image/") content_type = true
                   /\ kind = IMAGE) ->
               OCRFacts.internal_failure (OCR.b64encode content) kind
                                         (tess_lang_of language) ->
               status r = COMPLETED
               /\ extracted_text r = Some []
               /\ summary r = Some [])
          files (outcomes query language files s).
Proof.
  eapply Forall2_impl;
    [apply (outcomes_Forall2 (mock_step (tess_lang_of language)));
     intros; apply mock_process_file|].
  intros file r Hstep content ct kind Hread Hct Hkind Hfail.
  unfold mock_step in Hstep. rewrite Hread, Hct in Hstep.
  destruct Hstep as (Hst & s0 & t & summ & Hext & Htext & Hsum & Hsummary).
  rewrite (extract_by_type_failed_ocr _ _ _ _ _ _ Hct Hkind Hfail) in Hext.
  injection Hext as <-.
  split; [done|]. split; [done|].
  rewrite Hsum. f_equal. by injection Hsummary as <-.
Qed.
End Mock.

(** ** Runs *)

(** X10, run: an unreadable upload, then one unrelated to the query and
    one equal to it; the failed result comes second, before the result of
    score 0. *)
Lemma failed_results_rank_last_witness :
  let run :=
    @process_batch Reference.world Reference.plain_backend Reference.latin1
      (@NLP.nlp_service Reference.latin1 Reference.no_sklearn)
      (@Reference.mock_audit_log Reference.world) (py "r1") (py "u1")
      (Some (py "contract law")) (py "pt")
      [Reference.broken_file "b.txt";
       Reference.text_file "a.txt" "nothing";
       Reference.text_file "c.txt" "contract law"] Reference.s0 in
  exists s' resp l1 r l2,
    run = (s', Ok resp)
    /\ results resp = l1 ++ r :: l2
    /\ filename r = py "b.txt"
    /\ map filename l2 = [py "a.txt"]
    /\ Forall (fun x => forall score,
                          similarity_score x = Some score -> score <= 0) l2.
Proof.
  intros run.
  destruct run as [s' [resp|e]] eqn:Hrun; [|by vm_compute in Hrun].
  assert (H : exists l1 r l2,
             results resp = l1 ++ r :: l2 /\ status r = FAILED
             /\ filename r = py "b.txt" /\ map filename l2 = [py "a.txt"]).
  { pose proof Hrun as H. vm_compute in H. injection H as _ <-.
    eexists [_], _, [_]. repeat split. }
  destruct H as (l1 & r & l2 & Hsplit & Hfailed & Hname & Hrest).
  exists s', resp, l1, r, l2. repeat split; try done.
  unfold run in Hrun.
  refine (@failed_results_rank_last Reference.world Reference.plain_backend
            Reference.latin1
            (@NLP.nlp_service Reference.latin1 Reference.no_sklearn)
            (@Reference.mock_audit_log Reference.world) (py "r1") (py "u1")
            (Some (py "contract law")) (py "pt") _ Reference.s0 s' resp
            l1 r l2 _ Hrun Hsplit Hfailed).
  intros Hblank. inversion Hblank as [|? ? Hspace _]. discriminate Hspace.
Defined.

(** X13, run: the clock that advances by one second per reading. *)
Lemma processing_times_are_bounded_witness :
  exists s' resp,
    @process_batch Reference.world Reference.plain_backend Reference.latin1
      (@NLP.nlp_service Reference.latin1 Reference.no_sklearn)
      (@Reference.mock_audit_log Reference.world) (py "r1") (py "u1")
      (Some (py "contract law")) (py "pt")
      [Reference.text_file "a.txt" "nothing";
       Reference.broken_file "b.txt"] Reference.s0 = (s', Ok resp)
    /\ 0 <= total_processing_time resp
    /\ Forall (fun r => 0 <= doc_processing_time r
                        /\ doc_processing_time r
                           <= total_processing_time resp)
              (results resp).
Proof.
  apply (@processing_times_are_bounded Reference.world
           Reference.plain_backend Reference.latin1
           (@NLP.nlp_service Reference.latin1 Reference.no_sklearn)
           (@Reference.mock_audit_log Reference.world)).
  intros i j Hij. simpl. rewrite <- Zle_Qle. lia.
Defined.

(** X14, run: the bytes of "olá", uploaded as text/plain. *)
Lemma text_paths_agree_witness :
  let file := Reference.text_file "a.txt" "olá" in
  @extract_by_type Reference.world Reference.plain_backend file
    (list_byte_of_string "olá") (py "por") Reference.s0
  = (Reference.s0, Ok (py "olá"))
  /\ exists r s',
       @OCR.extract_text_from_document Reference.plain_backend
         Reference.world (py "b2zDoQ==") TEXT (py "por") Reference.s0
       = (s', Ok r)
       /\ text r = py "olá" /\ confidence r = 1.
Proof.
  intros file.
  apply (@text_paths_agree Reference.world Reference.plain_backend file
           (py "text/plain") (list_byte_of_string "olá") (py "b2zDoQ==")
           (py "olá") (py "por") Reference.s0).
  - reflexivity.
  - discriminate.
  - reflexivity.
  - vm_compute. reflexivity.
  - vm_compute. reflexivity.
Defined.

(** X17, run: a PDF whose second page cannot be read. *)
Lemma ocr_failure_completes_witness :
  let file :=
    {| up_filename := py "scan.pdf";
       up_content_type := Some (py "application/pdf");
       up_read := Ok (list_byte_of_string "PDF2") |} in
  Forall (fun r => status r = COMPLETED
                   /\ extracted_text r = Some []
                   /\ summary r = Some [])
         (@outcomes Reference.world Reference.one_bad_page Reference.latin1
            (@NLP.nlp_service Reference.latin1 Reference.no_sklearn)
            None (py "pt") [file] Reference.s0).
Proof.
  intros file.
  pose proof (@ocr_failure_completes Reference.world Reference.one_bad_page
                Reference.latin1 Reference.no_sklearn
                None (py "pt") [file] Reference.s0) as H.
  inversion H as [|? r ? rs Hr Hrs [Hfile Hout]]; subst.
  inversion Hrs; subst.
  constructor; [|constructor].
  apply (Hr (list_byte_of_string "PDF2") (py "application/pdf") PDF).
  - reflexivity.
  - reflexivity.
  - by left.
  - by vm_compute.
Defined.

(** X15, run: a picture on which Tesseract reads one word. *)
Lemma ocr_paths_are_transparent_witness :
  let backend :=
    Reference.backend Reference.not_a_pdf (fun _ => Ok (py "scanned")) in
  let file :=
    {| up_filename := py "a.png";
       up_content_type := Some (py "image/png");
       up_read := Ok (list_byte_of_string "png") |} in
  @extract_by_type Reference.world backend file
    (list_byte_of_string "png") (py "por") Reference.s0
  = ({| ticks := 2; drawn := 0 |},
     Ok (text_of (@OCR._extract_from_image backend
                    (list_byte_of_string "png") (py "por"))))
  /\ text_of (@OCR._extract_from_image backend
                (list_byte_of_string "png") (py "por")) = py "scanned".
Proof.
  intros backend file. split; [|by vm_compute].
  apply (@ocr_paths_are_transparent Reference.world backend file
           (py "image/png") (list_byte_of_string "png") (py "por")
           Reference.s0).
  - reflexivity.
  - vm_compute. reflexivity.
  - discriminate.
  - reflexivity.
Defined.

End ApiProps.

(* ===================================================================== *)
(** * app/services/nlp.py: sentiment and categories *)
(* ===================================================================== *)

Module Analysis.
Import Py Eff Sorting NLP.

(** [needle in hay] on two strings. *)
Fixpoint contains (needle hay : pystr) : bool :=
  startswith needle hay
  || match hay with
     | [] => false
     | _ :: hay' => contains needle hay'
     end.

(** [a / b] on two ints; [ZeroDivisionError] when [b] is 0. *)
Definition true_div (a b : nat) : exc Q :=
  if (b =? 0)%nat then Raise (py "division by zero") else Ok (int_div a b).

(** [round(q, 2)] *)
Definition round2 (q : Q) : Q :=
  (inject_Z (round_half_even (q * 100)) / 100)%Q.

Record SentimentResult := {
  sentiment : pystr;
  sentiment_confidence : Q;
  positive_indicators : nat;
  negative_indicators : nat;
}.

Record CategoryScore := {
  category : pystr;
  category_confidence : Q;
  matches : nat;
}.

(** The two lexicons; they are sets in the source and only tested for the
    presence of a member with a property, so their order is immaterial. *)
Definition positive_words : list pystr :=
  map py ["bom"; "ótimo"; "excelente"; "positivo"; "sucesso"; "qualidade";
          "garantia"; "satisfação"; "aprovado"; "aceito"; "acordo";
          "benefício"; "vantagem"; "lucro"; "ganho"]%string.

Definition negative_words : list pystr :=
  map py ["ruim"; "péssimo"; "negativo"; "problema"; "erro"; "falha";
          "defeito"; "reclamação"; "insatisfação"; "rejeitado"; "cancelado";
          "perda"; "prejuízo"; "dano"]%string.

(** [any(x in word for x in lexicon)] *)
Definition any_in (lexicon : list pystr) (word : pystr) : bool :=
  existsb (fun x => contains x word) lexicon.

Definition category_patterns : list (pystr * list pystr) :=
  [ (py "contrato",
     map py ["contrato"; "acordo"; "prestação"; "serviços"; "cláusula";
             "prazo"; "valor"; "pagamento"]%string);
    (py "relatório",
     map py ["relatório"; "análise"; "dados"; "resultado"; "conclusão";
             "período"; "mensal"; "anual"]%string);
    (py "fatura",
     map py ["fatura"; "nota fiscal"; "cobrança"; "vencimento"; "total";
             "imposto"; "desconto"]%string);
    (py "correspondência",
     map py ["carta"; "email"; "comunicado"; "informamos"; "solicitamos";
             "atenciosamente"]%string);
    (py "jurídico",
     map py ["processo"; "tribunal"; "advogado"; "lei"; "artigo"; "código";
             "jurisprudência"]%string);
    (py "técnico",
     map py ["especificação"; "manual"; "procedimento"; "configuração";
             "sistema"; "software"]%string);
    (py "financeiro",
     map py ["balanço"; "demonstrativo"; "receita"; "despesa"; "lucro";
             "investimento"]%string) ].

Section Service.
Context {U : Unicode}.

(** The [(sentiment, confidence)] the [if] chain of [analyze_sentiment]
    selects. *)
Definition sentiment_of (positive_count negative_count n_words : nat)
  : exc (pystr * Q) :=
  if (positive_count + negative_count =? 0)%nat then
    Ok (py "neutral", 1 # 2)
  else if (negative_count <? positive_count)%nat then
    (let* d := true_div (positive_count - negative_count) n_words in
     Ok (py "positive", pymin (9 # 10) ((1 # 2) + d)%Q))%exc
  else if (positive_count <? negative_count)%nat then
    (let* d := true_div (negative_count - positive_count) n_words in
     Ok (py "negative", pymin (9 # 10) ((1 # 2) + d)%Q))%exc
  else
    Ok (py "neutral", 1 # 2).

Definition analyze_sentiment (text : pystr) : exc SentimentResult :=
  exc_try
    (let words := split (lower text) in
     let positive_count :=
       length (filter (fun word => any_in positive_words word = true)
                      words) in
     let negative_count :=
       length (filter (fun word => any_in negative_words word = true)
                      words) in
     let* (sentiment, confidence) :=
       sentiment_of positive_count negative_count (length words) in
     Ok {| sentiment := sentiment;
           sentiment_confidence := round2 confidence;
           positive_indicators := positive_count;
           negative_indicators := negative_count |})%exc
    (fun _ =>
       Ok {| sentiment := py "neutral";
             sentiment_confidence := 0;
             positive_indicators := 0;
             negative_indicators := 0 |}).

(** The loop of [categorize_text] over the items of [category_patterns]. *)
Fixpoint score_categories (text_lower : pystr)
         (patterns : list (pystr * list pystr))
         (categories : list CategoryScore) : exc (list CategoryScore) :=
  match patterns with
  | [] => Ok categories
  | (name, keywords) :: rest =>
    let n_matches :=
      length (filter (fun keyword => contains keyword text_lower = true)
                     keywords) in
    if (0 <? n_matches)%nat then
      (let* ratio := true_div n_matches (length keywords) in
       let confidence := pymin (95 # 100) ratio in
       score_categories text_lower rest
         (categories ++ [{| category := name;
                            category_confidence := round2 confidence;
                            matches := n_matches |}]))%exc
    else score_categories text_lower rest categories
  end.

Definition categorize_text (text : pystr) : exc (list pystr) :=
  exc_try
    (let text_lower := lower text in
     let* categories := score_categories text_lower category_patterns [] in
     let categories := sort_by_desc Qltb category_confidence categories in
     if nonempty categories then Ok (map category (take 3 categories))
     else Ok [py "geral"])%exc
    (fun _ => Ok [py "geral"]).

End Service.
End Analysis.

(* ===================================================================== *)
(** * Properties of sentiment and categories *)
(* ===================================================================== *)

Module AnalysisFacts.
Import Py Eff Sorting SortingFacts NLP Analysis PyFacts OCRProps.
Local Open Scope Q_scope.

Lemma div100_le_l (x q : Q) : x / 100 <= q -> x <= q * 100.
Proof.
  intros H. assert (E : x == x / 100 * 100) by field. rewrite E.
  apply Qmult_le_compat_r; [exact H|discriminate].
Qed.

Lemma div100_le_r (x q : Q) : q <= x / 100 -> q * 100 <= x.
Proof.
  intros H. assert (E : x == x / 100 * 100) by field. rewrite E.
  apply Qmult_le_compat_r; [exact H|discriminate].
Qed.

Lemma round2_between (a b : Z) q :
  inject_Z a / 100 <= q <= inject_Z b / 100 ->
  inject_Z a / 100 <= round2 q <= inject_Z b / 100.
Proof.
  intros [Ha%div100_le_l Hb%div100_le_r]. unfold round2.
  destruct (round_half_even_between a b (q * 100)) as [H1 H2]; [done|].
  rewrite Zle_Qle in H1, H2.
  split.
  - apply Qle_shift_div_l; [reflexivity|].
    apply Qle_trans with (inject_Z a); [|done].
    apply Qle_lteq. right. field.
  - apply Qle_shift_div_r; [reflexivity|].
    apply Qle_trans with (inject_Z b); [done|].
    apply Qle_lteq. right. field.
Qed.

Lemma true_div_ok a b :
  (0 < b)%nat -> (a <= b)%nat ->
  exists d, true_div a b = Ok d /\ 0 <= d <= 1.
Proof.
  intros Hb Hab. unfold true_div.
  rewrite (proj2 (Nat.eqb_neq b 0)) by lia.
  eexists. split; [reflexivity|]. unfold int_div.
  assert (Hpos : 0 < inject_Z (Z.of_nat b)) by (rewrite <- (Zlt_Qlt 0); lia).
  split.
  - apply Qle_shift_div_l; [done|]. rewrite Qmult_0_l.
    rewrite <- (Zle_Qle 0). lia.
  - apply Qle_shift_div_r; [done|]. rewrite Qmult_1_l.
    rewrite <- Zle_Qle. lia.
Qed.

Lemma true_div_pos a b :
  (0 < a)%nat -> (a <= b)%nat ->
  exists d, true_div a b = Ok d /\ 0 < d <= 1.
Proof.
  intros Ha Hab. destruct (true_div_ok a b) as (d & Hd & H0 & H1); [lia..|].
  exists d. split; [done|]. split; [|done].
  unfold true_div in Hd. rewrite (proj2 (Nat.eqb_neq b 0)) in Hd by lia.
  injection Hd as <-. unfold int_div. apply Qlt_shift_div_l.
  - rewrite <- (Zlt_Qlt 0). lia.
  - rewrite Qmult_0_l. rewrite <- (Zlt_Qlt 0). lia.
Qed.

Section Service.
Context {U : Unicode}.

Lemma sentiment_of_spec p n w :
  (p <= w)%nat -> (n <= w)%nat ->
  exists label c,
    sentiment_of p n w = Ok (label, c)
    /\ 1 # 2 <= c <= 9 # 10
    /\ (label = py "positive" <-> (n < p)%nat)
    /\ (label = py "negative" <-> (p < n)%nat)
    /\ (label = py "neutral" <-> p = n)
    /\ (p = n -> c = 1 # 2)
    /\ (p <> n -> 1 # 2 < c).
Proof.
  intros Hp Hn. unfold sentiment_of.
  destruct (p + n =? 0)%nat eqn:H0.
  { apply Nat.eqb_eq in H0. eexists _, _. split; [reflexivity|].
    repeat split; try discriminate; try lia; try (by vm_compute). }
  apply Nat.eqb_neq in H0.
  destruct (n <? p)%nat eqn:Hnp.
  { apply Nat.ltb_lt in Hnp.
    destruct (true_div_pos (p - n) w) as (d & -> & Hd0 & Hd1); [lia..|].
    simpl. eexists _, _. split; [reflexivity|].
    destruct (pymin_cases (9 # 10) ((1 # 2) + d)) as [[-> ?]|[-> ?]];
      repeat split; try discriminate; try lia; try lra;
      try (by vm_compute). }
  apply Nat.ltb_ge in Hnp.
  destruct (p <? n)%nat eqn:Hpn.
  { apply Nat.ltb_lt in Hpn.
    destruct (true_div_pos (n - p) w) as (d & -> & Hd0 & Hd1); [lia..|].
    simpl. eexists _, _. split; [reflexivity|].
    destruct (pymin_cases (9 # 10) ((1 # 2) + d)) as [[-> ?]|[-> ?]];
      repeat split; try discriminate; try lia; try lra;
      try (by vm_compute). }
  apply Nat.ltb_ge in Hpn.
  eexists _, _. split; [reflexivity|].
  repeat split; try discriminate; try lia; try (by vm_compute).
Qed.

(** X18. [analyze_sentiment] never divides by zero, so it never falls
    back to its failure answer.  Its label is positive, negative or neutral
    as the positive indicators outnumber, are outnumbered by, or equal the
    negative ones; its confidence lies between 0.5 and 0.9, and is 0.5
    when the label is neutral; no count exceeds the number of words. *)
Theorem sentiment_is_consistent text :
  exists r,
    analyze_sentiment text = Ok r
    /\ (positive_indicators r <= length (split (lower text)))%nat
    /\ (negative_indicators r <= length (split (lower text)))%nat
    /\ 1 # 2 <= sentiment_confidence r <= 9 # 10
    /\ (sentiment r = py "positive"
        <-> (negative_indicators r < positive_indicators r)%nat)
    /\ (sentiment r = py "negative"
        <-> (positive_indicators r < negative_indicators r)%nat)
    /\ (sentiment r = py "neutral"
        <-> positive_indicators r = negative_indicators r)
    /\ (sentiment r = py "neutral" -> sentiment_confidence r == 1 # 2).
Proof.
  unfold analyze_sentiment.
  set (words := split (lower text)).
  set (p := length (filter _ words)).
  set (n := length (filter (fun word => any_in negative_words word = true)
                           words)).
  assert (Hp : (p <= length words)%nat) by apply length_filter.
  assert (Hn : (n <= length words)%nat) by apply length_filter.
  destruct (sentiment_of_spec p n (length words) Hp Hn)
    as (label & c & -> & Hc & Hpos & Hneg & Hneu & Heq & _).
  simpl. eexists. split; [reflexivity|]. simpl.
  split; [done|]. split; [done|]. split.
  { destruct Hc as [Hc1 Hc2].
    destruct (round2_between 50 90 c) as [H1 H2].
    { split; [eapply Qle_trans; [|exact Hc1]
             |eapply Qle_trans; [exact Hc2|]]; discriminate. }
    split; [eapply Qle_trans; [|exact H1]
           |eapply Qle_trans; [exact H2|]]; discriminate. }
  split; [done|]. split; [done|]. split; [done|].
  intros Hl. apply Hneu in Hl. rewrite (Heq Hl). by vm_compute.
Qed.

(** ** Categories *)

Definition has_match (text_lower : pystr) (p : pystr * list pystr) : Prop :=
  (0 < length (filter (fun keyword => contains keyword text_lower = true)
                      (snd p)))%nat.

#[export] Instance has_match_dec text_lower p : Decision (has_match text_lower p).
Proof. unfold has_match. apply _. Defined.

Lemma score_categories_names text_lower patterns acc :
  exists res,
    score_categories text_lower patterns acc = Ok res
    /\ map category res
       = map category acc
           ++ map fst (filter (has_match text_lower) patterns).
Proof.
  revert acc. induction patterns as [|[name keywords] patterns IH];
    intros acc; simpl.
  - exists acc. by rewrite app_nil_r.
  - rewrite filter_cons.
    destruct (decide (has_match text_lower (name, keywords))) as [Hm|Hm];
      unfold has_match in Hm; simpl in Hm.
    + rewrite (proj2 (Nat.ltb_lt 0 _) Hm).
      destruct (true_div_ok
                  (length (filter (fun keyword =>
                                     contains keyword text_lower = true)
                                  keywords))
                  (length keywords)) as (d & -> & _).
      { pose proof (length_filter
                      (fun keyword => contains keyword text_lower = true)
                      keywords). lia. }
      { apply length_filter. }
      simpl.
      match goal with
      | |- context [score_categories _ _ ?acc'] =>
        destruct (IH acc') as (res & -> & Hres)
      end.
      exists res. split; [done|]. rewrite Hres, map_app. simpl.
      by rewrite <- app_assoc.
    + rewrite (proj2 (Nat.ltb_ge 0 _)) by lia. apply IH.
Qed.

Lemma sublist_map_filter {A B} (f : A -> B) (P : A -> Prop)
      `{forall x, Decision (P x)} (l : list A) :
  sublist (map f (filter P l)) (map f l).
Proof.
  induction l as [|x l IH]; simpl; [constructor|].
  rewrite filter_cons. destruct (decide (P x)); simpl.
  - by apply sublist_skip.
  - by apply sublist_cons.
Qed.

Lemma category_names_NoDup : NoDup (map fst category_patterns).
Proof. apply (bool_decide_unpack _). by vm_compute. Qed.

Lemma geral_is_no_category : py "geral" ∉ map fst category_patterns.
Proof. apply (bool_decide_unpack _). by vm_compute. Qed.

(** X19. [categorize_text] never raises; it returns between one and
    three names, no name twice; every name is "geral" or a category one of
    whose keywords occurs in the lowercased text; and "geral" is returned,
    alone, exactly when no keyword of any category occurs. *)
Theorem categories_are_few_and_matched text :
  exists names,
    categorize_text text = Ok names
    /\ (1 <= length names <= 3)%nat
    /\ NoDup names
    /\ Forall (fun name =>
                 name = py "geral"
                 \/ exists keywords keyword,
                      (name, keywords) ∈ category_patterns
                      /\ keyword ∈ keywords
                      /\ contains keyword (lower text) = true) names
    /\ (py "geral" ∈ names
        <-> forall p, p ∈ category_patterns -> ~ has_match (lower text) p)
    /\ (py "geral" ∈ names -> names = [py "geral"]).
Proof.
  unfold categorize_text.
  destruct (score_categories_names (lower text) category_patterns [])
    as (res & -> & Hnames).
  simpl in *.
  set (sorted := sort_by_desc Qltb category_confidence res).
  assert (Hperm : map category sorted
                  ≡ₚ map fst (filter (has_match (lower text))
                                     category_patterns)).
  { rewrite <- Hnames. unfold sorted. apply Permutation_map.
    apply sort_by_desc_perm. }
  assert (Hsub : sublist (map fst (filter (has_match (lower text))
                                          category_patterns))
                         (map fst category_patterns))
    by apply sublist_map_filter.
  assert (Hknown : forall name,
             name ∈ map category sorted ->
             exists keywords,
               (name, keywords) ∈ category_patterns
               /\ has_match (lower text) (name, keywords)).
  { intros name Hin. rewrite Hperm in Hin.
    apply list_elem_of_In, in_map_iff in Hin.
    destruct Hin as ([nm kws] & <- & Hin%list_elem_of_In).
    apply list_elem_of_filter in Hin as [Hm Hin]. eauto. }
  destruct (nonempty sorted) eqn:Hne.
  - eexists. split; [reflexivity|].
    assert (Htake : map category (take 3 sorted)
                    = take 3 (map category sorted))
      by (symmetry; apply firstn_map).
    assert (Hin3 : forall name,
               name ∈ map category (take 3 sorted) ->
               name ∈ map category sorted)
      by (intros name; rewrite Htake; apply subseteq_take).
    assert (Hnogeral : py "geral" ∉ map category (take 3 sorted)).
    { intros Hg%Hin3%Hknown. destruct Hg as (kws & Hin & _).
      apply geral_is_no_category.
      apply list_elem_of_In, in_map_iff. exists (py "geral", kws).
      split; [done|by apply list_elem_of_In]. }
    split; [|split; [|split; [|split]]].
    + rewrite length_map, length_take.
      destruct sorted; [done|]. cbn [length]. lia.
    + rewrite Htake. apply (sublist_NoDup _ (map category sorted));
        [|apply sublist_take].
      rewrite Hperm. eapply sublist_NoDup; [|exact Hsub].
      apply category_names_NoDup.
    + apply Forall_forall. intros name Hin%Hin3%Hknown.
      destruct Hin as (kws & Hin & Hm). right.
      unfold has_match in Hm. simpl in Hm.
      destruct (filter _ kws) as [|kw rest] eqn:Hf; [simpl in Hm; lia|].
      assert (Hkw : kw ∈ filter (fun keyword =>
                                   contains keyword (lower text) = true) kws)
        by (rewrite Hf; left).
      apply list_elem_of_filter in Hkw as [Hc Hkw]. eauto.
    + split; [done|]. intros Hno. exfalso.
      destruct sorted as [|c0 rest] eqn:Hs; [done|].
      destruct (Hknown (category c0)) as (kws & Hin & Hm); [simpl; left|].
      by apply (Hno _ Hin).
    + done.
  - exists [py "geral"]. split; [done|]. simpl.
    split; [lia|]. split; [repeat constructor; set_solver|].
    split; [repeat constructor; by left|]. split; [|done].
    split; [|intros; left].
    intros _ p Hp Hm.
    assert (Hin : fst p ∈ map category sorted).
    { rewrite Hperm. apply list_elem_of_In, in_map_iff. exists p.
      split; [done|]. apply list_elem_of_In, list_elem_of_filter. done. }
    destruct sorted; [by apply elem_of_nil in Hin|done].
Qed.
End Service.

End AnalysisFacts.

(* ===================================================================== *)
(** * app/utils/text.py: documents numbers, money, readability *)
(* ===================================================================== *)

Module TextStats.
Import Py Eff TextUtils Analysis.

Record Readability := {
  words : nat;
  sentences : nat;
  avg_words_per_sentence : Q;
  (** absent from the answer for the empty text *)
  avg_word_length : option Q;
  complexity : Q;
}.

(** [sum(lengths)] *)
Definition sum_lengths (ws : list pystr) : nat :=
  fold_right Nat.add 0%nat (map (@length N) ws).

Definition no_readability : Readability :=
  {| words := 0; sentences := 0; avg_words_per_sentence := 0;
     avg_word_length := None; complexity := 0 |}.

(** Nothing under the [try] raises: both divisions are guarded. *)
Definition calculate_readability_score (text : pystr) : exc Readability :=
  exc_try
    (if negb (nonempty text) then Ok no_readability
     else
       let n_words := length (split text) in
       let n_sentences :=
         length (NLP.split_runs_aux NLP.is_terminal false [] text) in
       let avg_words_per_sentence :=
         if (0 <? n_sentences)%nat then NLP.int_div n_words n_sentences
         else 0%Q in
       let word_lengths := split text in
       let avg_word_length :=
         if nonempty word_lengths
         then NLP.int_div (sum_lengths word_lengths) (length word_lengths)
         else 0%Q in
       let complexity := pymin 1 ((avg_word_length - 3) / 7)%Q in
       Ok {| words := n_words;
             sentences := n_sentences;
             avg_words_per_sentence := round2 avg_words_per_sentence;
             avg_word_length := Some (round2 avg_word_length);
             complexity := round2 complexity |})
    (fun _ => Ok no_readability).

Section Extractors.
Context {R : Regex}.

Definition cpf_pattern : pystr := py "\d{3}\.?\d{3}\.?\d{3}-?\d{2}".

Definition cnpj_pattern : pystr :=
  py "\d{2}\.?\d{3}\.?\d{3}/?\d{4}-?\d{2}".

(** The pair ([cpfs], [cnpjs]) of the dictionary returned. *)
Definition extract_cpf_cnpj (text : pystr)
  : exc (list pystr * list pystr) :=
  exc_try
    (let* cpfs := findall cpf_pattern text in
     let* cnpjs := findall cnpj_pattern text in
     Ok (list_of_set cpfs, list_of_set cnpjs))%exc
    (fun _ => Ok ([], [])).

Definition money_patterns : list pystr :=
  [ py "R\$\s*\d{1,3}(?:\.\d{3})*(?:,\d{2})?";
    py "\d{1,3}(?:\.\d{3})*(?:,\d{2})?\s*reais?";
    py "US\$\s*\d{1,3}(?:,\d{3})*(?:\.\d{2})?" ].

Definition extract_monetary_values (text : pystr) : exc (list pystr) :=
  exc_try
    (let* values := collect findall_ignorecase money_patterns text [] in
     Ok (list_of_set values))%exc
    (fun _ => Ok []).

End Extractors.
End TextStats.

(* ===================================================================== *)
(** * Further properties of the information extractors *)
(* ===================================================================== *)

Module TextProps.
Import Py Eff TextUtils TextFacts Analysis AnalysisFacts TextStats OCRProps
       SortingFacts.

(** ** The matches of several patterns *)

(** Every pattern is searched without an exception. *)
Definition all_found (find : pystr -> pystr -> exc (list pystr))
           (patterns : list pystr) (text : pystr) : Prop :=
  Forall (fun pattern => is_ok (find pattern text) = true) patterns.

(** [x] is a match of one of the patterns. *)
Definition matched (find : pystr -> pystr -> exc (list pystr))
           (patterns : list pystr) (text : pystr) (x : pystr) : Prop :=
  exists pattern ms,
    pattern ∈ patterns /\ find pattern text = Ok ms /\ x ∈ ms.

Lemma collect_spec find patterns text xs :
  match collect find patterns text xs with
  | Ok r =>
    all_found find patterns text
    /\ forall x, x ∈ r <-> x ∈ xs \/ matched find patterns text x
  | Raise _ => ~ all_found find patterns text
  end.
Proof.
  revert xs. induction patterns as [|p patterns IH]; intros xs; simpl.
  - split; [constructor|]. intros x. split; [by left|].
    intros [?|(p & ms & Hp & _)]; [done|]. by apply elem_of_nil in Hp.
  - destruct (find p text) as [ms|e] eqn:Hp; simpl.
    + specialize (IH (xs ++ ms)).
      destruct (collect find patterns text (xs ++ ms)) as [r|e].
      * destruct IH as [Hall Hr]. split.
        { constructor; [by rewrite Hp|done]. }
        intros x. rewrite Hr, elem_of_app. split.
        -- intros [[?|Hms]|(q & qs & Hq & Hfind & Hx)].
           ++ by left.
           ++ right. exists p, ms. split; [left|done].
           ++ right. exists q, qs. split; [by right|done].
        -- intros [?|(q & qs & Hq & Hfind & Hx)]; [by left; left|].
           apply elem_of_cons in Hq as [->|Hq].
           ++ rewrite Hp in Hfind. injection Hfind as <-. left. by right.
           ++ right. by exists q, qs.
      * intros Hall. inversion Hall; subst. by apply IH.
    + intros Hall. inversion Hall as [|? ? Hok _]; subst.
      by rewrite Hp in Hok.
Qed.

(** The shape shared by the extractors over several patterns. *)
Lemma collected_set find patterns text :
  exists l,
    exc_try (exc_bind (collect find patterns text [])
                      (fun xs => Ok (list_of_set xs)))
            (fun _ => Ok []) = Ok l
    /\ NoDup l
    /\ (all_found find patterns text ->
        forall x, x ∈ l <-> matched find patterns text x)
    /\ (~ all_found find patterns text -> l = []).
Proof.
  pose proof (collect_spec find patterns text []) as H.
  destruct (collect find patterns text []) as [r|e]; simpl.
  - destruct H as [Hall Hr]. eexists. split; [reflexivity|].
    split; [apply NoDup_list_of_set|]. split; [|done].
    intros _ x. rewrite elem_of_list_of_set, Hr. split; [|by right].
    intros [Hnil|?]; [by apply elem_of_nil in Hnil|done].
  - exists []. split; [done|]. split; [constructor|]. by split.
Qed.

Lemma matched_singleton find pattern text x :
  matched find [pattern] text x
  <-> exists ms, find pattern text = Ok ms /\ x ∈ ms.
Proof.
  split.
  - intros (p & ms & Hp & Hfind & Hx).
    apply list_elem_of_singleton in Hp as ->. eauto.
  - intros (ms & Hfind & Hx). exists pattern, ms.
    split; [by left|done].
Qed.

Section Extractors.
Context {R : Regex}.

(** The four extractors of [GET /extract-info] return lists, without
    repetition. *)
Lemma extractors_shape text :
  exists emails phones urls dates,
    extract_emails text = Ok emails
    /\ extract_phone_numbers text = Ok phones
    /\ extract_urls text = Ok urls
    /\ extract_dates text = Ok dates
    /\ NoDup emails /\ NoDup phones /\ NoDup dates /\ NoDup urls.
Proof.
  assert (Hone : forall pattern,
             exists l,
               exc_try (exc_bind (findall pattern text)
                                 (fun xs => Ok (list_of_set xs)))
                       (fun _ => Ok []) = Ok l /\ NoDup l).
  { intros pattern. destruct (findall pattern text); simpl; eexists;
      (split; [reflexivity|]); [apply NoDup_list_of_set|constructor]. }
  destruct (Hone email_pattern) as (e & He & Hnde).
  destruct (Hone url_pattern) as (u & Hu & Hndu).
  destruct (collected_set findall phone_patterns text)
    as (p & Hp & Hndp & _).
  destruct (collected_set findall_ignorecase date_patterns text)
    as (d & Hd & Hndd & _).
  exists e, p, u, d. repeat split; done.
Qed.

(** X20. When the regex engine raises on no
    pattern, a string is in the list returned by [extract_emails],
    [extract_phone_numbers], [extract_urls] or [extract_dates] exactly when
    it is a match of the pattern, or of one of the patterns, of that
    extractor; when the engine raises on a pattern the list is empty. *)
Theorem extractors_return_the_matches text :
  (exists l, extract_emails text = Ok l
             /\ (all_found findall [email_pattern] text ->
                 forall x, x ∈ l <-> matched findall [email_pattern] text x)
             /\ (~ all_found findall [email_pattern] text -> l = []))
  /\ (exists l, extract_phone_numbers text = Ok l
                /\ (all_found findall phone_patterns text ->
                    forall x, x ∈ l
                              <-> matched findall phone_patterns text x)
                /\ (~ all_found findall phone_patterns text -> l = []))
  /\ (exists l, extract_urls text = Ok l
                /\ (all_found findall [url_pattern] text ->
                    forall x, x ∈ l <-> matched findall [url_pattern] text x)
                /\ (~ all_found findall [url_pattern] text -> l = []))
  /\ (exists l, extract_dates text = Ok l
                /\ (all_found findall_ignorecase date_patterns text ->
                    forall x, x ∈ l
                              <-> matched findall_ignorecase date_patterns
                                          text x)
                /\ (~ all_found findall_ignorecase date_patterns text ->
                    l = [])).
Proof.
  assert (Hone : forall pattern,
             exc_try (exc_bind (findall pattern text)
                               (fun xs => Ok (list_of_set xs)))
                     (fun _ => Ok [])
             = exc_try (exc_bind (collect findall [pattern] text [])
                                 (fun xs => Ok (list_of_set xs)))
                       (fun _ => Ok [])).
  { intros pattern. simpl. by destruct (findall pattern text). }
  repeat split.
  - unfold extract_emails. rewrite Hone.
    destruct (collected_set findall [email_pattern] text)
      as (l & -> & _ & H1 & H2). eauto.
  - unfold extract_phone_numbers.
    destruct (collected_set findall phone_patterns text)
      as (l & -> & _ & H1 & H2). eauto.
  - unfold extract_urls. rewrite Hone.
    destruct (collected_set findall [url_pattern] text)
      as (l & -> & _ & H1 & H2). eauto.
  - unfold extract_dates.
    destruct (collected_set findall_ignorecase date_patterns text)
      as (l & -> & _ & H1 & H2). eauto.
Qed.

(** X21. [extract_cpf_cnpj] returns two lists and
    [extract_monetary_values] one, none of them with a string twice; when
    the regex engine does not raise they hold exactly the matches of their
    patterns, and when it raises on either of the two number patterns both
    number lists are empty. *)
Theorem numbers_and_money_are_the_matches text :
  (exists cpfs cnpjs,
      extract_cpf_cnpj text = Ok (cpfs, cnpjs)
      /\ NoDup cpfs /\ NoDup cnpjs
      /\ (forall found_cpfs found_cnpjs,
             findall cpf_pattern text = Ok found_cpfs ->
             findall cnpj_pattern text = Ok found_cnpjs ->
             (forall x, x ∈ cpfs <-> x ∈ found_cpfs)
             /\ (forall x, x ∈ cnpjs <-> x ∈ found_cnpjs))
      /\ (is_ok (findall cpf_pattern text) = false
          \/ is_ok (findall cnpj_pattern text) = false ->
          cpfs = [] /\ cnpjs = []))
  /\ (exists values,
         extract_monetary_values text = Ok values
         /\ NoDup values
         /\ (all_found findall_ignorecase money_patterns text ->
             forall x, x ∈ values
                       <-> matched findall_ignorecase money_patterns text x)
         /\ (~ all_found findall_ignorecase money_patterns text ->
             values = [])).
Proof.
  split.
  - unfold extract_cpf_cnpj.
    destruct (findall cpf_pattern text) as [a|]; simpl.
    + destruct (findall cnpj_pattern text) as [b|]; simpl.
      * eexists _, _. split; [reflexivity|].
        split; [apply NoDup_list_of_set|].
        split; [apply NoDup_list_of_set|]. split.
        -- intros ? ? [= <-] [= <-].
           split; intros x; apply elem_of_list_of_set.
        -- intros [?|?]; done.
      * exists [], []. repeat split; try constructor; done.
    + exists [], []. repeat split; try constructor; done.
  - unfold extract_monetary_values.
    destruct (collected_set findall_ignorecase money_patterns text)
      as (l & -> & Hnd & H1 & H2). eauto.
Qed.
End Extractors.

(** ** Readability *)

Lemma split_runs_nonempty sep in_run cur s :
  (1 <= length (NLP.split_runs_aux sep in_run cur s))%nat.
Proof.
  revert in_run cur. induction s as [|c s IH]; intros in_run cur; simpl.
  - lia.
  - destruct (sep c); [destruct in_run|]; simpl;
      try apply IH; pose proof (IH true []); lia.
Qed.

Lemma sum_lengths_nonneg ws : (0 <= sum_lengths ws)%nat.
Proof. lia. Qed.

(** X22. [calculate_readability_score] never raises.  The empty
    text scores zero everywhere; any other text has at least one sentence,
    a non-negative average word length, and a complexity between -0.43 and
    1; the complexity is -0.43 when the text has no word. *)
Theorem readability_bounds text :
  exists r,
    calculate_readability_score text = Ok r
    /\ (text = [] -> r = no_readability)
    /\ (text <> [] ->
        (1 <= sentences r)%nat
        /\ words r = length (split text)
        /\ (exists l, avg_word_length r = Some l /\ (0 <= l)%Q)
        /\ (- (43 # 100) <= complexity r <= 1)%Q
        /\ (words r = 0%nat -> (complexity r == - (43 # 100))%Q)).
Proof.
  unfold calculate_readability_score.
  destruct text as [|c text]; [by exists no_readability|].
  cbn [nonempty negb exc_try].
  set (t := c :: text).
  eexists. split; [reflexivity|]. split; [done|]. intros _.
  cbn [sentences words avg_word_length complexity].
  set (awl := if nonempty (split t)
              then NLP.int_div (sum_lengths (split t)) (length (split t))
              else 0%Q).
  assert (Hawl : (0 <= awl)%Q).
  { unfold awl. destruct (split t) as [|w ws] eqn:Hs; simpl; [done|].
    unfold NLP.int_div. apply Qle_shift_div_l.
    - rewrite <- (Zlt_Qlt 0). simpl. lia.
    - rewrite Qmult_0_l. rewrite <- (Zle_Qle 0). lia. }
  split; [apply split_runs_nonempty|]. split; [done|].
  split.
  { eexists. split; [reflexivity|]. unfold round2.
    apply Qle_shift_div_l; [reflexivity|]. rewrite Qmult_0_l.
    rewrite <- (Zle_Qle 0). apply PyFacts.round_half_even_nonneg.
    apply Qmult_le_0_compat; [done|discriminate]. }
  split.
  - assert (Hraw : (inject_Z (-43) / 100 <= pymin 1 ((awl - 3) / 7)
                    <= inject_Z 100 / 100)%Q).
    { assert (Hlow : (-43 # 100 <= (awl - 3) / 7)%Q).
      { apply Qle_shift_div_l; [reflexivity|].
        apply Qle_trans with (- 3)%Q; [discriminate|]. lra. }
      destruct (pymin_cases 1 ((awl - 3) / 7)) as [[-> _]|[-> Hlt]].
      - split; discriminate.
      - split; [exact Hlow|].
        apply Qle_trans with 1%Q; [by apply Qlt_le_weak|discriminate]. }
    apply (round2_between (-43) 100) in Hraw. destruct Hraw as [H1 H2].
    split.
    + apply Qle_trans with (inject_Z (-43) / 100)%Q; [discriminate|done].
    + apply Qle_trans with (inject_Z 100 / 100)%Q; [done|discriminate].
  - intros Hwords. unfold awl.
    destruct (split t); [reflexivity|discriminate].
Qed.

End TextProps.

(* ===================================================================== *)
(** * app/api.py: the other routes *)
(* ===================================================================== *)

Module Endpoints.
Import Py Eff Models Api.
Local Open Scope Q_scope.

Record TextAnalysisResponse := {
  ta_original_text : pystr;
  ta_language : pystr;
  ta_word_count : nat;
  ta_char_count : nat;
  ta_summary : pystr;
  ta_keywords : list pystr;
  ta_sentiment : pystr;
  ta_categories : list pystr;
}.

(** The arguments of [audit_log.write_log] in [analyze_text]; the user is
    "anonymous" and the query [None]. *)
Record AnalysisLog := {
  al_request_id : pystr;
  al_user_id : pystr;
  al_word_count : nat;
  al_char_count : nat;
  al_categories : list pystr;
  al_processing_time : Q;
}.

(** [audit_log.write_log(...)] on such arguments. *)
Class AnalysisSink := {
  write_analysis_log : AnalysisLog -> M pystr;
}.

Record InfoExtractionResponse := {
  info_emails : list pystr;
  info_phones : list pystr;
  info_dates : list pystr;
  info_urls : list pystr;
  info_entities : list (list (pystr * pystr));
}.

Record LegacyData := {
  data_document_id : pystr;
  data_filename : pystr;
  data_status : ProcessingStatus;
  data_extracted_text : option pystr;
  data_summary : option pystr;
  data_processing_time : Q;
}.

Record LegacyResponse := {
  success : bool;
  message : pystr;
  data : LegacyData;
}.

Section Routes.
Context {W : World} {U : NLP.Unicode} {R : TextUtils.Regex}
        {analysis_log : AnalysisSink}.

(** [GET /analyze-text], with the analyzer of [nlp.py] that the module
    imports. *)
Definition analyze_text (text language : pystr) : M TextAnalysisResponse :=
  try_except
    (let* start_time := time_time in
     let word_count := length (split text) in
     let char_count := length text in
     let* summary := lift (NLP.summarize_text text) in
     let* keywords := lift (NLP.extract_keywords text 10) in
     let* sentiment_result := lift (Analysis.analyze_sentiment text) in
     let* categories := lift (Analysis.categorize_text text) in
     let* now := time_time in
     let processing_time := now - start_time in
     let* _ :=
       try_except
         (let* request_id := uuid4 in
          let* _ :=
            write_analysis_log
              {| al_request_id := request_id;
                 al_user_id := py "anonymous";
                 al_word_count := word_count;
                 al_char_count := char_count;
                 al_categories := categories;
                 al_processing_time := processing_time |} in
          ret tt)
         (fun _ => ret tt) in
     ret {| ta_original_text := text;
            ta_language := language;
            ta_word_count := word_count;
            ta_char_count := char_count;
            ta_summary := summary;
            ta_keywords := keywords;
            ta_sentiment := Analysis.sentiment sentiment_result;
            ta_categories := categories |})%io
    (fun e => raise e).

(** [GET /extract-info] *)
Definition extract_info (text : pystr) : exc InfoExtractionResponse :=
  exc_try
    (let* emails := TextUtils.extract_emails text in
     let* phones := TextUtils.extract_phone_numbers text in
     let* dates := TextUtils.extract_dates text in
     let* urls := TextUtils.extract_urls text in
     let entities := [] in
     Ok {| info_emails := emails;
           info_phones := phones;
           info_dates := dates;
           info_urls := urls;
           info_entities := entities |})%exc
    (fun e => Raise e).

End Routes.

Section Legacy.
Context {W : World} {B : OCR.Backend} {U : NLP.Unicode}
        {nlp_service : NLP.Service} {audit_log : AuditSink}.

(** [str(Form("por"))]: [upload_file_legacy] calls [process_batch] as a
    function and leaves [language] out, so that the parameter is bound to
    its default, the form field itself. *)
Variable form_default : pystr.

(** [POST /upload] *)
Definition upload_file_legacy (file : UploadFile) : M LegacyResponse :=
  try_except
    (let* request_id := uuid4 in
     let user_id := py "legacy_user" in
     let* response :=
       process_batch request_id user_id None form_default [file] in
     match results response with
     | result :: _ =>
       ret {| success := true;
              message := py "Arquivo processado com sucesso";
              data :=
                {| data_document_id := document_id result;
                   data_filename := filename result;
                   data_status := status result;
                   data_extracted_text := extracted_text result;
                   data_summary := summary result;
                   data_processing_time := doc_processing_time result |} |}
     | [] => raise (py "Erro no processamento")
     end)%io
    (fun e => raise e).

End Legacy.
End Endpoints.

(* ===================================================================== *)
(** * Properties of the other routes *)
(* ===================================================================== *)

Module EndpointFacts.
Import Py Eff Models Api ApiFacts Analysis AnalysisFacts TextUtils TextFacts
       Endpoints.
Local Open Scope Q_scope.

Section Routes.
Context {W : World} {U : NLP.Unicode} {R : TextUtils.Regex}
        {analysis_log : AnalysisSink}.

Lemma analyze_sentiment_label text :
  exists r,
    analyze_sentiment text = Ok r
    /\ sentiment r ∈ [py "positive"; py "negative"; py "neutral"].
Proof.
  unfold analyze_sentiment.
  set (words := split (NLP.lower text)).
  set (p := length (filter _ words)).
  set (n := length (filter (fun word => any_in negative_words word = true)
                           words)).
  assert (Hp : (p <= length words)%nat) by apply length_filter.
  assert (Hn : (n <= length words)%nat) by apply length_filter.
  destruct (sentiment_of_spec p n (length words) Hp Hn)
    as (label & c & -> & _ & Hpos & Hneg & Hneu & _).
  simpl. eexists. split; [reflexivity|]. simpl.
  destruct (lt_eq_lt_dec p n) as [[Hlt|Heq]|Hgt].
  - rewrite (proj2 Hneg Hlt). right. left.
  - rewrite (proj2 Hneu Heq). right. right. left.
  - rewrite (proj2 Hpos Hgt). left.
Qed.

Lemma categorize_text_length text :
  exists names,
    categorize_text text = Ok names /\ (1 <= length names <= 3)%nat.
Proof.
  unfold categorize_text.
  destruct (score_categories_names (NLP.lower text) category_patterns [])
    as (res & -> & _).
  simpl.
  destruct (Sorting.sort_by_desc Qltb category_confidence res) as [|x l];
    cbn [nonempty].
  - eexists. split; [reflexivity|]. simpl. lia.
  - eexists. split; [reflexivity|].
    rewrite length_map, length_take. cbn [length]. lia.
Qed.

(** X23. [GET /analyze-text] always answers, whatever the audit
    log does.  The answer repeats the text and the language, counts the
    characters of the text and its whitespace-separated words, and holds a
    summary of at most 503 characters, at most ten keywords, a sentiment
    among positive, negative and neutral, and between one and three
    categories. *)
Theorem analyze_text_always_answers text language s :
  exists s' r,
    analyze_text text language s = (s', Ok r)
    /\ ta_original_text r = text
    /\ ta_language r = language
    /\ ta_char_count r = length text
    /\ ta_word_count r = length (split text)
    /\ (length (ta_summary r) <= 503)%nat
    /\ (length (ta_keywords r) <= 10)%nat
    /\ ta_sentiment r ∈ [py "positive"; py "negative"; py "neutral"]
    /\ (1 <= length (ta_categories r) <= 3)%nat.
Proof.
  unfold analyze_text, try_except, bind, lift, time_time, uuid4, ret.
  assert (Hsum : exists x, NLP.summarize_text text = Ok x
                           /\ (length x <= 503)%nat).
  { unfold NLP.summarize_text, exc_try.
    destruct (_ <=? _)%nat; eexists;
      (split; [reflexivity|apply NLPProps.truncate_length]). }
  destruct Hsum as (summ & -> & Hsumm).
  assert (Hkw : exists k, NLP.extract_keywords text 10 = Ok k
                          /\ (length k <= 10)%nat).
  { unfold NLP.extract_keywords, exc_try. eexists. split; [reflexivity|].
    rewrite NLPFacts.most_common_Counter, length_take. lia. }
  destruct Hkw as (kw & -> & Hkw).
  destruct (analyze_sentiment_label text) as (sent & -> & Hsent).
  destruct (categorize_text_length text) as (cats & -> & Hcats).
  cbn [ticks drawn].
  match goal with
  | |- context [write_analysis_log ?rec ?st] =>
    destruct (write_analysis_log rec st) as [s2 [log_id|err]]
  end; eexists _, _; (split; [reflexivity|]); simpl; repeat split;
    try done; lia.
Qed.

(** X24. [GET /extract-info] always answers, also when the regex
    engine raises; its four lists are those of the four extractors, none
    with a string twice, and its [entities] are always empty. *)
Theorem extract_info_always_answers text :
  exists r,
    extract_info text = Ok r
    /\ extract_emails text = Ok (info_emails r)
    /\ extract_phone_numbers text = Ok (info_phones r)
    /\ extract_dates text = Ok (info_dates r)
    /\ extract_urls text = Ok (info_urls r)
    /\ NoDup (info_emails r) /\ NoDup (info_phones r)
    /\ NoDup (info_dates r) /\ NoDup (info_urls r)
    /\ info_entities r = [].
Proof.
  pose proof (TextProps.extractors_shape text) as (e & p & u & d & He & Hp
                                                    & Hu & Hd & Hnd).
  unfold extract_info. rewrite He, Hp, Hd, Hu. simpl.
  eexists. split; [reflexivity|]. simpl. tauto.
Qed.

End Routes.

Section Legacy.
Context {W : World} {B : OCR.Backend} {U : NLP.Unicode}
        {nlp_service : NLP.Service} {audit_log : AuditSink}.
Variable form_default : pystr.

(** X25. [POST /upload] always answers, with [success] true and
    the data of the one document, named after the upload and identified by
    the second identifier drawn.  The document is COMPLETED with a text and
    a summary, or FAILED with neither; it is FAILED whenever reading the
    upload raises, and the answer still says [success]. *)
Theorem legacy_upload_always_succeeds file s :
  exists s' r,
    upload_file_legacy form_default file s = (s', Ok r)
    /\ success r = true
    /\ data_filename (data r) = up_filename file
    /\ (data_status (data r) = COMPLETED
        /\ is_Some (data_extracted_text (data r))
        /\ is_Some (data_summary (data r))
        \/ data_status (data r) = FAILED
           /\ data_extracted_text (data r) = None
           /\ data_summary (data r) = None)
    /\ (forall e, up_read file = Raise e -> data_status (data r) = FAILED).
Proof.
  unfold upload_file_legacy, try_except, bind, uuid4.
  set (s1 := {| ticks := ticks s; drawn := S (drawn s) |}).
  destruct (process_batch_run (uuid_value (drawn s)) (py "legacy_user") None
              form_default [file] s1)
    as (s' & resp & -> & _ & _ & _ & _ & _ & _ & Hres & Hout).
  simpl in Hres. rewrite Hres.
  inversion Hout as [|? r0 ? rs [Hshape Hraise] Hnil]; subst.
  inversion Hnil; subst.
  eexists _, _. split; [reflexivity|]. simpl.
  split; [done|].
  destruct Hshape as [Hc|Hf].
  - destruct Hc as (Hname & Hst & _ & Htext & Hsumm & _).
    split; [done|]. split; [by left|].
    intros e He. by apply Hraise in He as [? _].
  - destruct Hf as (Hname & Hst & _ & Htext & Hsumm & _).
    split; [done|]. split; [by right|].
    intros e He. by apply Hraise in He as [? _].
Qed.

End Legacy.
End EndpointFacts.

(* ===================================================================== *)
(** * app/services/nlp.py: the categories of the analysis pipeline *)
(* ===================================================================== *)

Module Pipeline.
Import Py Eff NLP Analysis.

(** [self.categories] *)
Definition categories : list pystr :=
  map py ["Contrato"; "Relatório"; "Proposta"; "Documentação Técnica";
          "Correspondência"; "Formulário"; "Certificado"; "Outros"]%string.

(** A copy of [self.categories]. *)
Definition get_supported_categories : list pystr := categories.

Definition category_keywords : list (pystr * list pystr) :=
  [ (py "Contrato",
     map py ["contrato"; "acordo"; "cláusula"; "termo"; "condição"]%string);
    (py "Relatório",
     map py ["relatório"; "análise"; "dados"; "resultado";
             "estatística"]%string);
    (py "Proposta",
     map py ["proposta"; "orçamento"; "cotação"; "oferta";
             "projeto"]%string);
    (py "Documentação Técnica",
     map py ["manual"; "especificação"; "técnico"; "procedimento"]%string);
    (py "Correspondência",
     map py ["carta"; "email"; "comunicado"; "ofício";
             "memorando"]%string);
    (py "Formulário",
     map py ["formulário"; "cadastro"; "inscrição"; "solicitação"]%string);
    (py "Certificado",
     map py ["certificado"; "diploma"; "atestado";
             "comprovante"]%string) ].

(** The loop of [_categorize_text] over the items of [category_keywords]. *)
Fixpoint detect_categories (text_lower : pystr)
         (patterns : list (pystr * list pystr))
         (detected_categories : list pystr) : list pystr :=
  match patterns with
  | [] => detected_categories
  | (category, keywords) :: rest =>
    if existsb (fun keyword => contains keyword text_lower) keywords
    then detect_categories text_lower rest (detected_categories ++ [category])
    else detect_categories text_lower rest detected_categories
  end.

Section Service.
Context {U : Unicode}.

Definition _categorize_text (text : pystr) : exc (list pystr) :=
  exc_try
    (let text_lower := lower text in
     let detected_categories :=
       detect_categories text_lower category_keywords [] in
     let detected_categories :=
       if nonempty detected_categories then detected_categories
       else detected_categories ++ [py "Outros"] in
     Ok detected_categories)
    (fun _ => Ok [py "Outros"]).

End Service.
End Pipeline.

Module PipelineFacts.
Import Py Eff Sorting SortingFacts NLP Analysis AnalysisFacts Pipeline.

(** A category one of whose keywords occurs in the text. *)
Definition detects (text_lower : pystr) (p : pystr * list pystr) : Prop :=
  existsb (fun keyword => contains keyword text_lower) (snd p) = true.

#[export] Instance detects_dec text_lower p : Decision (detects text_lower p).
Proof. unfold detects. apply _. Defined.

Lemma detect_categories_spec text_lower patterns acc :
  detect_categories text_lower patterns acc
  = acc ++ map fst (filter (detects text_lower) patterns).
Proof.
  revert acc. induction patterns as [|[name kws] patterns IH]; intros acc;
    simpl.
  - by rewrite app_nil_r.
  - rewrite filter_cons.
    destruct (decide (detects text_lower (name, kws))) as [Hd|Hd];
      unfold detects in Hd; simpl in Hd.
    + rewrite Hd, IH. simpl. by rewrite <- app_assoc.
    + apply not_true_is_false in Hd. rewrite Hd. apply IH.
Qed.

Lemma category_keywords_NoDup : NoDup (map fst category_keywords).
Proof. apply (bool_decide_unpack _). by vm_compute. Qed.

Lemma category_keywords_supported :
  Forall (fun name => name ∈ get_supported_categories
                      /\ name <> py "Outros")
         (map fst category_keywords).
Proof. apply (bool_decide_unpack _). by vm_compute. Qed.

Lemma category_patterns_unsupported :
  Forall (fun name => name ∉ get_supported_categories)
         (py "geral" :: map fst category_patterns).
Proof. apply (bool_decide_unpack _). by vm_compute. Qed.

Section Service.
Context {U : Unicode}.

(** The names [categorize_text] answers with. *)
Lemma categorize_text_names text :
  exists names,
    categorize_text text = Ok names
    /\ Forall (fun name => name ∈ py "geral" :: map fst category_patterns)
              names.
Proof.
  unfold categorize_text.
  destruct (score_categories_names (lower text) category_patterns [])
    as (res & -> & Hnames).
  simpl in *.
  set (sorted := sort_by_desc Qltb category_confidence res).
  destruct (nonempty sorted).
  - eexists. split; [reflexivity|].
    apply Forall_forall. intros name Hin. right.
    rewrite <- firstn_map in Hin. apply subseteq_take in Hin.
    unfold sorted in Hin.
    assert (Hperm : map category (sort_by_desc Qltb category_confidence res)
                    ≡ₚ map category res)
      by apply Permutation_map, sort_by_desc_perm.
    rewrite Hperm, Hnames in Hin.
    eapply elem_of_sublist; [exact Hin|].
    exact (sublist_map_filter fst (has_match (lower text))
                              category_patterns).
  - eexists. split; [reflexivity|]. repeat constructor.
Qed.

(** X26. [_categorize_text] never raises and returns at least
    one name, no name twice, each of them among [get_supported_categories],
    with "Outros" only on its own, when no keyword occurs in the text; no
    name that [categorize_text] returns is among
    [get_supported_categories]. *)
Theorem categorizers_disagree_on_names text :
  (exists names,
      _categorize_text text = Ok names
      /\ names <> []
      /\ NoDup names
      /\ Forall (fun name => name ∈ get_supported_categories) names
      /\ (py "Outros" ∈ names
          <-> forall p, p ∈ category_keywords -> ~ detects (lower text) p)
      /\ (py "Outros" ∈ names -> names = [py "Outros"]))
  /\ (exists names,
         categorize_text text = Ok names
         /\ Forall (fun name => name ∉ get_supported_categories) names).
Proof.
  split.
  - unfold _categorize_text. rewrite detect_categories_spec. simpl.
    set (found := filter (detects (lower text)) category_keywords).
    assert (Hsub : sublist (map fst found) (map fst category_keywords))
      by apply sublist_map_filter.
    assert (Hsupp : forall name,
               name ∈ map fst found ->
               name ∈ get_supported_categories /\ name <> py "Outros").
    { intros name Hin.
      pose proof category_keywords_supported as H.
      rewrite Forall_forall in H. apply H.
      eapply elem_of_sublist; [exact Hin|exact Hsub]. }
    destruct (map fst found) as [|n0 rest] eqn:Hfound; simpl.
    + eexists. split; [reflexivity|]. split; [done|].
      split; [repeat constructor; set_solver|].
      split; [repeat constructor|].
      split; [|done]. split; [|intros; left].
      intros _ p Hp Hd.
      assert (Hin : fst p ∈ map fst found).
      { apply list_elem_of_In, in_map_iff. exists p. split; [done|].
        apply list_elem_of_In, list_elem_of_filter. done. }
      rewrite Hfound in Hin. by apply elem_of_nil in Hin.
    + eexists. split; [reflexivity|]. split; [done|].
      split.
      { eapply sublist_NoDup; [|exact Hsub].
        apply category_keywords_NoDup. }
      split.
      { apply Forall_forall. intros name Hin. by apply Hsupp. }
      assert (Hno : py "Outros" ∉ n0 :: rest).
      { intros Hin. by destruct (Hsupp _ Hin). }
      split; [|done]. split; [done|].
      intros Hnone. exfalso.
      assert (Hin : n0 ∈ map fst found) by (rewrite Hfound; left).
      clear Hfound. apply list_elem_of_In, in_map_iff in Hin.
      destruct Hin as (p & _ & Hin%list_elem_of_In).
      apply list_elem_of_filter in Hin as [Hd Hin].
      by apply (Hnone p).
  - destruct (categorize_text_names text) as (names & -> & Hnames).
    exists names. split; [done|].
    pose proof category_patterns_unsupported as H.
    rewrite Forall_forall in H, Hnames. apply Forall_forall.
    intros name Hin. by apply H, Hnames.
Qed.

End Service.
End PipelineFacts.
